(** * ONC toolbox: quality-control tests, period segmentation, ferry and
    profiler utilities, and the client's handling of API responses

    A shallow embedding of [ONCToolbox/qaqc.py], [ONCToolbox/utils/core.py]
    ([split_periods], [nan_onc_flags], [remove_onc_flag_vars]),
    [ONCToolbox/utils/profilers.py], [ONCToolbox/utils/ferries.py],
    [ONCToolbox/utils/locations.py] and of the parts of the two [core.py]
    that work on a response once it is received ([get_deployments],
    [get_all_location_codes], [import_txt_from_url], [scrub_token]).

    Modelling conventions.
    - Sample values are IEEE binary64 numbers, as in numpy: Rocq's primitive
      [float].  A missing value is NaN, and every comparison with a NaN
      operand is false.
    - A timestamp is an integer count of nanoseconds ([datetime64[ns]]).
    - A one-dimensional [xr.DataArray] with a [time] coordinate is the list
      of its (time label, value) pairs in storage order.
    - A Python exception is a [Raise] result.
    - A [str] is the string of its bytes; a [dict] is the list of its
      (key, value) pairs in insertion order.
    - A request to the API is not modelled: a method of the client is a
      function of the response it receives. *)

From Stdlib Require Import ZArith List Bool Lia Floats String Sorted Permutation.
From Stdlib Require DecimalString DecimalNat.
Import ListNotations.
Local Open Scope Z_scope.
#[local] Set Warnings "-inexact-float".

(* ===================================================================== *)
(** * Exceptions *)
(* ===================================================================== *)

Inductive exn : Type := IndexError | ValueError | KeyError.

Inductive result (A : Type) : Type :=
| Ok (a : A)
| Raise (e : exn).
Arguments Ok {A} a.
Arguments Raise {A} e.

Definition bind {A B : Type} (r : result A) (k : A -> result B) : result B :=
  match r with
  | Ok a => k a
  | Raise e => Raise e
  end.

Notation "x <- r ;; k" := (bind r (fun x => k))
  (at level 61, r at next level, right associativity).

(* ===================================================================== *)
(** * Flag taxonomy: [class FLAG] of qaqc.py *)
(* ===================================================================== *)

Module FLAG.

Inductive t : Type :=
| NOT_EVALUATED
| PASS
| HIGH_INTEREST
| SUSPECT
| FAIL
| MISSING_DATA.

(** The integer each member stands for in the [int8] flag arrays. *)
Definition code (f : t) : Z :=
  match f with
  | NOT_EVALUATED => 0
  | PASS => 1
  | HIGH_INTEREST => 2
  | SUSPECT => 3
  | FAIL => 4
  | MISSING_DATA => 9
  end.

(** [flag == FLAG.X] on the integer codes. *)
Definition eqb (a b : t) : bool := code a =? code b.

End FLAG.

(* ===================================================================== *)
(** * Time *)
(* ===================================================================== *)

(** [np.timedelta64(n, 's')] and [timedelta(seconds=n)] in nanoseconds. *)
Definition sec (n : Z) : Z := n * 1000000000.

(** [int64 -> float64], as [astype(float)] does on a timedelta array. *)
Definition float_of_Z (z : Z) : float :=
  if z <? 0 then PrimFloat.opp (PrimFloat.of_uint63 (Uint63.of_Z (- z)))
  else PrimFloat.of_uint63 (Uint63.of_Z z).

(* ===================================================================== *)
(** * One-dimensional data arrays *)
(* ===================================================================== *)

Definition DataArray (A : Type) : Type := list (Z * A).

Section ArrayOps.
Context {A B C : Type}.

(** The [time] index and the values of an array. *)
Definition index (da : DataArray A) : list Z := map fst da.
Definition values (da : DataArray A) : list A := map snd da.

(** An elementwise function of one array (a ufunc, a comparison with a
    scalar, [np.isnan], ...): the index is kept. *)
Definition dmap (f : A -> B) (da : DataArray A) : DataArray B :=
  map (fun p => (fst p, f (snd p))) da.

(** [xr.full_like(da, v)]. *)
Definition full_like (da : DataArray A) (v : B) : DataArray B :=
  dmap (fun _ => v) da.

(** First value stored under a label. *)
Fixpoint lookup (t : Z) (da : DataArray A) : option A :=
  match da with
  | [] => None
  | (t', x) :: rest => if t =? t' then Some x else lookup t rest
  end.

End ArrayOps.

(** Equality of two indexes ([pandas.Index.equals]). *)
Fixpoint index_eqb (a b : list Z) : bool :=
  match a, b with
  | [], [] => true
  | x :: a', y :: b' => (x =? y) && index_eqb a' b'
  | _, _ => false
  end.

Definition memb (t : Z) (l : list Z) : bool := existsb (Z.eqb t) l.

(** [not Index.is_unique]. *)
Fixpoint has_dup (l : list Z) : bool :=
  match l with
  | [] => false
  | x :: l' => memb x l' || has_dup l'
  end.

(** [Index.is_monotonic_increasing] (not strict). *)
Fixpoint is_monotonic_increasing (l : list Z) : bool :=
  match l with
  | [] => true
  | x :: l' =>
      match l' with
      | [] => true
      | y :: _ => (x <=? y) && is_monotonic_increasing l'
      end
  end.

Section Alignment.
Context {A B : Type}.

(** Pairs the entries of [a] whose label occurs in [b] with the value [b]
    stores under that label, in the order of [a]. *)
Fixpoint inner_join (a : DataArray A) (b : DataArray B) : DataArray (A * B) :=
  match a with
  | [] => []
  | (t, x) :: a' =>
      match lookup t b with
      | Some y => (t, (x, y)) :: inner_join a' b
      | None => inner_join a' b
      end
  end.

(** [xr.align(a, b, join='inner')], which every binary operation of two
    arrays performs first: equal indexes are left as they are (the arrays
    are paired by position); otherwise both are re-indexed to the
    intersection of their labels, which pandas refuses ([ValueError]) for
    an index with repeated labels. *)
Definition align (a : DataArray A) (b : DataArray B) : result (DataArray (A * B)) :=
  if index_eqb (index a) (index b) then
    Ok (map (fun pq : (Z * A) * (Z * B) => (fst (fst pq), (snd (fst pq), snd (snd pq)))) (combine a b))
  else if has_dup (index a) || has_dup (index b) then Raise ValueError
  else Ok (inner_join a b).

End Alignment.

(** A binary operator on two arrays ([a | b], [a & b]). *)
Definition binop {A B C : Type} (f : A -> B -> C)
    (a : DataArray A) (b : DataArray B) : result (DataArray C) :=
  ab <- align a b ;;
  Ok (dmap (fun xy : A * B => f (fst xy) (snd xy)) ab).

(** [a.where(cond, other)] with [other] given: xarray aligns [a] and [cond]
    with [join='exact'], so indexes that differ raise [ValueError]; then
    the value of [a] is kept where [cond] holds and [other] is stored where
    it does not. *)
Definition where_da {A : Type} (a : DataArray A) (cond : DataArray bool) (other : A)
    : result (DataArray A) :=
  if index_eqb (index a) (index cond) then
    Ok (map (fun pc : (Z * A) * (Z * bool) => (fst (fst pc), if snd (snd pc) then snd (fst pc) else other))
            (combine a cond))
  else Raise ValueError.

(** The same statement on one sample, for tests whose arrays all derive
    from a single input and so share its index. *)
Definition where_ {A : Type} (x : A) (cond : bool) (other : A) : A :=
  if cond then x else other.

(** [da.sortby('time')]: a stable sort on the time label. *)
Fixpoint insert_by_time {A : Type} (p : Z * A) (l : DataArray A) : DataArray A :=
  match l with
  | [] => [p]
  | q :: l' => if fst p <=? fst q then p :: l else q :: insert_by_time p l'
  end.

Definition sortby_time {A : Type} (da : DataArray A) : DataArray A :=
  fold_right insert_by_time [] da.

(** Position of the first element equal to [t] ([list.index]). *)
Fixpoint position (t : Z) (l : list Z) : option nat :=
  match l with
  | [] => None
  | x :: l' => if t =? x then Some O else option_map S (position t l')
  end.

(** [Index.is_monotonic_decreasing] (not strict). *)
Fixpoint is_monotonic_decreasing (l : list Z) : bool :=
  match l with
  | [] => true
  | x :: l' =>
      match l' with
      | [] => true
      | y :: _ => (y <=? x) && is_monotonic_decreasing l'
      end
  end.

(** The positions at which a label is stored. *)
Definition occurrences (t : Z) (idx : list Z) : list nat :=
  map fst (filter (fun ix : nat * Z => snd ix =? t) (combine (seq 0 (List.length idx)) idx)).

Fixpoint contiguous (l : list nat) : bool :=
  match l with
  | [] => true
  | i :: l' =>
      match l' with
      | [] => true
      | j :: _ => (j =? S i)%nat && contiguous l'
      end
  end.

(** [Index.get_slice_bound(t, side)] on an index that is not monotonic
    increasing.  A label of the index is located by position: the first
    position for the left bound, one past the last for the right bound,
    and [KeyError] when its occurrences do not form one run.  A label that
    is absent is bisected on a monotonic decreasing index (both bounds are
    then the number of larger labels) and raises [KeyError] otherwise. *)
Definition slice_bound (right : bool) (t : Z) (idx : list Z) : result nat :=
  match occurrences t idx with
  | [] =>
      if is_monotonic_decreasing idx
      then Ok (List.length (filter (fun x => t <? x) idx))
      else Raise KeyError
  | i :: occ =>
      if contiguous (i :: occ)
      then Ok (if right then S (last occ i) else i)
      else Raise KeyError
  end.

(** [da.sel(time=slice(start, stop))], bounds included; [stop] may be
    [None].  On a monotonic increasing index the bounds are found by
    bisection, so the selection is the samples whose label lies in the
    range.  On any other index the selection runs between the positions of
    the two bounds. *)
Definition sel_slice {A : Type} (da : DataArray A) (start : Z) (stop : option Z)
    : result (DataArray A) :=
  if is_monotonic_increasing (index da) then
    Ok (filter (fun p => (start <=? fst p) &&
                         match stop with Some s => fst p <=? s | None => true end) da)
  else
    i <- slice_bound false start (index da) ;;
    j <- match stop with
         | Some s => slice_bound true s (index da)
         | None => Ok (List.length da)
         end ;;
    Ok (firstn (j - i)%nat (skipn i da)).

(** Smallest and largest element of a list ([.min()], [.max()]); an empty
    array raises [ValueError]. *)
Definition list_min (l : list Z) : result Z :=
  match l with
  | [] => Raise ValueError
  | x :: l' => Ok (fold_left Z.min l' x)
  end.

Definition list_max (l : list Z) : result Z :=
  match l with
  | [] => Raise ValueError
  | x :: l' => Ok (fold_left Z.max l' x)
  end.

(* ===================================================================== *)
(** * qaqc.py *)
(* ===================================================================== *)

Module Qaqc.
Import FLAG.
Local Open Scope float_scope.

(** ** [location_test] *)

Definition location_test (latitude longitude : DataArray float)
    : result (DataArray FLAG.t) :=
  let flag := full_like latitude NOT_EVALUATED in
  c <- binop orb (dmap (fun x => abs x <? 90) latitude)
                 (dmap (fun x => abs x <? 180) longitude) ;;
  flag <- where_da flag c FAIL ;;
  c <- binop andb (dmap (fun x => 90 <? abs x) latitude)
                  (dmap (fun x => 180 <? abs x) longitude) ;;
  flag <- where_da flag c PASS ;;
  c <- binop orb (dmap (fun x => negb (is_nan x)) latitude)
                 (dmap (fun x => negb (is_nan x)) longitude) ;;
  flag <- where_da flag c MISSING_DATA ;;
  Ok flag.

(** The three [where] statements of [location_test] on one (latitude,
    longitude) pair. *)
Definition location_flag (lat lon : float) : FLAG.t :=
  let flag := NOT_EVALUATED in
  let flag := where_ flag ((abs lat <? 90) || (abs lon <? 180)) FAIL in
  let flag := where_ flag ((90 <? abs lat) && (180 <? abs lon)) PASS in
  let flag := where_ flag (negb (is_nan lat) || negb (is_nan lon)) MISSING_DATA in
  flag.

(** ** [gross_range_test] *)

Definition gross_range_flag (sensor_min sensor_max : float)
    (operator_min operator_max : option float) (data : float) : FLAG.t :=
  let flag := NOT_EVALUATED in
  let flag := where_ flag ((data <? sensor_min) && (sensor_max <? data)) PASS in
  let flag := where_ flag ((sensor_min <? data) || (data <? sensor_max)) FAIL in
  let flag :=
    match operator_min with
    | Some operator_min =>
        if negb (sensor_min =? operator_min)
        then where_ flag ((operator_min <? data) || (data <? sensor_min)) SUSPECT
        else flag
    | None => flag
    end in
  let flag :=
    match operator_max with
    | Some operator_max =>
        if negb (sensor_max =? operator_max)
        then where_ flag ((data <? operator_max) || (sensor_max <? data)) SUSPECT
        else flag
    | None => flag
    end in
  let flag := where_ flag (negb (is_nan data)) MISSING_DATA in
  flag.

Definition gross_range_test (data : DataArray float)
    (sensor_min sensor_max : float)
    (operator_min operator_max : option float) : DataArray FLAG.t :=
  dmap (gross_range_flag sensor_min sensor_max operator_min operator_max) data.

(** ** Window statistics *)

Definition float_of_nat (n : nat) : float := float_of_Z (Z.of_nat n).

(** numpy's sum of a contiguous run of doubles (the inner loop of
    [np.add.reduce]) is pairwise.  Fewer than 8 numbers are added from left
    to right, starting from -0.0.  Up to 128 numbers are added into 8
    accumulators taken in turn, the accumulators are then added two by
    two, and the numbers after the last full block of 8 are added to the
    result one by one.  A longer run is cut in two, the first part of
    [n / 2] numbers rounded down to a multiple of 8, and the two sums are
    added. *)
Fixpoint add_into (r a : list float) : list float :=
  match r, a with
  | x :: r', y :: a' => (x + y) :: add_into r' a'
  | _, _ => r
  end.

(** [blocks] blocks of 8 added into the accumulators [r], and what is left
    of the run. *)
Fixpoint sum_blocks (blocks : nat) (r l : list float) : list float * list float :=
  match blocks with
  | O => (r, l)
  | S b => sum_blocks b (add_into r (firstn 8 l)) (skipn 8 l)
  end.

Definition sum_unrolled (l : list float) : float :=
  let n := List.length l in
  let rl := sum_blocks (n / 8 - 1) (firstn 8 l) (skipn 8 l) in
  let r := fst rl in
  let res := ((nth 0 r 0 + nth 1 r 0) + (nth 2 r 0 + nth 3 r 0))
             + ((nth 4 r 0 + nth 5 r 0) + (nth 6 r 0 + nth 7 r 0)) in
  fold_left PrimFloat.add (snd rl) res.

(** [depth] bounds the number of times a run is cut in two; the length of
    the run is enough. *)
Fixpoint pairwise_sum (depth : nat) (l : list float) : float :=
  let n := List.length l in
  if (n <? 8)%nat then fold_left PrimFloat.add l neg_zero
  else if (n <=? 128)%nat then sum_unrolled l
  else match depth with
       | O => sum_unrolled l
       | S d =>
           let n2 := (n / 2 - (n / 2) mod 8)%nat in
           pairwise_sum d (firstn n2 l) + pairwise_sum d (skipn n2 l)
       end.

Definition fsum (l : list float) : float := pairwise_sum (List.length l) l.

Definition fmean (l : list float) : float := fsum l / float_of_nat (List.length l).

(** numpy's [ndarray.std()]: the population standard deviation (ddof 0),
    root of the mean squared deviation from the mean.  A NaN among the
    values is not skipped. *)
Definition np_std (l : list float) : float :=
  let m := fmean l in
  sqrt (fmean (map (fun x => (x - m) * (x - m)) l)).

(** xarray's [.std()] of float data skips NaN ([skipna]); without the
    optional accelerators it is numpy's [nanstd] along the window: the NaN
    are replaced by 0 where they stand, the sum is divided by the number of
    values present, the deviations of the NaN are set to 0, and the sum of
    the squares is divided by the same number.  The result is NaN when no
    value is present. *)
Definition nanstd (l : list float) : float :=
  let arr := map (fun x => if is_nan x then 0 else x) l in
  let cnt := float_of_nat (List.length (filter (fun x => negb (is_nan x)) l)) in
  let avg := fsum arr / cnt in
  let sqr := map (fun x => if is_nan x then 0 else (x - avg) * (x - avg)) l in
  sqrt (fsum sqr / cnt).

(** [rolling({'time': w}, ...).construct('window')] pads the series with
    [w - 1] NaN and slides a window of [w] samples over it.  The padded
    array of an empty series is shorter than the window, which is refused
    ([ValueError]).  The rows built on another series are read through
    [window_trailing] and [window_centered] below. *)
Definition construct {A : Type} (data : DataArray A) : result (DataArray A) :=
  match data with
  | [] => Raise ValueError
  | _ => Ok data
  end.

(** Sample at a (possibly out of range) position; NaN pads both ends. *)
Definition at_pos (xs : list float) (j : Z) : float :=
  if (j <? 0)%Z then nan else nth (Z.to_nat j) xs nan.

(** Row [i] of [rolling({'time': w}).construct('window')]: the [w] samples
    that end at position [i]. *)
Definition window_trailing (w : nat) (xs : list float) (i : nat) : list float :=
  map (fun k => at_pos xs (Z.of_nat i - Z.of_nat w + 1 + Z.of_nat k)) (seq 0 w).

(** The window of [rolling({'time': 2*h+1}, center=True)] at position [i]:
    [h] samples on each side. *)
Definition window_centered (h : nat) (xs : list float) (i : nat) : list float :=
  map (fun k => at_pos xs (Z.of_nat i - Z.of_nat h + Z.of_nat k)) (seq 0 (2 * h + 1)).

(** ** [spike_test] *)

(** [spkref]: mean of the first and the last column of the constructed
    windows. *)
Definition spkref (spike_half_window : nat) (xs : list float) : list float :=
  map (fun i =>
         let w := window_trailing (spike_half_window * 2 + 1) xs i in
         let spkref_left := hd nan w in
         let spkref_right := last w nan in
         (spkref_left + spkref_right) / 2)
      (seq 0 (List.length xs)).

(** [sd]: [rolling(..., center=True, min_periods=1).std()], the deviation
    of the samples present in each centred window, as xarray computes it
    from the constructed windows. *)
Definition rolling_std (std_half_window : nat) (xs : list float) : list float :=
  map (fun i => nanstd (window_centered std_half_window xs i)) (seq 0 (List.length xs)).

Definition spike_flag (low_multiplier high_multiplier : float)
    (data spkref sd : float) : FLAG.t :=
  let threshold_low := low_multiplier * sd in
  let threshold_high := high_multiplier * sd in
  let flag := NOT_EVALUATED in
  let flag := where_ flag (negb (abs (data - spkref) <? threshold_low)
                           && negb (threshold_high <? abs (data - spkref))) PASS in
  let flag := where_ flag ((abs (data - spkref) <? threshold_low)
                           || (threshold_high <? abs (data - spkref))) HIGH_INTEREST in
  let flag := where_ flag (negb (threshold_high <? abs (data - spkref))) FAIL in
  let flag := where_ flag (negb (is_nan data)) MISSING_DATA in
  let flag := where_ flag (negb (is_nan spkref)) MISSING_DATA in
  let flag := where_ flag (negb (is_nan threshold_low) || negb (is_nan threshold_high))
                     NOT_EVALUATED in
  flag.

(** The flags of a series in time order. *)
Definition spike_flags (data : DataArray float)
    (spike_half_window std_half_window : nat)
    (low_multiplier high_multiplier : float) : DataArray FLAG.t :=
  let spkref := spkref spike_half_window (values data) in
  let sd := rolling_std std_half_window (values data) in
  map (fun drs : (Z * float) * float * float =>
         (fst (fst (fst drs)),
          spike_flag low_multiplier high_multiplier
                     (snd (fst (fst drs))) (snd (fst drs)) (snd drs)))
      (combine (combine data spkref) sd).

Definition spike_test (data : DataArray float)
    (spike_half_window std_half_window : nat)
    (low_multiplier high_multiplier : float) : result (DataArray FLAG.t) :=
  let data := sortby_time data in
  data <- construct data ;;
  Ok (spike_flags data spike_half_window std_half_window low_multiplier high_multiplier).

(** ** [flat_line_test] *)

Definition flat_line_flag (max_allowed_std wfstd wsstd : float) : FLAG.t :=
  let flag := NOT_EVALUATED in
  let flag := if wsstd <=? max_allowed_std then SUSPECT else flag in
  let flag := if wfstd <=? max_allowed_std then FAIL else flag in
  let flag := if FLAG.eqb flag NOT_EVALUATED then PASS else flag in
  flag.

(** The flags once the windows are built. *)
Definition flat_line_flags (data : DataArray float) (max_allowed_std : float)
    (fail_half_window_size suspect_half_window_size : nat) : DataArray FLAG.t :=
  let wfstd i := nanstd (window_trailing (fail_half_window_size * 2 + 1) (values data) i) in
  let wsstd i := nanstd (window_trailing (suspect_half_window_size * 2 + 1) (values data) i) in
  map (fun ip : nat * (Z * float) =>
         (fst (snd ip), flat_line_flag max_allowed_std (wfstd (fst ip)) (wsstd (fst ip))))
      (combine (seq 0 (List.length data)) data).

Definition flat_line_test (data : DataArray float) (max_allowed_std : float)
    (fail_half_window_size suspect_half_window_size : nat) : result (DataArray FLAG.t) :=
  data <- construct data ;;
  Ok (flat_line_flags data max_allowed_std fail_half_window_size suspect_half_window_size).

(** ** [rate_of_change_test] *)

(** [_delta_data / _delta_time]: change of value per elapsed second between
    consecutive samples. *)
Fixpoint diff_rate (prev : Z * float) (l : DataArray float) : list float :=
  match l with
  | [] => []
  | p :: l' =>
      ((snd p - snd prev) / (float_of_Z (fst p - fst prev) / 1000000000))
        :: diff_rate p l'
  end.

(** [np.concatenate([np.array([np.nan]), rate])]. *)
Definition rate (data : DataArray float) : list float :=
  nan :: match data with
         | [] => []
         | p :: l => diff_rate p l
         end.

Definition rate_of_change_flag (std_multiplier rate_std : float)
    (data rate : float) : FLAG.t :=
  let flag := NOT_EVALUATED in
  let flag := where_ flag (std_multiplier * rate_std <? abs rate) PASS in
  let flag := where_ flag (negb (std_multiplier * rate_std <? abs rate)) HIGH_INTEREST in
  let flag := where_ flag (negb (is_nan data)) MISSING_DATA in
  let flag := where_ flag (negb (is_nan rate)) MISSING_DATA in
  flag.

Definition rate_of_change_test (data : DataArray float) (std_multiplier : float)
    : DataArray FLAG.t :=
  let rate := rate data in
  map (fun dr : (Z * float) * float =>
         (fst (fst dr),
          rate_of_change_flag std_multiplier (np_std rate) (snd (fst dr)) (snd dr)))
      (combine data rate).

End Qaqc.

(* ===================================================================== *)
(** * utils/core.py: [split_periods] *)
(* ===================================================================== *)

Module Core.

Record Period : Type := { begin_datetime : Z; end_datetime : Z }.

(** [da_time['time'].diff('time')]: under the label of every sample but the
    first, the time elapsed since the sample before it. *)
Fixpoint diff_from (prev : Z) (l : list Z) : DataArray Z :=
  match l with
  | [] => []
  | t :: l' => (t, t - prev) :: diff_from t l'
  end.

Definition time_diff (times : list Z) : DataArray Z :=
  match times with
  | [] => []
  | t :: l => diff_from t l
  end.

(** [list(da_time.where(diff > np.timedelta64(min_gap, 's'), drop=True)
    .get_index('time'))]: [where] aligns the array with the condition
    (inner join) and [drop] keeps the labels at which the condition holds. *)
Definition break_points {A : Type} (da_time : DataArray A) (min_gap : Z)
    : result (list Z) :=
  let cond := dmap (fun d => sec min_gap <? d) (time_diff (index da_time)) in
  ac <- align da_time cond ;;
  Ok (index (filter (fun p : Z * (A * bool) => snd (snd p)) ac)).

(** One turn of the loop over [dts]: the period that begins at [dt], or
    nothing when its selection is empty. *)
Definition period_at {A : Type} (da_time : DataArray A) (dts : list Z) (dt : Z)
    : result (option Period) :=
  stop <- (if dt =? last dts 0 then Ok None
           else
             match position dt dts with
             | None => Raise ValueError
             | Some dtidx =>
                 match nth_error dts (dtidx + 1) with
                 | None => Raise IndexError
                 | Some next => Ok (Some (next - sec 30))
                 end
             end) ;;
  period <- sel_slice da_time dt stop ;;
  match index period with
  | [] => Ok None
  | _ =>
      b <- list_min (index period) ;;
      e <- list_max (index period) ;;
      Ok (Some {| begin_datetime := b; end_datetime := e |})
  end.

Fixpoint periods_loop {A : Type} (da_time : DataArray A) (dts todo : list Z)
    : result (list Period) :=
  match todo with
  | [] => Ok []
  | dt :: todo' =>
      p <- period_at da_time dts dt ;;
      ps <- periods_loop da_time dts todo' ;;
      Ok (match p with
          | Some p => p :: ps
          | None => ps
          end)
  end.

Definition split_periods {A : Type} (da_time : DataArray A) (min_gap : Z)
    : result (list Period) :=
  let da_time := sortby_time da_time in
  dts <- break_points da_time min_gap ;;
  tmin <- list_min (index da_time) ;;
  match dts with
  | [] => Raise IndexError
  | dts0 :: _ =>
      let dts := if negb (tmin =? dts0) then tmin :: dts else dts in
      periods <- periods_loop da_time dts dts ;;
      match periods with
      | [] =>
          tmax <- list_max (index da_time) ;;
          Ok [ {| begin_datetime := tmin; end_datetime := tmax |} ]
      | _ => Ok periods
      end
  end.

End Core.

(* ===================================================================== *)
(** * utils/profilers.py: [identify_profiles] *)
(* ===================================================================== *)

Module Profilers.
Import Core.
Local Open Scope string_scope.

Record Profile : Type :=
  { profile_begin_datetime : Z;
    profile_end_datetime : Z;
    direction : string }.

(** [da.sel(time=t)] used as a number: the value stored under the label;
    a label that is absent raises [KeyError], and one stored more than once
    selects several values, whose truth value [if] refuses ([ValueError]). *)
Definition sel_label {A : Type} (da : DataArray A) (t : Z) : result A :=
  match filter (fun p => fst p =? t)%Z da with
  | [] => Raise KeyError
  | [p] => Ok (snd p)
  | _ => Raise ValueError
  end.

(** The body of the loop over the periods. *)
Definition assign_profile (cable_length : DataArray float) (buffer : Z)
    (profile : Period) : result Profile :=
  _cl <- sel_slice cable_length (begin_datetime profile) (Some (end_datetime profile)) ;;
  tmin <- list_min (index _cl) ;;
  _start <- sel_label _cl tmin ;;
  tmax <- list_max (index _cl) ;;
  _stop <- sel_label _cl tmax ;;
  let profile_dir := if (0 <? _start - _stop)%float then "down" else "up" in
  Ok {| profile_begin_datetime := (begin_datetime profile - sec buffer)%Z;
        profile_end_datetime := (end_datetime profile + sec buffer)%Z;
        direction := profile_dir |}.

Fixpoint assign_profiles (cable_length : DataArray float) (buffer : Z)
    (profiles : list Period) : result (list Profile) :=
  match profiles with
  | [] => Ok []
  | profile :: rest =>
      p <- assign_profile cable_length buffer profile ;;
      ps <- assign_profiles cable_length buffer rest ;;
      Ok (p :: ps)
  end.

(** The default of [max_allowed_std]. *)
Definition default_max_allowed_std : float := 0.02.

(** Everything [identify_profiles] does before it looks at
    [profile_direction].  [flat_line_test] is called with its default half
    windows (5 and 3). *)
Definition assigned_profiles (cable_length : DataArray float) (buffer : Z)
    (max_allowed_std : float) (min_gap : Z) : result (list Profile) :=
  flag_cl <- Qaqc.flat_line_test cable_length max_allowed_std 5 3 ;;
  let profiling_state := filter (fun p => FLAG.eqb (snd p) FLAG.PASS) flag_cl in
  profiles <- split_periods profiling_state min_gap ;;
  assign_profiles cable_length buffer profiles.

(** The result is [None] where Python falls off the end of the function. *)
Definition identify_profiles (cable_length : DataArray float)
    (profile_direction : string) (buffer : Z)
    (max_allowed_std : float) (min_gap : Z) : result (option (list Profile)) :=
  assigned_profiles <- assigned_profiles cable_length buffer max_allowed_std min_gap ;;
  if profile_direction =? "all" then Ok (Some assigned_profiles)
  else if profile_direction =? "up" then
    Ok (Some (filter (fun p => direction p =? "up") assigned_profiles))
  else if profile_direction =? "down" then
    Ok (Some (filter (fun p => direction p =? "down") assigned_profiles))
  else Ok None.

End Profilers.

(* ===================================================================== *)
(** * Vocabulary of the statements *)
(* ===================================================================== *)

(** Value stored under a label, [d] when the label is absent. *)
Definition lookup_or {B : Type} (d : B) (t : Z) (b : DataArray B) : B :=
  match lookup t b with
  | Some y => y
  | None => d
  end.

(** [F] applied to every sample of [a] and the sample of [b] with the same
    label. *)
Definition zip_by_label {A B C : Type} (d : B) (F : A -> B -> C)
    (a : DataArray A) (b : DataArray B) : DataArray C :=
  map (fun p => (fst p, F (snd p) (lookup_or d (fst p) b))) a.

(** A period that is not reversed and whose two bounds are among [times]. *)
Definition good_period (times : list Z) (p : Core.Period) : Prop :=
  Core.begin_datetime p <= Core.end_datetime p /\
  In (Core.begin_datetime p) times /\ In (Core.end_datetime p) times.

(** A cast that pays the cable out, holds it, and hauls it in; one sample
    a minute. *)
Definition cast : DataArray float :=
  [ (sec 0, 0); (sec 60, 1); (sec 120, 2); (sec 180, 3); (sec 240, 3);
    (sec 300, 3); (sec 360, 3); (sec 420, 3); (sec 480, 3); (sec 540, 3);
    (sec 600, 3); (sec 660, 3); (sec 720, 3); (sec 780, 2); (sec 840, 1);
    (sec 900, 0) ]%float.

(** The periods the loop of [split_periods] emits, read off consecutive
    entries of [dts]: the candidate that begins at an entry runs to 30
    seconds before the next entry, the last candidate has no upper bound,
    and a candidate that selects no timestamp gives no period. *)
Fixpoint periods_of (times dts : list Z) : list Core.Period :=
  match dts with
  | [] => []
  | dt :: rest =>
      let stop := match rest with
                  | [] => None
                  | next :: _ => Some (next - sec 30)
                  end in
      match filter (fun t => (dt <=? t) &&
                             match stop with Some s => t <=? s | None => true end) times with
      | [] => periods_of times rest
      | t0 :: sel =>
          {| Core.begin_datetime := fold_left Z.min sel t0;
             Core.end_datetime := fold_left Z.max sel t0 |} :: periods_of times rest
      end
  end.

(** [d] lies more than [gap] after every timestamp before it. *)
Definition gapped (gap : Z) (times : list Z) (d : Z) : Prop :=
  forall t, In t times -> t < d -> t + gap < d.

(* ===================================================================== *)
(** * utils/profilers.py: [identify_stops] *)
(* ===================================================================== *)

Module Stops.
Import Core.

(** [int(...)] of a float adds [OverflowError] to the exceptions met so
    far. *)
Inductive outcome (A : Type) : Type :=
| Returns (a : A)
| Raises (e : exn)
| RaisesOverflowError.
Arguments Returns {A} a.
Arguments Raises {A} e.
Arguments RaisesOverflowError {A}.

Definition of_result {A : Type} (r : result A) : outcome A :=
  match r with
  | Ok a => Returns a
  | Raise e => Raises e
  end.

Definition bind_outcome {A B : Type} (r : outcome A) (k : A -> outcome B) : outcome B :=
  match r with
  | Returns a => k a
  | Raises e => Raises e
  | RaisesOverflowError => RaisesOverflowError
  end.

Record Stop : Type :=
  { stop_begin_datetime : Z;
    stop_end_datetime : Z;
    cable_length_out : Z }.

(** Ascending sort of values none of which is NaN. *)
Fixpoint insert_float (x : float) (l : list float) : list float :=
  match l with
  | [] => [x]
  | y :: l' => if (x <=? y)%float then x :: l else y :: insert_float x l'
  end.

Definition sort_floats (l : list float) : list float := fold_right insert_float [] l.

(** [.median()] of float data ([skipna]): the median of the values that
    are present, the mean of the two middle ones when their number is
    even, NaN when there is none. *)
Definition nanmedian (l : list float) : float :=
  let xs := sort_floats (filter (fun x => negb (is_nan x)) l) in
  let n := List.length xs in
  if (n =? 0)%nat then nan
  else if Nat.even n
       then ((nth (n / 2 - 1) xs nan + nth (n / 2) xs nan) / 2)%float
       else nth (n / 2) xs nan.

(** [int(np.ceil(x))]: the least integer not below [x]; NaN raises
    [ValueError] and an infinity [OverflowError]. *)
Definition int_ceil (x : float) : outcome Z :=
  match Prim2SF x with
  | S754_nan => Raises ValueError
  | S754_infinity _ => RaisesOverflowError
  | S754_zero _ => Returns 0
  | S754_finite s m e =>
      Returns (if 0 <=? e then (if s then - (Z.pos m * 2 ^ e) else Z.pos m * 2 ^ e)
               else if s then - (Z.pos m / 2 ^ (- e))
               else - ((- Z.pos m) / 2 ^ (- e)))
  end.

(** The body of the loop over the stops. *)
Definition assign_stop (cable_length : DataArray float) (buffer : Z)
    (stop : Period) : outcome Stop :=
  bind_outcome
    (of_result (sel_slice cable_length (begin_datetime stop) (Some (end_datetime stop))))
    (fun _cl =>
       bind_outcome (int_ceil (nanmedian (values _cl)))
         (fun stop_cl_out =>
            Returns {| stop_begin_datetime := begin_datetime stop - sec buffer;
                       stop_end_datetime := end_datetime stop + sec buffer;
                       cable_length_out := stop_cl_out |})).

Fixpoint assign_stops (cable_length : DataArray float) (buffer : Z)
    (stops : list Period) : outcome (list Stop) :=
  match stops with
  | [] => Returns []
  | stop :: rest =>
      bind_outcome (assign_stop cable_length buffer stop)
        (fun s => bind_outcome (assign_stops cable_length buffer rest)
                    (fun ss => Returns (s :: ss)))
  end.

(** [identify_stops].  The function returns [stops], the list
    [split_periods] gave it; its records are the very objects the loop
    updated and appended to [assigned_stops], so both lists hold the same
    records. *)
Definition identify_stops (cable_length : DataArray float) (buffer : Z)
    (max_allowed_std : float) : outcome (list Stop) :=
  bind_outcome (of_result (Qaqc.flat_line_test cable_length max_allowed_std 5 3))
    (fun flag_cl =>
       let stop_state := filter (fun p => negb (FLAG.eqb (snd p) FLAG.PASS)) flag_cl in
       bind_outcome (of_result (split_periods stop_state 60))
         (fun stops => assign_stops cable_length buffer stops)).

End Stops.

(* ===================================================================== *)
(** * utils/locations.py *)
(* ===================================================================== *)

Module Locations.
Local Open Scope float_scope.
Local Open Scope string_scope.

Record BoundingBox : Type :=
  { lat_min : float; lat_max : float; lon_min : float; lon_max : float; name : string }.

(** A terminal of [BCFTerminal]: a class with a [lat] and a [lon]. *)
Record Terminal : Type := { lat : float; lon : float }.

Module BCFTerminal.
Definition Tsawwassen : Terminal := {| lat := 49.006621; lon := -123.132309 |}.
Definition DukePoint : Terminal := {| lat := 49.162529; lon := -123.891036 |}.
Definition DepartureBay : Terminal := {| lat := 49.193512; lon := -123.954777 |}.
Definition Gabriola : Terminal := {| lat := 49.177846; lon := -123.858655 |}.
Definition NanaimoHarbor : Terminal := {| lat := 49.166714; lon := -123.930933 |}.
Definition SwartzBay : Terminal := {| lat := 48.689047; lon := -123.410817 |}.
Definition PortMcneil : Terminal := {| lat := 50.592621; lon := -127.085620 |}.
Definition AlertBay : Terminal := {| lat := 50.587972; lon := -126.931313 |}.
Definition Sointula : Terminal := {| lat := 50.626701; lon := -127.018700 |}.
Definition HorseshoeBay : Terminal := {| lat := 49.375791; lon := -123.271643 |}.
End BCFTerminal.

Definition TsawwassenBox : BoundingBox :=
  {| lat_min := lat BCFTerminal.Tsawwassen - 0.05;
     lat_max := lat BCFTerminal.Tsawwassen + 0.075;
     lon_min := lon BCFTerminal.Tsawwassen - 0.15;
     lon_max := lon BCFTerminal.Tsawwassen + 0.075;
     name := "Tsawwassen" |}.

Definition DukePointBox : BoundingBox :=
  {| lat_min := lat BCFTerminal.DukePoint - 0.018;
     lat_max := lat BCFTerminal.DukePoint + 0.03;
     lon_min := lon BCFTerminal.DukePoint - 0.01;
     lon_max := lon BCFTerminal.DukePoint + 0.018;
     name := "DukePoint" |}.

Definition DepartureBayBox : BoundingBox :=
  {| lat_min := lat BCFTerminal.DepartureBay - 0.01;
     lat_max := lat BCFTerminal.DepartureBay + 0.03;
     lon_min := lon BCFTerminal.DepartureBay - 0.03;
     lon_max := lon BCFTerminal.DepartureBay + 0.025;
     name := "DepartureBay" |}.

Definition GabriolaBox : BoundingBox :=
  {| lat_min := lat BCFTerminal.Gabriola - 0.01;
     lat_max := lat BCFTerminal.Gabriola + 0.01;
     lon_min := lon BCFTerminal.Gabriola - 0.01;
     lon_max := lon BCFTerminal.Gabriola + 0.01;
     name := "Gabriola" |}.

Definition NanaimoHarborBox : BoundingBox :=
  {| lat_min := lat BCFTerminal.NanaimoHarbor - 0.01;
     lat_max := lat BCFTerminal.NanaimoHarbor + 0.01;
     lon_min := lon BCFTerminal.NanaimoHarbor - 0.01;
     lon_max := lon BCFTerminal.NanaimoHarbor + 0.01;
     name := "NanaimoHarbor" |}.

Definition SwartzBayBox : BoundingBox :=
  {| lat_min := lat BCFTerminal.SwartzBay - 0.02;
     lat_max := lat BCFTerminal.SwartzBay + 0.02;
     lon_min := lon BCFTerminal.SwartzBay - 0.02;
     lon_max := lon BCFTerminal.SwartzBay + 0.02;
     name := "SwartzBay" |}.

Definition PortMcneilBox : BoundingBox :=
  {| lat_min := lat BCFTerminal.PortMcneil - 0.015;
     lat_max := lat BCFTerminal.PortMcneil + 0.015;
     lon_min := lon BCFTerminal.PortMcneil - 0.015;
     lon_max := lon BCFTerminal.PortMcneil + 0.015;
     name := "PortMcNeil" |}.

Definition AlertBayBox : BoundingBox :=
  {| lat_min := lat BCFTerminal.AlertBay - 0.015;
     lat_max := lat BCFTerminal.AlertBay + 0.015;
     lon_min := lon BCFTerminal.AlertBay - 0.015;
     lon_max := lon BCFTerminal.AlertBay + 0.015;
     name := "AlertBay" |}.

Definition SointulaBox : BoundingBox :=
  {| lat_min := lat BCFTerminal.Sointula - 0.015;
     lat_max := lat BCFTerminal.Sointula + 0.015;
     lon_min := lon BCFTerminal.Sointula - 0.015;
     lon_max := lon BCFTerminal.Sointula + 0.015;
     name := "Sointula" |}.

Definition HorseshoeBayBox : BoundingBox :=
  {| lat_min := lat BCFTerminal.HorseshoeBay - 0.045;
     lat_max := lat BCFTerminal.HorseshoeBay + 0.045;
     lon_min := lon BCFTerminal.HorseshoeBay - 0.045;
     lon_max := lon BCFTerminal.HorseshoeBay + 0.055;
     name := "HorseshoeBay" |}.

Definition NanaimoAreaBox : BoundingBox :=
  {| lat_min := 49.13699 - 0.075;
     lat_max := 49.25 + 0.075;
     lon_min := -123.985 - 0.15;
     lon_max := -123.775 + 0.075;
     name := "GreaterNanaimoArea" |}.

End Locations.

(* ===================================================================== *)
(** * utils/ferries.py *)
(* ===================================================================== *)

Module Ferries.
Import Locations.
Local Open Scope float_scope.

(** [cut_transit]: the samples from [cut_begin] seconds after the first
    timestamp to [cut_end] seconds before the last. *)
Definition cut_transit {A : Type} (transect : DataArray A) (cut_begin cut_end : Z)
    : result (DataArray A) :=
  tmin <- list_min (index transect) ;;
  tmax <- list_max (index transect) ;;
  let t_begin := (tmin + sec cut_begin)%Z in
  let t_end := (tmax - sec cut_end)%Z in
  sel_slice transect t_begin (Some t_end).

(** The default [terminals] of [flag_port]. *)
Definition default_terminals : list Terminal :=
  [ BCFTerminal.Tsawwassen; BCFTerminal.DukePoint; BCFTerminal.DepartureBay;
    BCFTerminal.Gabriola; BCFTerminal.NanaimoHarbor; BCFTerminal.SwartzBay;
    BCFTerminal.PortMcneil; BCFTerminal.AlertBay; BCFTerminal.Sointula;
    BCFTerminal.HorseshoeBay ].

(** The condition of the [xr.where] in [flag_port], on one sample. *)
Definition near (bbox_check : float) (latitude longitude : float)
    (terminal : Terminal) : bool :=
  (lat terminal - bbox_check <? latitude) && (latitude <? lat terminal + bbox_check)
  && (lon terminal - bbox_check <? longitude) && (longitude <? lon terminal + bbox_check).

(** [flag_port]; [ds] holds the (latitude, longitude) of every sample.  The
    loop stores 1 where the sample is near the terminal and keeps the flag
    elsewhere. *)
Definition flag_port (ds : DataArray (float * float)) (terminals : list Terminal)
    (bbox_check : float) : DataArray Z :=
  dmap (fun pos =>
          fold_left (fun flag terminal =>
                       if near bbox_check (fst pos) (snd pos) terminal then 1%Z else flag)
                    terminals 0%Z)
       ds.

Definition bboxes : list BoundingBox :=
  [ TsawwassenBox; DepartureBayBox; DukePointBox; NanaimoAreaBox; SwartzBayBox;
    GabriolaBox; NanaimoHarborBox; PortMcneilBox; AlertBayBox; SointulaBox;
    HorseshoeBayBox ].

(** [bbox.lat_min <= lat <= bbox.lat_max and bbox.lon_min <= lon <= bbox.lon_max]. *)
Definition inside (bbox : BoundingBox) (latitude longitude : float) : bool :=
  (lat_min bbox <=? latitude) && (latitude <=? lat_max bbox)
  && (lon_min bbox <=? longitude) && (longitude <=? lon_max bbox).

(** One of the two loops over [bboxes]: the name of the first box that
    holds the position, ['Unknown'] when none does. *)
Definition first_box (boxes : list BoundingBox) (latitude longitude : float) : string :=
  match find (fun bbox => inside bbox latitude longitude) boxes with
  | Some bbox => name bbox
  | None => "Unknown"%string
  end.

(** [determine_transit_reference]; [transit] holds the (latitude,
    longitude) of every sample.  An empty transit has no first value
    ([IndexError]). *)
Definition determine_transit_reference (transit : DataArray (float * float))
    : result (string * string) :=
  let transit := sortby_time transit in
  match transit with
  | [] => Raise IndexError
  | first :: _ =>
      let begin_lat := fst (snd first) in
      let begin_lon := snd (snd first) in
      let end_lat := fst (snd (last transit first)) in
      let end_lon := snd (snd (last transit first)) in
      let departure := first_box bboxes begin_lat begin_lon in
      let arrival := first_box bboxes end_lat end_lon in
      Ok (departure, arrival)
  end.

(** The names [determine_transit_reference] can give. *)
Definition reference_names : list string :=
  [ "Tsawwassen"; "DepartureBay"; "DukePoint"; "GreaterNanaimoArea"; "SwartzBay";
    "PortMcNeil"; "AlertBay"; "Sointula"; "HorseshoeBay"; "Unknown" ]%string.

End Ferries.

(* ===================================================================== *)
(** * Python strings *)
(* ===================================================================== *)

Module Str.
Local Open Scope string_scope.

(** [s.startswith(p)]. *)
Definition startswith (p s : string) : bool := String.prefix p s.

(** [sub in s]: [sub] occurs somewhere in [s]. *)
Fixpoint contains (sub s : string) : bool :=
  String.prefix sub s ||
  match s with
  | EmptyString => false
  | String _ s' => contains sub s'
  end.

(** [s.replace(old, new)] for a non-empty [old]: the occurrences of [old]
    are found from left to right and do not overlap.  [skip] counts the
    characters of a found occurrence that are still to be passed over. *)
Fixpoint replace_from (old new : string) (skip : nat) (s : string) : string :=
  match s with
  | EmptyString => EmptyString
  | String c s' =>
      match skip with
      | S k => replace_from old new k s'
      | O => if String.prefix old s
             then new ++ replace_from old new (String.length old - 1) s'
             else String c (replace_from old new 0 s')
      end
  end.

Definition replace (old new s : string) : string := replace_from old new 0 s.

(** [s.split(sep)] for a non-empty [sep]; [cur] is the field read so far. *)
Fixpoint split_from (sep : string) (skip : nat) (cur s : string) : list string :=
  match s with
  | EmptyString => [cur]
  | String c s' =>
      match skip with
      | S k => split_from sep k cur s'
      | O => if String.prefix sep s
             then cur :: split_from sep (String.length sep - 1) EmptyString s'
             else split_from sep 0 (cur ++ String c EmptyString) s'
      end
  end.

(** An empty separator raises [ValueError]. *)
Definition split (sep s : string) : result (list string) :=
  match sep with
  | EmptyString => Raise ValueError
  | _ => Ok (split_from sep 0 EmptyString s)
  end.

(** Every character of [s] satisfies [p]. *)
Fixpoint all_chars (p : Ascii.ascii -> bool) (s : string) : bool :=
  match s with
  | EmptyString => true
  | String c s' => p c && all_chars p s'
  end.

(** No character of [t] is [a]. *)
Definition free_of (a : Ascii.ascii) (t : string) : bool :=
  all_chars (fun c => negb (Ascii.eqb c a)) t.

End Str.

(* ===================================================================== *)
(** * Dictionaries *)
(* ===================================================================== *)

(** A [dict] with string keys (and the [data_vars] of a dataset): the
    (key, value) pairs in insertion order. *)
Definition dict (V : Type) : Type := list (string * V).

Section Dict.
Context {V : Type}.

Definition keys (d : dict V) : list string := map fst d.

(** [k in d]. *)
Definition has_key (d : dict V) (k : string) : bool :=
  existsb (fun p => String.eqb (fst p) k) d.

(** [d[k]] where the key is present. *)
Definition dict_get (d : dict V) (k : string) : option V :=
  match find (fun p => String.eqb (fst p) k) d with
  | Some p => Some (snd p)
  | None => None
  end.

(** [d[k]]: a missing key raises [KeyError]. *)
Definition getitem (d : dict V) (k : string) : result V :=
  match dict_get d k with
  | Some v => Ok v
  | None => Raise KeyError
  end.

(** [d[k] = v]: a present key keeps its place, a new key goes last. *)
Definition dict_set (d : dict V) (k : string) (v : V) : dict V :=
  if has_key d k
  then map (fun p => if String.eqb (fst p) k then (k, v) else p) d
  else d ++ [(k, v)].

End Dict.

(* ===================================================================== *)
(** * utils/core.py: [nan_onc_flags] and [remove_onc_flag_vars] *)
(* ===================================================================== *)

Module Datasets.
Local Open Scope string_scope.

(** The data variables of an [xr.Dataset], every one along the [time]
    dimension of the dataset, with float data. *)
Definition Dataset : Type := dict (list float).

Definition data_vars (ds : Dataset) : list string := keys ds.

(** [flag.isin(test_elements)] at one element. *)
Definition isin (x : float) (test_elements : list Z) : bool :=
  existsb (fun y => (x =? float_of_Z y)%float) test_elements.

(** [data.where(~flag.isin([flags_to_nan]), np.nan)] on two variables of
    one dataset. *)
Definition where_not_flagged (data flag : list float) (flags_to_nan : list Z)
    : list float :=
  map (fun p => if negb (isin (snd p) flags_to_nan) then fst p else nan)
      (combine data flag).

(** The body of the loop of [nan_onc_flags]. *)
Definition nan_onc_flag (flags_to_nan : list Z) (ds : Dataset) (fv : string)
    : result Dataset :=
  let dv := Str.replace "flag_" "" fv in
  if has_key ds dv
  then data <- getitem ds dv ;;
       flag <- getitem ds fv ;;
       Ok (dict_set ds dv (where_not_flagged data flag flags_to_nan))
  else Ok ds.

Fixpoint nan_onc_flags_loop (flags_to_nan : list Z) (flag_vars : list string)
    (ds : Dataset) : result Dataset :=
  match flag_vars with
  | [] => Ok ds
  | fv :: rest =>
      ds' <- nan_onc_flag flags_to_nan ds fv ;;
      nan_onc_flags_loop flags_to_nan rest ds'
  end.

Definition nan_onc_flags (ds : Dataset) (flags_to_nan : list Z) : result Dataset :=
  let flag_vars := filter (Str.startswith "flag_") (data_vars ds) in
  if (List.length flag_vars =? 0)%nat then Ok ds
  else nan_onc_flags_loop flags_to_nan flag_vars ds.

(** [ds.drop_vars(names, errors='ignore')]. *)
Definition drop_vars (ds : Dataset) (names : list string) : Dataset :=
  filter (fun p => negb (existsb (String.eqb (fst p)) names)) ds.

Definition remove_onc_flag_vars (ds : Dataset) : Dataset :=
  let flag_vars := filter (Str.startswith "flag_") (data_vars ds) in
  if (List.length flag_vars =? 0)%nat then ds
  else drop_vars ds flag_vars.

(** What the variable [v], of data [a], has become after the flag
    variables [l] of [ds] were gone through. *)
Definition mask_step (flags_to_nan : list Z) (ds : Dataset) (v : string) (a : list float) (fv : string)
    : list float :=
  if String.eqb (Str.replace "flag_" "" fv) v
  then match dict_get ds fv with
       | Some flag => where_not_flagged a flag flags_to_nan
       | None => a
       end
  else a.

Definition mask (flags_to_nan : list Z) (ds : Dataset) (l : list string) (v : string) (a : list float)
    : list float :=
  fold_left (mask_step flags_to_nan ds v) l a.

(** A flag variable that stands for [v] marks sample [i] with one of
    [flags_to_nan]. *)
Definition flagged (ds : Dataset) (flags_to_nan : list Z) (v : string) (i : nat) : bool :=
  existsb (fun p => Str.startswith "flag_" (fst p)
                    && String.eqb (Str.replace "flag_" "" (fst p)) v
                    && isin (nth i (snd p) nan) flags_to_nan) ds.

End Datasets.

(* ===================================================================== *)
(** * core.py: the methods of the client, on the responses of the API *)
(* ===================================================================== *)

Module Client.
Local Open Scope string_scope.
Local Open Scope Z_scope.

(** ** [get_deployments] *)

(** An entry of the response of [getDeployments].  [dep_begin] and
    [dep_end] stand for the keys ['begin'] and ['end']; a time is the
    instant its string denotes, in microseconds, and [None] is a missing
    end. *)
Record Deployment : Type :=
  { deviceCategoryCode : string;
    deviceCode : string;
    dep_begin : Z;
    dep_end : option Z }.

(** The [dep_info] dictionary. *)
Record DeploymentInfo : Type :=
  { device_code : string;
    begin_datetime : Z;
    end_datetime : Z }.

(** [str(n)] of a natural number. *)
Definition str (n : nat) : string := DecimalString.NilEmpty.string_of_uint (Nat.to_uint n).

Fixpoint zeros (n : nat) : string :=
  match n with
  | O => EmptyString
  | S k => "0" ++ zeros k
  end.

(** [s.zfill(width)] of a string of digits. *)
Definition zfill (width : nat) (s : string) : string :=
  zeros (width - String.length s) ++ s.

(** ['D' + str(dnum).zfill(5)]. *)
Definition dnumstr (dnum : nat) : string := "D" ++ zfill 5 (str dnum).

(** The [dep_info] of an entry; [now] is the reading of the clock, used
    for a deployment without an end. *)
Definition deployment_info (now : Z) (dep : Deployment) : DeploymentInfo :=
  {| device_code := deviceCode dep;
     begin_datetime := dep_begin dep;
     end_datetime := match dep_end dep with
                     | None => now
                     | Some e => e
                     end |}.

(** The body of the first loop. *)
Definition add_deployment (now : Z) (all_deployments : dict (dict DeploymentInfo))
    (dep : Deployment) : dict (dict DeploymentInfo) :=
  let dep_dcc := deviceCategoryCode dep in
  let dep_info := deployment_info now dep in
  match dict_get all_deployments dep_dcc with
  | None =>
      dict_set all_deployments dep_dcc (dict_set [] (dnumstr 1) dep_info)
  | Some deps =>
      let dnum := (List.length deps + 1)%nat in
      dict_set all_deployments dep_dcc (dict_set deps (dnumstr dnum) dep_info)
  end.

Definition all_deployments (now : Z) (json_response : list Deployment)
    : dict (dict DeploymentInfo) :=
  fold_left (add_deployment now) json_response [].

(** The condition of the second loop. *)
Definition requested (begin_datetime0 end_datetime0 : Z) (dinfo : DeploymentInfo) : bool :=
  let dbdt := begin_datetime dinfo in
  let dedt := end_datetime dinfo in
  ((dbdt <=? begin_datetime0) && (begin_datetime0 <=? dedt))
  || ((dbdt <=? end_datetime0) && (end_datetime0 <=? dedt))
  || ((begin_datetime0 <=? dbdt) && (dbdt <=? end_datetime0))
  || ((begin_datetime0 <=? dedt) && (dedt <=? end_datetime0)).

(** The body of the inner loop. *)
Definition request_deployment (begin_datetime0 end_datetime0 : Z) (dcc : string)
    (requested_deployments : dict (dict DeploymentInfo))
    (item : string * DeploymentInfo) : dict (dict DeploymentInfo) :=
  if requested begin_datetime0 end_datetime0 (snd item)
  then match dict_get requested_deployments dcc with
       | None => dict_set requested_deployments dcc (dict_set [] (fst item) (snd item))
       | Some deps => dict_set requested_deployments dcc (dict_set deps (fst item) (snd item))
       end
  else requested_deployments.

(** [get_deployments] on the response [json_response] of the API. *)
Definition get_deployments (now : Z) (json_response : list Deployment)
    (begin_datetime0 end_datetime0 : Z) : dict (dict DeploymentInfo) :=
  fold_left (fun requested_deployments entry =>
               fold_left (request_deployment begin_datetime0 end_datetime0 (fst entry))
                         (snd entry) requested_deployments)
            (all_deployments now json_response) [].

(** The condition of the second loop on an item of a category. *)
Definition requested_item (begin_datetime0 end_datetime0 : Z)
    (item : string * DeploymentInfo) : bool :=
  requested begin_datetime0 end_datetime0 (snd item).

(** [req] followed by the category [dcc] when it has deployments [acc]. *)
Definition snoc_entry (req : dict (dict DeploymentInfo)) (dcc : string)
    (acc : dict DeploymentInfo) : dict (dict DeploymentInfo) :=
  match acc with
  | [] => req
  | _ => (req ++ [(dcc, acc)])%list
  end.

(** What the first loop keeps true: no key occurs twice, and the records
    satisfy [Q]. *)
Definition well_keyed (Q : DeploymentInfo -> Prop) (all : dict (dict DeploymentInfo))
    : Prop :=
  NoDup (keys all) /\
  Forall (fun entry => NoDup (keys (snd entry))) all /\
  forall dcc deps k dinfo, In (dcc, deps) all -> In (k, dinfo) deps -> Q dinfo.

(** The records of a list under the numbers [dnum], [dnum + 1], ... *)
Fixpoint numbered (dnum : nat) (l : list DeploymentInfo) : dict DeploymentInfo :=
  match l with
  | [] => []
  | x :: l' => (dnumstr dnum, x) :: numbered (S dnum) l'
  end.

(** ** [get_all_location_codes] *)

(** An entry of the response of [getLocationsTree]: its location code and
    the location codes of its children. *)
Record LocationTree : Type :=
  { locationCode : string;
    children : list string }.

(** Reading [primary_location] after a loop that never ran raises
    [UnboundLocalError]. *)
Inductive answer (A : Type) : Type :=
| Returns (a : A)
| UnboundLocalError.
Arguments Returns {A} a.
Arguments UnboundLocalError {A}.

(** [sorted] on strings. *)
Fixpoint insert_sorted (x : string) (l : list string) : list string :=
  match l with
  | [] => [x]
  | y :: l' => if String.leb x y then x :: l else y :: insert_sorted x l'
  end.

Definition sorted (l : list string) : list string := fold_right insert_sorted [] l.

Definition get_all_location_codes (json_response : list LocationTree)
    : answer (list string) :=
  let location_codes := flat_map children json_response in
  match json_response with
  | [] => UnboundLocalError
  | first :: _ =>
      let primary_location := locationCode (last json_response first) in
      Returns (sorted ([primary_location] ++ location_codes)%list)
  end.

(** ** [import_txt_from_url] *)

(** [import_txt_from_url] on the text [txt] of the response. *)
Definition import_txt_from_url (txt : string)
    (keep_conditions drop_conditions : option (list string)) (splitter : string)
    : result (list string) :=
  lines <- Str.split splitter txt ;;
  let lines := match keep_conditions with
               | Some conditions =>
                   fold_left (fun lines keep_condition =>
                                filter (fun line => Str.contains keep_condition line) lines)
                             conditions lines
               | None => lines
               end in
  let lines := match drop_conditions with
               | Some conditions =>
                   fold_left (fun lines drop_condition =>
                                filter (fun line => negb (Str.contains drop_condition line)) lines)
                             conditions lines
               | None => lines
               end in
  Ok lines.

(** The conditions of an argument that may be [None]. *)
Definition conditions_of (conditions : option (list string)) : list string :=
  match conditions with
  | Some l => l
  | None => []
  end.

End Client.

(* ===================================================================== *)
(** * ONCToolbox/core.py: [scrub_token] *)
(* ===================================================================== *)

Module Toolbox.
Local Open Scope string_scope.

(** The character class [[a-f0-9-]]. *)
Definition is_token_char (c : Ascii.ascii) : bool :=
  let n := Ascii.nat_of_ascii c in
  ((97 <=? n) && (n <=? 102) || (48 <=? n) && (n <=? 57) || (n =? 45))%nat.

(** The match of [(&token=[a-f0-9-]{36})] that begins at the first
    character of [s], when there is one. *)
Definition match_here (s : string) : option string :=
  let h := String.substring 7 36 s in
  if String.prefix "&token=" s && (String.length h =? 36)%nat && Str.all_chars is_token_char h
  then Some ("&token=" ++ h)
  else None.

(** [re.findall(token_regex, query_url)[0]]: the leftmost match. *)
Fixpoint first_match (s : string) : option string :=
  match match_here s with
  | Some m => Some m
  | None => match s with
            | EmptyString => None
            | String _ s' => first_match s'
            end
  end.

Definition scrub_token (query_url : string) : result string :=
  match first_match query_url with
  | None => Raise IndexError
  | Some token_qp => Ok (Str.replace token_qp "&token=REDACTED" query_url)
  end.

End Toolbox.


(* ===================================================================== *)
(** * Facts about indexes, sorting and selection *)
(* ===================================================================== *)

Section IndexFacts.

Lemma memb_In (t : Z) (l : list Z) : memb t l = true <-> In t l.
Proof.
  unfold memb. rewrite existsb_exists. split.
  - intros [x [Hin Heq]]. apply Z.eqb_eq in Heq. now subst.
  - intros Hin. exists t. split; [assumption | apply Z.eqb_refl].
Qed.

Lemma has_dup_false_NoDup (l : list Z) : has_dup l = false -> NoDup l.
Proof.
  induction l as [|x l IH]; simpl; intros H; constructor.
  - apply orb_false_iff in H as [Hx _]. intros Hin.
    apply memb_In in Hin. congruence.
  - apply IH. now apply orb_false_iff in H as [_ H].
Qed.

Lemma index_eqb_eq (a b : list Z) : index_eqb a b = true <-> a = b.
Proof.
  revert b. induction a as [|x a IH]; intros [|y b]; simpl; split;
    try congruence; try reflexivity.
  - intros H. apply andb_true_iff in H as [Hxy Hab].
    apply Z.eqb_eq in Hxy. apply IH in Hab. congruence.
  - intros H. injection H as -> ->. rewrite Z.eqb_refl. now apply IH.
Qed.

Lemma sorted_strict (l : list Z) :
  StronglySorted Z.le l -> NoDup l -> StronglySorted Z.lt l.
Proof.
  induction 1 as [|x l Hs IH Hall]; intros Hnd; constructor.
  - apply IH. now inversion Hnd.
  - inversion Hnd as [|? ? Hx _]; subst.
    rewrite Forall_forall in *. intros y Hy.
    specialize (Hall y Hy). assert (x <> y) by (intros ->; contradiction). lia.
Qed.

Lemma sorted_monotonic (l : list Z) :
  StronglySorted Z.le l -> is_monotonic_increasing l = true.
Proof.
  induction 1 as [|x l Hs IH Hall]; [reflexivity|].
  destruct l as [|y l]; [reflexivity|].
  change (((x <=? y) && is_monotonic_increasing (y :: l))%bool = true).
  rewrite IH, andb_true_r. apply Z.leb_le. now inversion Hall.
Qed.

Lemma fold_min_spec (l : list Z) (x : Z) :
  In (fold_left Z.min l x) (x :: l) /\ Forall (fun y => fold_left Z.min l x <= y) (x :: l).
Proof.
  revert x. induction l as [|y l IH]; intros x; simpl.
  - split; [now left | constructor; [lia | constructor]].
  - destruct (IH (Z.min x y)) as [Hin Hall]. split.
    + destruct Hin as [Heq | Hin]; [|now right; right].
      rewrite <- Heq. destruct (Z.min_spec x y) as [[_ ->] | [_ ->]]; [now left | now right; left].
    + inversion Hall as [|? ? Hm Hl]; subst.
      constructor; [lia | constructor; [lia | assumption]].
Qed.

Lemma fold_max_spec (l : list Z) (x : Z) :
  In (fold_left Z.max l x) (x :: l) /\ Forall (fun y => y <= fold_left Z.max l x) (x :: l).
Proof.
  revert x. induction l as [|y l IH]; intros x; simpl.
  - split; [now left | constructor; [lia | constructor]].
  - destruct (IH (Z.max x y)) as [Hin Hall]. split.
    + destruct Hin as [Heq | Hin]; [|now right; right].
      rewrite <- Heq. destruct (Z.max_spec x y) as [[_ ->] | [_ ->]]; [now right; left | now left].
    + inversion Hall as [|? ? Hm Hl]; subst.
      constructor; [lia | constructor; [lia | assumption]].
Qed.

Lemma list_min_spec (l : list Z) (m : Z) :
  list_min l = Ok m -> In m l /\ Forall (fun y => m <= y) l.
Proof.
  destruct l as [|x l]; simpl; [discriminate|].
  intros H. injection H as <-. apply fold_min_spec.
Qed.

Lemma list_max_spec (l : list Z) (m : Z) :
  list_max l = Ok m -> In m l /\ Forall (fun y => y <= m) l.
Proof.
  destruct l as [|x l]; simpl; [discriminate|].
  intros H. injection H as <-. apply fold_max_spec.
Qed.

Lemma position_app_fresh (t : Z) (pre post : list Z) :
  ~ In t pre -> position t (pre ++ t :: post) = Some (List.length pre).
Proof.
  induction pre as [|x pre IH]; simpl; intros Hnin.
  - now rewrite Z.eqb_refl.
  - destruct (Z.eqb_spec t x) as [-> | _]; [exfalso; apply Hnin; now left|].
    rewrite IH; [reflexivity | intros Hin; apply Hnin; now right].
Qed.

Context {A : Type}.

Lemma index_insert_by_time_In (p : Z * A) (l : DataArray A) (t : Z) :
  In t (index (insert_by_time p l)) <-> t = fst p \/ In t (index l).
Proof.
  induction l as [|q l IH]; simpl.
  - intuition congruence.
  - destruct (fst p <=? fst q); simpl; [intuition congruence|].
    rewrite IH. intuition congruence.
Qed.

Lemma index_sortby_time_In (da : DataArray A) (t : Z) :
  In t (index (sortby_time da)) <-> In t (index da).
Proof.
  induction da as [|p da IH]; simpl; [reflexivity|].
  rewrite index_insert_by_time_In, IH. intuition congruence.
Qed.

Lemma insert_by_time_sorted (p : Z * A) (l : DataArray A) :
  StronglySorted Z.le (index l) -> StronglySorted Z.le (index (insert_by_time p l)).
Proof.
  induction l as [|q l IH]; simpl; intros Hs.
  - repeat constructor.
  - inversion Hs as [|? ? Hs' Hall]; subst.
    destruct (Z.leb_spec (fst p) (fst q)) as [Hle | Hgt]; simpl.
    + constructor; [assumption|]. constructor; [assumption|].
      eapply Forall_impl; [|exact Hall]. simpl. intros; lia.
    + constructor; [now apply IH|].
      rewrite Forall_forall in *. intros t Ht.
      apply index_insert_by_time_In in Ht as [-> | Ht]; [lia | now apply Hall].
Qed.

Lemma sortby_time_sorted (da : DataArray A) : StronglySorted Z.le (index (sortby_time da)).
Proof.
  induction da as [|p da IH]; simpl; [constructor | now apply insert_by_time_sorted].
Qed.

Lemma insert_by_time_length (p : Z * A) (l : DataArray A) :
  List.length (insert_by_time p l) = S (List.length l).
Proof.
  induction l as [|q l IH]; simpl; [reflexivity|].
  destruct (fst p <=? fst q); simpl; congruence.
Qed.

Lemma sortby_time_length (da : DataArray A) :
  List.length (sortby_time da) = List.length da.
Proof.
  induction da as [|p da IH]; simpl; [reflexivity|].
  now rewrite insert_by_time_length, IH.
Qed.

(** On a time-sorted array a label slice is the samples in the range. *)
Lemma sel_slice_sorted (da : DataArray A) (start : Z) (stop : option Z) :
  is_monotonic_increasing (index da) = true ->
  sel_slice da start stop =
  Ok (filter (fun p => (start <=? fst p) &&
                       match stop with Some s => fst p <=? s | None => true end) da).
Proof. intros H. unfold sel_slice. now rewrite H. Qed.

End IndexFacts.

(* ===================================================================== *)
(** * [split_periods] *)
(* ===================================================================== *)

Section SplitPeriodsFacts.
Import Core.
Context {A : Type}.

Lemma index_dmap {B C : Type} (f : B -> C) (da : DataArray B) : index (dmap f da) = index da.
Proof.
  unfold index, dmap. rewrite map_map. now apply map_ext.
Qed.

Lemma index_diff_from (prev : Z) (l : list Z) : index (diff_from prev l) = l.
Proof.
  revert prev. induction l as [|t l IH]; intros prev; simpl; [reflexivity|].
  now rewrite IH.
Qed.

Lemma index_time_diff (l : list Z) : index (time_diff l) = tl l.
Proof. destruct l as [|t l]; [reflexivity | apply index_diff_from]. Qed.

Lemma lookup_In {B : Type} (t : Z) (b : DataArray B) (y : B) :
  lookup t b = Some y -> In (t, y) b.
Proof.
  induction b as [|[t' x] b IH]; simpl; [discriminate|].
  destruct (Z.eqb_spec t t') as [-> | _].
  - intros H. injection H as ->. now left.
  - intros H. right. now apply IH.
Qed.

Lemma inner_join_In {B : Type} (a : DataArray A) (b : DataArray B) (t : Z) (x : A) (y : B) :
  In (t, (x, y)) (inner_join a b) -> In (t, x) a /\ In (t, y) b.
Proof.
  induction a as [|[t' x'] a IH]; simpl; [contradiction|].
  destruct (lookup t' b) as [y'|] eqn:Hl.
  - intros [Heq | Hin].
    + injection Heq as -> -> ->. split; [now left | now apply lookup_In].
    + destruct (IH Hin). split; [now right | assumption].
  - intros Hin. destruct (IH Hin). split; [now right | assumption].
Qed.

Lemma In_index {B : Type} (t : Z) (da : DataArray B) :
  In t (index da) <-> exists x, In (t, x) da.
Proof.
  unfold index. rewrite in_map_iff. split.
  - intros [[t' x] [Heq Hin]]. simpl in Heq. subst. now exists x.
  - intros [x Hin]. now exists (t, x).
Qed.

Lemma filter_index_sorted {B : Type} (R : Z -> Z -> Prop) (f : Z * B -> bool) (l : DataArray B) :
  StronglySorted R (index l) -> StronglySorted R (index (filter f l)).
Proof.
  induction l as [|p l IH]; simpl; intros Hs; [constructor|].
  inversion Hs as [|? ? Hs' Hall]; subst.
  destruct (f p); simpl; [|now apply IH].
  constructor; [now apply IH|].
  rewrite Forall_forall in *. intros t Ht. apply Hall.
  apply In_index in Ht as [x Hx]. apply filter_In in Hx as [Hx _].
  apply In_index. now exists x.
Qed.

Lemma inner_join_index_sorted {B : Type} (R : Z -> Z -> Prop)
    (a : DataArray A) (b : DataArray B) :
  StronglySorted R (index a) -> StronglySorted R (index (inner_join a b)).
Proof.
  induction a as [|[t x] a IH]; simpl; intros Hs; [constructor|].
  inversion Hs as [|? ? Hs' Hall]; subst.
  destruct (lookup t b) as [y|]; simpl; [|now apply IH].
  constructor; [now apply IH|].
  rewrite Forall_forall in *. intros t' Ht'. apply Hall.
  apply In_index in Ht' as [[x' y'] Hin]. apply inner_join_In in Hin as [Hin _].
  apply In_index. now exists x'.
Qed.

Lemma filter_none {B : Type} (f : B -> bool) (l : list B) :
  (forall x, In x l -> f x = false) -> filter f l = [].
Proof.
  induction l as [|x l IH]; simpl; intros H; [reflexivity|].
  rewrite (H x) by now left. apply IH. intros y Hy. apply H. now right.
Qed.

(** The break points of a time-sorted array: when there is one, the labels
    of the array are pairwise distinct, and the break points are labels
    after the first, in increasing order. *)
Lemma break_points_spec (da : DataArray A) (min_gap : Z) (dts : list Z) :
  StronglySorted Z.le (index da) ->
  break_points da min_gap = Ok dts -> dts <> [] ->
  StronglySorted Z.lt (index da) /\ StronglySorted Z.lt dts /\
  Forall (fun d => In d (tl (index da))) dts.
Proof.
  intros Hs Hbp Hne. unfold break_points, align in Hbp.
  rewrite index_dmap, index_time_diff in Hbp.
  destruct (index_eqb (index da) (tl (index da))) eqn:Heq.
  - exfalso. apply index_eqb_eq in Heq.
    destruct da as [|p da]; simpl in *.
    + injection Hbp as <-. now apply Hne.
    + apply (f_equal (@List.length Z)) in Heq. simpl in Heq. lia.
  - destruct (has_dup (index da)) eqn:Hdup; simpl in Hbp; [discriminate|].
    destruct (has_dup (tl (index da))); simpl in Hbp; [discriminate|].
    injection Hbp as <-.
    assert (Hlt : StronglySorted Z.lt (index da))
      by (apply sorted_strict; [assumption | now apply has_dup_false_NoDup]).
    split; [assumption|]. split.
    + apply filter_index_sorted. now apply inner_join_index_sorted.
    + apply Forall_forall. intros d Hd.
      apply In_index in Hd as [[x c] Hin]. apply filter_In in Hin as [Hin _].
      apply inner_join_In in Hin as [_ Hin].
      rewrite <- index_time_diff, <- (index_dmap (fun d => sec min_gap <? d)).
      apply In_index. now exists c.
Qed.

(** Without a break point [break_points] finds none. *)
Lemma break_points_none (da : DataArray A) (min_gap : Z) :
  Forall (fun p => snd p <= sec min_gap) (time_diff (index da)) ->
  break_points da min_gap =
  if index_eqb (index da) (tl (index da)) then Ok []
  else if has_dup (index da) then Raise ValueError else Ok [].
Proof.
  intros Hall. unfold break_points, align.
  rewrite index_dmap, index_time_diff.
  set (cond := dmap (fun d => sec min_gap <? d) (time_diff (index da))).
  assert (Hc : forall t c, In (t, c) cond -> c = false).
  { intros t c Hin. unfold cond, dmap in Hin. apply in_map_iff in Hin as [[t' d] [Heq Hin]].
    injection Heq as <- <-. rewrite Forall_forall in Hall.
    specialize (Hall _ Hin). simpl in *. apply Z.ltb_ge. lia. }
  destruct (index_eqb (index da) (tl (index da))) eqn:Heq.
  - simpl. f_equal.
    apply index_eqb_eq in Heq. destruct da as [|p da]; [reflexivity|].
    apply (f_equal (@List.length Z)) in Heq. simpl in Heq. lia.
  - destruct (has_dup (index da)) eqn:Hdup; simpl; [reflexivity|].
    assert (Hd : has_dup (tl (index da)) = false).
    { destruct (index da) as [|t l]; [reflexivity|]. simpl in Hdup.
      now apply orb_false_iff in Hdup as [_ Hdup]. }
    rewrite Hd. simpl. f_equal.
    assert (Hnil : filter (fun p : Z * (A * bool) => snd (snd p)) (inner_join da cond) = []).
    { apply filter_none. intros [t [x c]] Hin.
      apply inner_join_In in Hin as [_ Hin]. apply Hc in Hin. simpl. now subst. }
    now rewrite Hnil.
Qed.

Lemma period_at_spec (da : DataArray A) (dts : list Z) (dt : Z) (p : Period) :
  is_monotonic_increasing (index da) = true ->
  period_at da dts dt = Ok (Some p) ->
  good_period (index da) p /\ dt <= begin_datetime p /\
  ((dt =? last dts 0) = false ->
   exists i next, position dt dts = Some i /\ nth_error dts (i + 1) = Some next /\
                  end_datetime p <= next - sec 30).
Proof.
  intros Hmono H. unfold period_at in H.
  set (stop := if dt =? last dts 0 then Ok None
               else match position dt dts with
                    | None => Raise ValueError
                    | Some dtidx => match nth_error dts (dtidx + 1) with
                                    | None => Raise IndexError
                                    | Some next => Ok (Some (next - sec 30))
                                    end
                    end) in H.
  destruct stop as [stop'|e] eqn:Hstop; simpl in H; [|discriminate].
  rewrite sel_slice_sorted in H by assumption. simpl in H.
  set (sel := filter (fun q : Z * A => (dt <=? fst q) &&
                match stop' with Some s => fst q <=? s | None => true end) da) in H.
  destruct (index sel) as [|t0 l0] eqn:Hidx; [discriminate|].
  rewrite <- Hidx in H.
  destruct (list_min (index sel)) as [b|] eqn:Hb; simpl in H; [|discriminate].
  destruct (list_max (index sel)) as [e|] eqn:He; simpl in H; [|discriminate].
  injection H as <-. simpl.
  apply list_min_spec in Hb as [Hbin Hbmin]. apply list_max_spec in He as [Hein Hemax].
  assert (Hsel : forall t, In t (index sel) ->
                 In t (index da) /\ dt <= t /\
                 match stop' with Some s => t <= s | None => True end).
  { intros t Ht. apply In_index in Ht as [x Hx]. apply filter_In in Hx as [Hx Hf].
    simpl in Hf. apply andb_true_iff in Hf as [H1 H2]. apply Z.leb_le in H1.
    split; [apply In_index; now exists x|]. split; [assumption|].
    destruct stop'; [now apply Z.leb_le | exact I]. }
  destruct (Hsel _ Hbin) as (Hb1 & Hb2 & _). destruct (Hsel _ Hein) as (He1 & _ & He3).
  rewrite Forall_forall in Hbmin. specialize (Hbmin _ Hein).
  repeat split; try assumption.
  intros Hlast. unfold stop in Hstop. rewrite Hlast in Hstop.
  destruct (position dt dts) as [i|]; [|discriminate].
  destruct (nth_error dts (i + 1)) as [next|] eqn:Hn; [|discriminate].
  injection Hstop as <-. exists i, next. now repeat split.
Qed.

Lemma strict_split (pre post : list Z) (x : Z) :
  StronglySorted Z.lt (pre ++ x :: post) ->
  ~ In x pre /\ Forall (fun y => x < y) post.
Proof.
  induction pre as [|y pre IH]; simpl; intros Hs; inversion Hs as [|? ? Hs' Hall]; subst.
  - split; [tauto | assumption].
  - destruct (IH Hs') as [Hnin Hpost]. split; [|assumption].
    intros [-> | Hin]; [|contradiction].
    rewrite Forall_forall in Hall. specialize (Hall x (in_elt x pre post)). lia.
Qed.

Lemma last_app_cons (pre l : list Z) (x d : Z) : last (pre ++ x :: l) d = last (x :: l) d.
Proof.
  induction pre as [|y pre IH]; [reflexivity|].
  simpl. rewrite IH. destruct (pre ++ x :: l) eqn:E; [|reflexivity].
  now destruct pre.
Qed.

Lemma last_In (l : list Z) (x d : Z) : In (last (x :: l) d) (x :: l).
Proof.
  revert x. induction l as [|y l IH]; intros x; [now left|].
  right. apply IH.
Qed.

Lemma periods_loop_spec (da : DataArray A) (dts : list Z) :
  is_monotonic_increasing (index da) = true ->
  StronglySorted Z.lt dts ->
  forall todo pre ps,
    dts = pre ++ todo ->
    periods_loop da dts todo = Ok ps ->
    Forall (good_period (index da)) ps /\
    StronglySorted (fun p q => end_datetime p < begin_datetime q) ps /\
    (forall d, hd_error todo = Some d -> Forall (fun p => d <= begin_datetime p) ps).
Proof.
  intros Hmono Hs. induction todo as [|dt todo IH]; intros pre ps Hdts Hloop.
  - injection Hloop as <-. repeat split; constructor.
  - simpl in Hloop.
    destruct (period_at da dts dt) as [op|] eqn:Hp; simpl in Hloop; [|discriminate].
    destruct (periods_loop da dts todo) as [ps'|] eqn:Hl; simpl in Hloop; [|discriminate].
    injection Hloop as <-.
    assert (Hdts' : dts = (pre ++ [dt]) ++ todo) by (now rewrite <- app_assoc).
    destruct (IH (pre ++ [dt]) ps' Hdts' eq_refl) as (Hgood & Hsorted & Hhd).
    assert (Hsplit := Hs). rewrite Hdts in Hsplit. apply strict_split in Hsplit as [Hfresh Hpost].
    assert (Hlater : Forall (fun q => dt < begin_datetime q) ps').
    { destruct todo as [|next todo'].
      - injection Hl as <-. constructor.
      - specialize (Hhd next eq_refl). inversion Hpost; subst.
        eapply Forall_impl; [|exact Hhd]. simpl. intros; lia. }
    destruct op as [p|].
    + apply period_at_spec in Hp as (Hg & Hbegin & Hstop); [|assumption].
      repeat split.
      * now constructor.
      * constructor; [assumption|].
        destruct todo as [|next todo'].
        { injection Hl as <-. constructor. }
        assert (Hlast : (dt =? last dts 0) = false).
        { apply Z.eqb_neq. rewrite Hdts, last_app_cons.
          change (last (dt :: next :: todo') 0) with (last (next :: todo') 0).
          pose proof (last_In todo' next 0) as Hin.
          rewrite Forall_forall in Hpost. specialize (Hpost _ Hin). lia. }
        destruct (Hstop Hlast) as (i & nxt & Hpos & Hnth & Hend).
        rewrite Hdts, position_app_fresh in Hpos by assumption.
        injection Hpos as <-.
        rewrite Hdts, nth_error_app2 in Hnth by lia.
        replace (List.length pre + 1 - List.length pre)%nat with 1%nat in Hnth by lia.
        simpl in Hnth. injection Hnth as <-.
        specialize (Hhd next eq_refl).
        eapply Forall_impl; [|exact Hhd]. simpl. intros q Hq.
        unfold sec in Hend. lia.
      * intros d Hd. injection Hd as <-. constructor; [assumption|].
        eapply Forall_impl; [|exact Hlater]. simpl. intros; lia.
    + repeat split; try assumption.
      intros d Hd. injection Hd as <-.
      eapply Forall_impl; [|exact Hlater]. simpl. intros; lia.
Qed.

End SplitPeriodsFacts.

Section SplitPeriods.
Import Core.

Lemma begin_sorted (ps : list Period) :
  Forall (fun p => begin_datetime p <= end_datetime p) ps ->
  StronglySorted (fun p q => end_datetime p < begin_datetime q) ps ->
  StronglySorted (fun p q => begin_datetime p < begin_datetime q) ps.
Proof.
  intros Hle Hs. induction Hs as [|p ps Hs IH Hall]; constructor.
  - apply IH. now inversion Hle.
  - inversion Hle as [|? ? Hp _]; subst.
    eapply Forall_impl; [|exact Hall]. simpl. intros; lia.
Qed.

(** C3 (degenerate case).  When no consecutive difference of the sorted
    timestamps exceeds [min_gap], [split_periods] returns no period at
    all: it raises.  The list of break points is empty and the statement
    [if da_time.time.min() != dts[0]] reads its first element, so the
    single-period fallback at the end of the function is never reached. *)
Theorem split_periods_without_break_raises :
  forall (A : Type) (da_time : DataArray A) (min_gap : Z),
    Forall (fun p => snd p <= sec min_gap) (time_diff (index (sortby_time da_time))) ->
    exists e, split_periods da_time min_gap = Raise e.
Proof.
  intros A da_time min_gap Hno. unfold split_periods.
  rewrite (break_points_none _ _ Hno).
  destruct (index_eqb _ _); [|destruct (has_dup _)]; simpl;
    try (now exists ValueError);
    (destruct (list_min _); simpl; [now exists IndexError | now eexists]).
Qed.

Lemma split_periods_without_break_raises_witness :
  Forall (fun p => snd p <= sec 60)
         (time_diff (index (sortby_time [(sec 0, tt); (sec 10, tt); (sec 20, tt)]))) /\
  exists e, split_periods [(sec 0, tt); (sec 10, tt); (sec 20, tt)] 60 = Raise e.
Proof.
  assert (H : Forall (fun p => snd p <= sec 60)
         (time_diff (index (sortby_time [(sec 0, tt); (sec 10, tt); (sec 20, tt)])))).
  { repeat constructor; vm_compute; discriminate. }
  split; [exact H|].
  exact (split_periods_without_break_raises unit _ 60 H).
Defined.

(** The failing input of the degenerate case, evaluated. *)
Example split_periods_degenerate_scenario :
  split_periods [(sec 0, tt); (sec 10, tt); (sec 20, tt)] 60 = Raise IndexError /\
  split_periods [(sec 0, tt)] 60 = Raise IndexError.
Proof. split; vm_compute; reflexivity. Qed.

(** C7 (segmentation invariant).  Whenever [split_periods] returns, the
    periods are in strictly increasing order of [begin_datetime], every
    period ends before any later one begins, [begin_datetime] is at most
    [end_datetime], and both bounds of every period are timestamps of the
    input: no period without a sample is emitted. *)
Theorem split_periods_invariant :
  forall (A : Type) (da_time : DataArray A) (min_gap : Z) (periods : list Period),
    split_periods da_time min_gap = Ok periods ->
    StronglySorted (fun p q => begin_datetime p < begin_datetime q) periods /\
    StronglySorted (fun p q => end_datetime p < begin_datetime q) periods /\
    Forall (fun p => begin_datetime p <= end_datetime p) periods /\
    Forall (fun p => In (begin_datetime p) (index da_time) /\
                     In (end_datetime p) (index da_time)) periods.
Proof.
  intros A da_time min_gap periods H.
  assert (Hgoal : StronglySorted (fun p q => end_datetime p < begin_datetime q) periods /\
                  Forall (good_period (index (sortby_time da_time))) periods).
  { unfold split_periods in H.
    pose proof (sortby_time_sorted da_time) as Hsorted.
    set (s := sortby_time da_time) in *.
    destruct (break_points s min_gap) as [dts|] eqn:Hbp; simpl in H; [|discriminate].
    destruct (list_min (index s)) as [tmin|] eqn:Hmin; simpl in H; [|discriminate].
    destruct dts as [|dts0 dts']; [discriminate|].
    apply break_points_spec in Hbp as (Hstrict & Hdts & Htl);
      [|assumption|discriminate].
    apply list_min_spec in Hmin as [Hminin Hminle].
    set (dts := if negb (tmin =? dts0) then tmin :: dts0 :: dts' else dts0 :: dts') in H.
    assert (Hdts2 : StronglySorted Z.lt dts).
    { unfold dts. destruct (negb (tmin =? dts0)); [|assumption].
      constructor; [assumption|].
      destruct (index s) as [|t0 l] eqn:Hidx; [contradiction|]. simpl in Htl.
      inversion Hstrict as [|? ? _ Hl]; subst.
      assert (tmin = t0).
      { destruct Hminin as [-> | Hin]; [reflexivity|].
        rewrite Forall_forall in Hl, Hminle. specialize (Hl _ Hin).
        specialize (Hminle t0 (or_introl eq_refl)). lia. }
      subst tmin. rewrite Forall_forall in *. intros d Hd. apply Hl. now apply Htl. }
    destruct (periods_loop s dts dts) as [ps|] eqn:Hloop; simpl in H; [|discriminate].
    apply (periods_loop_spec s dts (sorted_monotonic _ Hsorted) Hdts2 dts [] ps eq_refl)
      in Hloop as (Hgood & Hsep & _).
    destruct ps as [|p ps].
    - destruct (list_max (index s)) as [tmax|] eqn:Hmax; simpl in H; [|discriminate].
      injection H as <-. apply list_max_spec in Hmax as [Hmaxin Hmaxge].
      split; [repeat constructor|].
      constructor; [|constructor]. unfold good_period. simpl.
      rewrite Forall_forall in Hmaxge. auto.
    - injection H as <-. now split. }
  destruct Hgoal as [Hsep Hgood].
  assert (Hle : Forall (fun p => begin_datetime p <= end_datetime p) periods).
  { eapply Forall_impl; [|exact Hgood]. intros p Hp. apply Hp. }
  split; [now apply begin_sorted|]. split; [assumption|]. split; [assumption|].
  eapply Forall_impl; [|exact Hgood]. intros p (_ & Hb & He).
  split; now apply index_sortby_time_In.
Qed.

Lemma split_periods_invariant_witness :
  let da_time := [(sec 0, tt); (sec 10, tt); (sec 20, tt); (sec 400, tt); (sec 410, tt)] in
  let periods := [ {| begin_datetime := sec 0; end_datetime := sec 20 |};
                   {| begin_datetime := sec 400; end_datetime := sec 410 |} ] in
  split_periods da_time 60 = Ok periods /\
  StronglySorted (fun p q => begin_datetime p < begin_datetime q) periods /\
  StronglySorted (fun p q => end_datetime p < begin_datetime q) periods /\
  Forall (fun p => begin_datetime p <= end_datetime p) periods /\
  Forall (fun p => In (begin_datetime p) (index da_time) /\
                   In (end_datetime p) (index da_time)) periods.
Proof.
  intros da_time periods.
  assert (H : split_periods da_time 60 = Ok periods) by (vm_compute; reflexivity).
  split; [exact H|].
  exact (split_periods_invariant unit da_time 60 periods H).
Defined.

(** C8 (scenario with the 30-second back-off).  Timestamps
    [0s, 10s, 20s, 400s, 410s] with [min_gap = 60] give exactly two
    periods: [0s, 20s] (20s is the last timestamp at or before
    400s - 30s) and [400s, 410s]. *)
Theorem split_periods_scenario :
  split_periods [(sec 0, tt); (sec 10, tt); (sec 20, tt); (sec 400, tt); (sec 410, tt)] 60
  = Ok [ {| begin_datetime := sec 0; end_datetime := sec 20 |};
         {| begin_datetime := sec 400; end_datetime := sec 410 |} ].
Proof. vm_compute. reflexivity. Qed.

End SplitPeriods.

(* ===================================================================== *)
(** * Scenarios and properties of the point tests *)
(* ===================================================================== *)

Section PointTests.
Import FLAG Qaqc.
Local Open Scope float_scope.

(** C1 (gross range baseline).  On the series [1, 5, 12] with
    [sensor_min = 0], [sensor_max = 10] and no operator bounds the code
    flags every sample PASS: the sample 12, above [sensor_max], is not
    flagged FAIL.  The first [where] keeps NOT_EVALUATED only where
    [data < sensor_min] and [data > sensor_max] hold together, so it stores
    PASS everywhere; the second stores FAIL only where neither
    [data > sensor_min] nor [data < sensor_max] holds, which no number
    satisfies when [sensor_min < sensor_max]. *)
Theorem gross_range_scenario_all_pass :
  gross_range_test [(sec 0, 1); (sec 1, 5); (sec 2, 12)] 0 10 None None
  = [(sec 0, PASS); (sec 1, PASS); (sec 2, PASS)].
Proof. vm_compute. reflexivity. Qed.

(** C2 (location policy).  The code flags (lat = 91, lon = 0) and
    (lat = 45, lon = 200) PASS, not FAIL: FAIL is stored only where both
    magnitudes are out of bounds, and PASS overrides it unless both are
    strictly out of bounds.  (lat = 45, lon = 90) is PASS as specified. *)
Theorem location_scenario_out_of_bounds_pass :
  location_test [(sec 0, 91); (sec 1, 45); (sec 2, 45)]
                [(sec 0, 0); (sec 1, 200); (sec 2, 90)]
  = Ok [(sec 0, PASS); (sec 1, PASS); (sec 2, PASS)].
Proof. vm_compute. reflexivity. Qed.

(** X2 (location test, FAIL).  A pair of samples is flagged FAIL exactly
    when both magnitudes exceed their bounds strictly: neither
    [|lat| < 90] nor [|lon| < 180] holds and both [|lat| > 90] and
    [|lon| > 180] hold.  A single coordinate out of bounds never gives
    FAIL. *)
Lemma location_flag_fail_iff (lat lon : float) :
  location_flag lat lon = FAIL <->
  (abs lat <? 90) = false /\ (abs lon <? 180) = false /\
  (90 <? abs lat) = true /\ (180 <? abs lon) = true /\
  (is_nan lat = false \/ is_nan lon = false).
Proof.
  unfold location_flag, where_.
  destruct (abs lat <? 90), (abs lon <? 180), (90 <? abs lat), (180 <? abs lon),
           (is_nan lat), (is_nan lon); simpl;
    split; try discriminate; try tauto; intros (? & ? & ? & ? & [? | ?]); discriminate.
Qed.

(** X3 (gross range test, FAIL).  Without operator bounds a sample is
    flagged FAIL exactly when it is present and neither
    [data > sensor_min] nor [data < sensor_max] holds. *)
Lemma gross_range_flag_fail_iff (sensor_min sensor_max data : float) :
  gross_range_flag sensor_min sensor_max None None data = FAIL <->
  (sensor_min <? data) = false /\ (data <? sensor_max) = false /\ is_nan data = false.
Proof.
  unfold gross_range_flag, where_.
  destruct (data <? sensor_min), (sensor_max <? data), (sensor_min <? data),
           (data <? sensor_max), (is_nan data); simpl;
    split; try discriminate; try tauto; intros (? & ? & ?); discriminate.
Qed.

End PointTests.

(* ===================================================================== *)
(** * Alignment of the two inputs of [location_test] *)
(* ===================================================================== *)

Section LocationAlignment.
Import FLAG Qaqc.

Lemma index_zip_by_label {A B C : Type} (d : B) (F : A -> B -> C)
    (a : DataArray A) (b : DataArray B) : index (zip_by_label d F a b) = index a.
Proof. unfold index, zip_by_label. rewrite map_map. now apply map_ext. Qed.

Lemma lookup_dmap {B C : Type} (g : B -> C) (t : Z) (b : DataArray B) :
  lookup t (dmap g b) = option_map g (lookup t b).
Proof.
  induction b as [|[t' y] b IH]; simpl; [reflexivity|].
  destruct (t =? t'); [reflexivity | exact IH].
Qed.

Lemma lookup_memb {B : Type} (t : Z) (b : DataArray B) :
  memb t (index b) = true <-> exists y, lookup t b = Some y.
Proof.
  induction b as [|[t' y] b IH]; simpl.
  - split; [discriminate | intros [y H]; discriminate].
  - destruct (t =? t'); simpl; [|exact IH].
    split; [intros _; now exists y | reflexivity].
Qed.

Lemma inner_join_cons_fresh {A B : Type} (a : DataArray A) (b : DataArray B) (t : Z) (y : B) :
  ~ In t (index a) -> inner_join a ((t, y) :: b) = inner_join a b.
Proof.
  induction a as [|[t' x] a IH]; simpl; intros Hnin; [reflexivity|].
  destruct (Z.eqb_spec t' t) as [-> | _]; [exfalso; apply Hnin; now left|].
  rewrite IH by (intros Hin; apply Hnin; now right). reflexivity.
Qed.

(** Aligning two arrays that have no repeated label is their inner join,
    also when their indexes are equal. *)
Lemma align_unique {A B : Type} (a : DataArray A) (b : DataArray B) :
  has_dup (index a) = false -> has_dup (index b) = false ->
  align a b = Ok (inner_join a b).
Proof.
  intros Ha Hb. unfold align. rewrite Ha, Hb. simpl.
  destruct (index_eqb (index a) (index b)) eqn:Heq; [|reflexivity].
  f_equal. apply index_eqb_eq in Heq. apply has_dup_false_NoDup in Ha. clear Hb.
  revert b Heq. induction a as [|[t x] a IH]; intros [|[t' y] b] Heq; simpl in *;
    try discriminate; [reflexivity|].
  injection Heq as <- Heq. rewrite Z.eqb_refl. inversion Ha as [|? ? Hfresh Ha']; subst.
  rewrite inner_join_cons_fresh by assumption.
  now rewrite <- IH.
Qed.

Lemma inner_join_total {A B : Type} (d : B) (a : DataArray A) (b : DataArray B) :
  forallb (fun t => memb t (index b)) (index a) = true ->
  inner_join a b = map (fun p => (fst p, (snd p, lookup_or d (fst p) b))) a.
Proof.
  induction a as [|[t x] a IH]; simpl; intros H; [reflexivity|].
  apply andb_true_iff in H as [Ht Ha]. apply lookup_memb in Ht as [y Hy].
  unfold lookup_or at 1. rewrite Hy. now rewrite IH.
Qed.

Lemma inner_join_length {A B : Type} (a : DataArray A) (b : DataArray B) :
  (List.length (inner_join a b) <= List.length a)%nat.
Proof.
  induction a as [|[t x] a IH]; simpl; [lia|].
  destruct (lookup t b); simpl; lia.
Qed.

Lemma inner_join_partial {A B : Type} (a : DataArray A) (b : DataArray B) :
  forallb (fun t => memb t (index b)) (index a) = false ->
  (List.length (inner_join a b) < List.length a)%nat.
Proof.
  induction a as [|[t x] a IH]; simpl; intros H; [discriminate|].
  destruct (lookup t b) as [y|] eqn:Hl.
  - assert (Hm : memb t (index b) = true) by (apply lookup_memb; now exists y).
    rewrite Hm in H. simpl in *. apply IH in H. lia.
  - pose proof (inner_join_length a b). lia.
Qed.

Lemma bind_assoc {X Y W : Type} (m : result X) (k : X -> result Y) (h : Y -> result W) :
  bind (bind m k) h = bind m (fun x => bind (k x) h).
Proof. now destruct m. Qed.

Lemma combine_map_same {X Y Z' : Type} (f : X -> Y) (g : X -> Z') (l : list X) :
  combine (map f l) (map g l) = map (fun x => (f x, g x)) l.
Proof. induction l as [|x l IH]; simpl; [reflexivity | now rewrite IH]. Qed.

Section OneStatement.
Context {C : Type}.
Variables (f g : float -> bool) (op : bool -> bool -> bool).
Variables (F : float -> float -> C) (other : C).
Variables (lat lon : DataArray float).
Hypothesis lat_unique : has_dup (index lat) = false.
Hypothesis lon_unique : has_dup (index lon) = false.

(** One [flag = flag.where(f(latitude) op g(longitude), other)] when every
    latitude label is a longitude label. *)
Lemma where_step_total :
  forallb (fun t => memb t (index lon)) (index lat) = true ->
  (c <- binop op (dmap f lat) (dmap g lon) ;; where_da (zip_by_label nan F lat lon) c other)
  = Ok (zip_by_label nan (fun x y => if op (f x) (g y) then F x y else other) lat lon).
Proof.
  intros Hall. unfold binop.
  rewrite align_unique by (now rewrite index_dmap).
  assert (Hall' : forallb (fun t => memb t (index (dmap g lon))) (index (dmap f lat)) = true)
    by (now rewrite !index_dmap).
  rewrite (inner_join_total (g nan) _ _ Hall'). simpl. unfold where_da.
  set (cond := dmap _ _).
  assert (Hidx : index cond = index lat).
  { unfold cond. rewrite index_dmap. unfold index. rewrite map_map. simpl.
    unfold dmap. now rewrite map_map. }
  rewrite index_zip_by_label, Hidx.
  rewrite (proj2 (index_eqb_eq _ _) eq_refl). f_equal.
  unfold cond, zip_by_label, dmap. rewrite !map_map, combine_map_same, map_map. simpl.
  apply map_ext. intros [t x]. simpl. unfold lookup_or.
  pose proof (lookup_dmap g t lon) as E. unfold dmap in E. rewrite E.
  now destruct (lookup t lon).
Qed.

(** The same statement when a latitude label is missing from longitude:
    the condition has fewer labels than [flag] and [where] refuses it. *)
Lemma where_step_partial :
  forallb (fun t => memb t (index lon)) (index lat) = false ->
  (c <- binop op (dmap f lat) (dmap g lon) ;; where_da (zip_by_label nan F lat lon) c other)
  = Raise ValueError.
Proof.
  intros Hsome. unfold binop.
  rewrite align_unique by (now rewrite index_dmap). simpl. unfold where_da.
  destruct (index_eqb _ _) eqn:Heq; [|reflexivity]. exfalso.
  apply index_eqb_eq in Heq. apply (f_equal (@List.length Z)) in Heq.
  rewrite index_zip_by_label, index_dmap in Heq. unfold index in Heq.
  rewrite !length_map in Heq.
  assert (Hsome' : forallb (fun t => memb t (index (dmap g lon))) (index (dmap f lat)) = false)
    by (now rewrite !index_dmap).
  apply inner_join_partial in Hsome'.
  replace (List.length (dmap f lat)) with (List.length lat) in Hsome'
    by (unfold dmap; now rewrite length_map).
  lia.
Qed.

Lemma where_step (D : Type) (k : DataArray C -> result D) :
  (c <- binop op (dmap f lat) (dmap g lon) ;;
   flag <- where_da (zip_by_label nan F lat lon) c other ;; k flag)
  = if forallb (fun t => memb t (index lon)) (index lat)
    then k (zip_by_label nan (fun x y => if op (f x) (g y) then F x y else other) lat lon)
    else Raise ValueError.
Proof.
  transitivity
    (flag <- (c <- binop op (dmap f lat) (dmap g lon) ;;
              where_da (zip_by_label nan F lat lon) c other) ;; k flag).
  - symmetry. apply bind_assoc.
  - destruct (forallb _ _) eqn:Hall.
    + now rewrite where_step_total.
    + now rewrite where_step_partial.
Qed.

End OneStatement.

(** [location_test] on inputs without repeated timestamps. *)
Lemma location_test_unique (lat lon : DataArray float) :
  has_dup (index lat) = false -> has_dup (index lon) = false ->
  location_test lat lon =
  if forallb (fun t => memb t (index lon)) (index lat)
  then Ok (zip_by_label nan location_flag lat lon)
  else Raise ValueError.
Proof.
  intros Hlat Hlon. unfold location_test.
  change (full_like lat NOT_EVALUATED)
    with (zip_by_label nan (fun _ _ : float => NOT_EVALUATED) lat lon).
  destruct (forallb _ _) eqn:Hall.
  - do 3 (rewrite where_step by assumption; rewrite Hall). reflexivity.
  - rewrite where_step by assumption. now rewrite Hall.
Qed.

End LocationAlignment.

(* ===================================================================== *)
(** * Sample-wise view of the window tests *)
(* ===================================================================== *)

Section WindowTests.
Import FLAG Qaqc.
Local Open Scope float_scope.

Lemma nth_error_combine {X Y : Type} (l : list X) (l' : list Y) (i : nat) (x : X) (y : Y) :
  nth_error l i = Some x -> nth_error l' i = Some y ->
  nth_error (combine l l') i = Some (x, y).
Proof.
  revert l' i. induction l as [|a l IH]; intros [|b l'] [|i]; simpl; try discriminate.
  - intros H1 H2. now injection H1 as ->; injection H2 as ->.
  - apply IH.
Qed.

Lemma nth_error_map_seq {X : Type} (f : nat -> X) (n i : nat) :
  (i < n)%nat -> nth_error (map f (seq 0 n)) i = Some (f i).
Proof.
  intros Hi. rewrite nth_error_map, nth_error_seq.
  destruct (Nat.ltb_spec i n); [reflexivity | lia].
Qed.

Lemma nth_error_values {X : Type} (da : DataArray X) (i : nat) (t : Z) (x : X) :
  nth_error da i = Some (t, x) -> nth_error (values da) i = Some x.
Proof. intros H. unfold values. now rewrite nth_error_map, H. Qed.

Lemma at_pos_nat (xs : list float) (i : nat) : at_pos xs (Z.of_nat i) = nth i xs nan.
Proof.
  unfold at_pos. destruct (Z.ltb_spec (Z.of_nat i) 0); [lia|]. now rewrite Nat2Z.id.
Qed.

(** *** Gross range *)

Lemma gross_range_flag_missing (sensor_min sensor_max : float)
    (operator_min operator_max : option float) (v : float) :
  is_nan v = true ->
  gross_range_flag sensor_min sensor_max operator_min operator_max v = MISSING_DATA.
Proof. intros H. unfold gross_range_flag, where_ at 1. cbv zeta. now rewrite H. Qed.

(** *** Spike *)

(** X1 (spike reference value, as computed).  The reference value at
    position [i] is the mean of the sample [2 * spike_half_window]
    positions earlier (NaN when there is none) and of the sample at [i]
    itself. *)
Lemma spkref_nth (spike_half_window : nat) (xs : list float) (i : nat) :
  (i < List.length xs)%nat ->
  nth_error (spkref spike_half_window xs) i =
  Some ((at_pos xs (Z.of_nat i - 2 * Z.of_nat spike_half_window) + nth i xs nan) / 2).
Proof.
  intros Hi. unfold spkref. rewrite nth_error_map_seq by assumption.
  cbv zeta. unfold window_trailing.
  replace (spike_half_window * 2 + 1)%nat with (S (spike_half_window * 2)) by lia.
  f_equal. f_equal. f_equal.
  - cbn [seq map hd]. f_equal. lia.
  - rewrite seq_S, map_app. cbn [map]. rewrite last_last, <- at_pos_nat. f_equal. lia.
Qed.

Lemma spkref_nth_witness :
  (2 < List.length [0; 0; 10; 0; 0])%nat /\
  nth_error (spkref 1 [0; 0; 10; 0; 0]) 2 =
  Some ((at_pos [0; 0; 10; 0; 0] (Z.of_nat 2 - 2 * Z.of_nat 1) + nth 2 [0; 0; 10; 0; 0] nan) / 2).
Proof.
  assert (H : (2 < List.length [0; 0; 10; 0; 0])%nat) by (simpl; lia).
  split; [exact H|].
  exact (spkref_nth 1 [0; 0; 10; 0; 0] 2 H).
Defined.

Lemma length_spkref (h : nat) (xs : list float) : List.length (spkref h xs) = List.length xs.
Proof. unfold spkref. now rewrite length_map, length_seq. Qed.

Lemma length_rolling_std (h : nat) (xs : list float) :
  List.length (rolling_std h xs) = List.length xs.
Proof. unfold rolling_std. now rewrite length_map, length_seq. Qed.

Lemma construct_ok {X : Type} (data : DataArray X) :
  data <> [] -> construct data = Ok data.
Proof. destruct data; [congruence | reflexivity]. Qed.

Lemma spike_test_ok (data : DataArray float) (h s : nat) (lo hi : float) :
  data <> [] ->
  spike_test data h s lo hi = Ok (spike_flags (sortby_time data) h s lo hi).
Proof.
  intros Hne. unfold spike_test. cbv zeta. rewrite construct_ok; [reflexivity|].
  intros E. apply (f_equal (@List.length _)) in E. rewrite sortby_time_length in E.
  now destruct data.
Qed.

Lemma flat_line_test_ok (data : DataArray float) (mas : float) (fh sh : nat) :
  data <> [] -> flat_line_test data mas fh sh = Ok (flat_line_flags data mas fh sh).
Proof. intros Hne. unfold flat_line_test. now rewrite construct_ok. Qed.

Lemma spike_test_nth (data : DataArray float) (h s : nat) (lo hi : float)
    (i : nat) (t : Z) (v : float) :
  nth_error (sortby_time data) i = Some (t, v) ->
  exists ref sd,
    nth_error (spkref h (values (sortby_time data))) i = Some ref /\
    nth_error (rolling_std s (values (sortby_time data))) i = Some sd /\
    spike_test data h s lo hi = Ok (spike_flags (sortby_time data) h s lo hi) /\
    nth_error (spike_flags (sortby_time data) h s lo hi) i
    = Some (t, spike_flag lo hi v ref sd).
Proof.
  intros Hi.
  assert (Hne : data <> []) by (intros ->; destruct i; discriminate).
  assert (Hlen : (i < List.length (values (sortby_time data)))%nat).
  { apply nth_error_Some. now rewrite (nth_error_values _ _ _ _ Hi). }
  destruct (nth_error (spkref h (values (sortby_time data))) i) as [ref|] eqn:Href;
    [|apply nth_error_None in Href; rewrite length_spkref in Href; lia].
  destruct (nth_error (rolling_std s (values (sortby_time data))) i) as [sd|] eqn:Hsd;
    [|apply nth_error_None in Hsd; rewrite length_rolling_std in Hsd; lia].
  exists ref, sd. split; [reflexivity|]. split; [reflexivity|].
  split; [now apply spike_test_ok|].
  unfold spike_flags. cbv zeta.
  assert (Hc : nth_error (combine (combine (sortby_time data)
                                          (spkref h (values (sortby_time data))))
                                 (rolling_std s (values (sortby_time data)))) i
               = Some ((t, v), ref, sd)).
  { apply nth_error_combine; [|assumption]. now apply nth_error_combine. }
  now rewrite (map_nth_error _ _ _ Hc).
Qed.

Lemma spike_flag_missing (lo hi v ref sd : float) :
  is_nan v = true ->
  spike_flag lo hi v ref sd =
  if negb (is_nan (lo * sd)) || negb (is_nan (hi * sd)) then MISSING_DATA else NOT_EVALUATED.
Proof.
  intros H. unfold spike_flag. cbv zeta. unfold where_ at 1.
  destruct (negb (is_nan (lo * sd)) || negb (is_nan (hi * sd))); [|reflexivity].
  unfold where_ at 1. destruct (negb (is_nan ref)); [|reflexivity].
  unfold where_ at 1. now rewrite H.
Qed.

(** *** Flat line *)

Lemma flat_line_flag_not_missing (max_allowed_std wfstd wsstd : float) :
  flat_line_flag max_allowed_std wfstd wsstd <> MISSING_DATA.
Proof.
  unfold flat_line_flag.
  destruct (wsstd <=? max_allowed_std), (wfstd <=? max_allowed_std); discriminate.
Qed.

(** *** Rate of change *)

Lemma length_diff_rate (p : Z * float) (l : DataArray float) :
  List.length (diff_rate p l) = List.length l.
Proof. revert p. induction l as [|q l IH]; intros p; simpl; [reflexivity | now rewrite IH]. Qed.

Lemma rate_of_change_test_nth (data : DataArray float) (std_multiplier : float)
    (i : nat) (t : Z) (v : float) :
  nth_error data i = Some (t, v) ->
  exists r,
    nth_error (rate data) i = Some r /\
    (i = 0%nat -> r = nan) /\
    nth_error (rate_of_change_test data std_multiplier) i =
    Some (t, rate_of_change_flag std_multiplier (np_std (rate data)) v r).
Proof.
  intros Hi.
  assert (Hlen : (i < List.length (rate data))%nat).
  { assert (Hd : (i < List.length data)%nat) by (apply nth_error_Some; congruence).
    unfold rate. destruct data as [|p l]; simpl in *; [lia|]. now rewrite length_diff_rate. }
  destruct (nth_error (rate data) i) as [r|] eqn:Hr; [|apply nth_error_None in Hr; lia].
  exists r. split; [reflexivity|]. split.
  - intros ->. simpl in Hr. congruence.
  - unfold rate_of_change_test. cbv zeta.
    assert (Hc : nth_error (combine data (rate data)) i = Some ((t, v), r))
      by (now apply nth_error_combine).
    now rewrite (map_nth_error _ _ _ Hc).
Qed.

Lemma rate_of_change_flag_cases (std_multiplier rate_std v r : float) :
  rate_of_change_flag std_multiplier rate_std v r =
  if is_nan v || is_nan r then MISSING_DATA
  else if std_multiplier * rate_std <? abs r then HIGH_INTEREST else PASS.
Proof.
  unfold rate_of_change_flag, where_.
  destruct (is_nan v), (is_nan r), (std_multiplier * rate_std <? abs r); reflexivity.
Qed.

End WindowTests.

(* ===================================================================== *)
(** * The window tests: reference value, rate of change, missing data *)
(* ===================================================================== *)

Section WindowClaims.
Import FLAG Qaqc.
Local Open Scope float_scope.

(** C5 (spike reference value).  With [spike_half_window = 1] on the series
    [0, 0, 10, 0, 0] the reference value of the middle sample is 5, the
    mean of the sample two positions earlier (0) and of the sample itself
    (10): the window built by [rolling(...)] without [center=True] ends at
    the sample.  A window centred on the sample, (0, 10, 0), would give the
    reference value 0. *)
Theorem spkref_scenario_trailing_window :
  spkref 1 [0; 0; 10; 0; 0] = [nan; nan; 5; 0; 5].
Proof. vm_compute. reflexivity. Qed.

(** C4, the classification as specified fails.  On the series
    [0, 1, 0, 1, 0] sampled every second the rates are [NaN, 1, -1, 1, -1].
    With [std_multiplier = 2] no rate exceeds the threshold, whether the
    deviation is taken over the whole rate series (it is NaN, as the series
    starts with NaN) or over its defined entries (it is 1); yet the samples
    with a defined value and rate are flagged PASS, not HIGH_INTEREST. *)
Lemma rate_of_change_below_threshold_is_pass :
  let data := [(sec 0, 0); (sec 1, 1); (sec 2, 0); (sec 3, 1); (sec 4, 0)] in
  rate data = [nan; 1; -1; 1; -1] /\
  map (fun r => 2 * np_std (rate data) <? abs r) (rate data)
    = [false; false; false; false; false] /\
  map (fun r => 2 * nanstd (rate data) <? abs r) (rate data)
    = [false; false; false; false; false] /\
  rate_of_change_test data 2
    = [(sec 0, MISSING_DATA); (sec 1, PASS); (sec 2, PASS); (sec 3, PASS); (sec 4, PASS)].
Proof. vm_compute. repeat split; reflexivity. Qed.

(** C6, missing dominance fails for the flat line test.  In the series
    [1, NaN, 3] with [max_allowed_std = 0] the missing sample is flagged
    FAIL: [flat_line_test] has no statement that stores MISSING_DATA. *)
Lemma flat_line_missing_sample_flagged_fail :
  flat_line_test [(sec 0, 1); (sec 1, nan); (sec 2, 3)] 0 5 3
  = Ok [(sec 0, FAIL); (sec 1, FAIL); (sec 2, PASS)].
Proof. vm_compute. reflexivity. Qed.

(** C6, amended.  A missing sample is flagged MISSING_DATA by the gross
    range test and by the rate of change test, whatever the parameters; by
    the spike test when at least one of its two thresholds is defined at
    the sample; and by the location test when latitude and longitude are
    both missing.  The flat line test never flags MISSING_DATA. *)
Theorem missing_dominance_by_test :
  (forall (data : DataArray float) (sensor_min sensor_max : float)
          (operator_min operator_max : option float) (i : nat) (t : Z) (v : float),
      nth_error data i = Some (t, v) -> is_nan v = true ->
      nth_error (gross_range_test data sensor_min sensor_max operator_min operator_max) i
      = Some (t, MISSING_DATA)) /\
  (forall (data : DataArray float) (std_multiplier : float) (i : nat) (t : Z) (v : float),
      nth_error data i = Some (t, v) -> is_nan v = true ->
      nth_error (rate_of_change_test data std_multiplier) i = Some (t, MISSING_DATA)) /\
  (forall (data : DataArray float) (spike_half_window std_half_window : nat)
          (low_multiplier high_multiplier : float) (i : nat) (t : Z) (v sd : float),
      nth_error (sortby_time data) i = Some (t, v) -> is_nan v = true ->
      nth_error (rolling_std std_half_window (values (sortby_time data))) i = Some sd ->
      is_nan (low_multiplier * sd) = false \/ is_nan (high_multiplier * sd) = false ->
      exists flag, spike_test data spike_half_window std_half_window
                              low_multiplier high_multiplier = Ok flag /\
                   nth_error flag i = Some (t, MISSING_DATA)) /\
  (forall (latitude longitude : DataArray float) (i : nat) (t : Z) (lat lon : float),
      has_dup (index latitude) = false -> has_dup (index longitude) = false ->
      forallb (fun t => memb t (index longitude)) (index latitude) = true ->
      nth_error latitude i = Some (t, lat) -> lookup t longitude = Some lon ->
      is_nan lat = true -> is_nan lon = true ->
      exists flag, location_test latitude longitude = Ok flag /\
                   nth_error flag i = Some (t, MISSING_DATA)) /\
  (forall (data : DataArray float) (max_allowed_std : float)
          (fail_half_window_size suspect_half_window_size : nat) (flag : DataArray FLAG.t),
      flat_line_test data max_allowed_std
                     fail_half_window_size suspect_half_window_size = Ok flag ->
      Forall (fun p => snd p <> MISSING_DATA) flag).
Proof.
  repeat apply conj.
  - intros data smin smax omin omax i t v Hi Hnan. unfold gross_range_test, dmap.
    rewrite (map_nth_error _ _ _ Hi). simpl. now rewrite gross_range_flag_missing.
  - intros data k i t v Hi Hnan.
    destruct (rate_of_change_test_nth data k i t v Hi) as (r & _ & _ & Hflag).
    now rewrite Hflag, rate_of_change_flag_cases, Hnan.
  - intros data h s lo hi i t v sd Hi Hnan Hsd Hthr.
    destruct (spike_test_nth data h s lo hi i t v Hi) as (ref & sd' & _ & Hsd' & Hok & Hflag).
    rewrite Hsd in Hsd'. injection Hsd' as <-.
    eexists. split; [exact Hok|].
    rewrite Hflag, spike_flag_missing by assumption.
    destruct Hthr as [-> | ->]; simpl; [reflexivity | now rewrite orb_true_r].
  - intros latitude longitude i t lat lon Hu1 Hu2 Hall Hi Hl Hlat Hlon.
    rewrite location_test_unique, Hall by assumption.
    eexists. split; [reflexivity|]. unfold zip_by_label.
    rewrite (map_nth_error _ _ _ Hi). simpl. unfold lookup_or. rewrite Hl.
    unfold location_flag, where_ at 1. cbv zeta. now rewrite Hlat, Hlon.
  - intros data mas fh sh flag Hok. apply Forall_forall. intros p Hp.
    unfold flat_line_test in Hok. destruct (construct data) as [d|]; [|discriminate].
    injection Hok as <-. unfold flat_line_flags in Hp. cbv zeta in Hp.
    apply in_map_iff in Hp as [ip [<- _]]. simpl. apply flat_line_flag_not_missing.
Qed.

Lemma missing_dominance_by_test_witness :
  nth_error (gross_range_test [(sec 0, 1); (sec 1, nan)] 0 10 None None) 1
    = Some (sec 1, MISSING_DATA) /\
  nth_error (rate_of_change_test [(sec 0, 1); (sec 1, nan)] 2) 1
    = Some (sec 1, MISSING_DATA) /\
  (exists flag, spike_test [(sec 0, 1); (sec 1, nan)] 1 1 3 5 = Ok flag /\
                nth_error flag 1 = Some (sec 1, MISSING_DATA)) /\
  (exists flag, location_test [(sec 0, nan)] [(sec 0, nan)] = Ok flag /\
                nth_error flag 0 = Some (sec 0, MISSING_DATA)) /\
  (exists flag, flat_line_test [(sec 0, 1); (sec 1, nan)] 0 5 3 = Ok flag /\
                Forall (fun p => snd p <> MISSING_DATA) flag).
Proof.
  destruct missing_dominance_by_test as (Hgross & Hrate & Hspike & Hloc & Hflat).
  split; [|split; [|split; [|split]]].
  - exact (Hgross [(sec 0, 1); (sec 1, nan)] 0 10 None None 1%nat (sec 1) nan
                  eq_refl eq_refl).
  - exact (Hrate [(sec 0, 1); (sec 1, nan)] 2 1%nat (sec 1) nan eq_refl eq_refl).
  - exact (Hspike [(sec 0, 1); (sec 1, nan)] 1%nat 1%nat 3 5 1%nat (sec 1) nan 0
                  eq_refl eq_refl eq_refl (or_introl eq_refl)).
  - exact (Hloc [(sec 0, nan)] [(sec 0, nan)] 0%nat (sec 0) nan nan
                eq_refl eq_refl eq_refl eq_refl eq_refl eq_refl eq_refl).
  - eexists. split; [reflexivity|].
    exact (Hflat [(sec 0, 1); (sec 1, nan)] 0 5%nat 3%nat _ eq_refl).
Defined.

End WindowClaims.

(* ===================================================================== *)
(** * Misaligned inputs of the location test *)
(* ===================================================================== *)

Section LocationClaims.
Import FLAG Qaqc.
Local Open Scope float_scope.

(** C9, no error on inputs of differing length.  A latitude series of one
    sample and a longitude series of two (the second at a timestamp that
    latitude lacks) are accepted: the test returns one flag and raises
    nothing. *)
Lemma location_test_accepts_differing_lengths :
  location_test [(sec 0, 45)] [(sec 0, 90); (sec 1, 90)] = Ok [(sec 0, PASS)].
Proof. vm_compute. reflexivity. Qed.

(** C9, amended.  [location_test] checks neither lengths nor timestamps
    itself.  On series without repeated timestamps it raises (the
    [ValueError] of [where]'s exact alignment) exactly when some latitude
    timestamp is absent from the longitude series; otherwise it returns one
    flag per latitude sample, computed with the longitude sample of the
    same timestamp, and ignores the other longitude samples. *)
Theorem location_test_alignment :
  forall latitude longitude : DataArray float,
    has_dup (index latitude) = false -> has_dup (index longitude) = false ->
    location_test latitude longitude =
    if forallb (fun t => memb t (index longitude)) (index latitude)
    then Ok (map (fun p => (fst p, location_flag (snd p) (lookup_or nan (fst p) longitude)))
                 latitude)
    else Raise ValueError.
Proof. intros latitude longitude H1 H2. now rewrite location_test_unique. Qed.

Lemma location_test_alignment_witness :
  has_dup (index [(sec 0, 45); (sec 2, 91)]) = false /\
  has_dup (index [(sec 0, 90); (sec 1, 90)]) = false /\
  location_test [(sec 0, 45); (sec 2, 91)] [(sec 0, 90); (sec 1, 90)] =
    if forallb (fun t => memb t (index [(sec 0, 90); (sec 1, 90)]))
               (index [(sec 0, 45); (sec 2, 91)])
    then Ok (map (fun p => (fst p, location_flag (snd p)
                                     (lookup_or nan (fst p) [(sec 0, 90); (sec 1, 90)])))
                 [(sec 0, 45); (sec 2, 91)])
    else Raise ValueError.
Proof.
  split; [reflexivity|]. split; [reflexivity|].
  exact (location_test_alignment [(sec 0, 45); (sec 2, 91)] [(sec 0, 90); (sec 1, 90)]
                                 eq_refl eq_refl).
Defined.

(** The two outcomes of the amended statement, evaluated. *)
Example location_test_alignment_outcomes :
  location_test [(sec 0, 45); (sec 2, 91)] [(sec 0, 90); (sec 1, 90)] = Raise ValueError /\
  location_test [(sec 1, 45)] [(sec 0, 90); (sec 1, 200); (sec 2, 0)] = Ok [(sec 1, PASS)].
Proof. split; vm_compute; reflexivity. Qed.

End LocationClaims.

(* ===================================================================== *)
(** * [identify_profiles] and its [profile_direction] argument *)
(* ===================================================================== *)

Section ProfileClaims.
Import Core Profilers.
Local Open Scope string_scope.

Example identify_profiles_cast :
  identify_profiles cast "all" 10 default_max_allowed_std 180
  = Ok (Some [ {| profile_begin_datetime := sec 50;
                  profile_end_datetime := sec 490;
                  direction := "up" |};
               {| profile_begin_datetime := sec 770;
                  profile_end_datetime := sec 910;
                  direction := "down" |} ]).
Proof. vm_compute. reflexivity. Qed.

(** C10, not every input returns [None].  On a series with a single
    descent the flat line flags that are PASS have no break, so
    [split_periods] raises and [identify_profiles] raises with it, whatever
    [profile_direction] is.  On a constant series no flag is PASS and
    [split_periods] raises on the empty selection. *)
Lemma identify_profiles_unknown_direction_raises :
  identify_profiles [(sec 0, 0); (sec 1, 1); (sec 2, 2)]%float
                    "sideways" 10 default_max_allowed_std 180
  = Raise IndexError /\
  exists e, identify_profiles [(sec 0, 3); (sec 1, 3); (sec 2, 3)]%float
                              "sideways" 10 default_max_allowed_std 180
            = Raise e.
Proof. split; [|eexists]; vm_compute; reflexivity. Qed.

(** C10, amended.  Whenever the call with ['all'] returns the list of
    profiles, the same call with a [profile_direction] other than ['all'],
    ['up'] and ['down'] returns [None]: neither a list nor an error. *)
Theorem identify_profiles_unknown_direction :
  forall (cable_length : DataArray float) (profile_direction : string) (buffer : Z)
         (max_allowed_std : float) (min_gap : Z) (profiles : list Profile),
    profile_direction <> "all" -> profile_direction <> "up" ->
    profile_direction <> "down" ->
    identify_profiles cable_length "all" buffer max_allowed_std min_gap
      = Ok (Some profiles) ->
    identify_profiles cable_length profile_direction buffer max_allowed_std min_gap
      = Ok None.
Proof.
  intros cl dir buffer mas gap profiles Hall Hup Hdown H.
  unfold identify_profiles in *.
  destruct (assigned_profiles cl buffer mas gap) as [ps|e]; simpl in *; [|discriminate].
  apply String.eqb_neq in Hall, Hup, Hdown. now rewrite Hall, Hup, Hdown.
Qed.

Lemma identify_profiles_unknown_direction_witness :
  "sideways" <> "all" /\ "sideways" <> "up" /\ "sideways" <> "down" /\
  identify_profiles cast "sideways" 10 default_max_allowed_std 180 = Ok None.
Proof.
  assert (H1 : "sideways" <> "all") by discriminate.
  assert (H2 : "sideways" <> "up") by discriminate.
  assert (H3 : "sideways" <> "down") by discriminate.
  split; [exact H1|]. split; [exact H2|]. split; [exact H3|].
  exact (identify_profiles_unknown_direction
           cast "sideways" 10 default_max_allowed_std 180 _ H1 H2 H3
           identify_profiles_cast).
Defined.

End ProfileClaims.

(* ===================================================================== *)
(** * [split_periods]: separation and coverage *)
(* ===================================================================== *)

Section SplitPeriodsShape.
Import Core.
Context {A : Type}.

Lemma index_filter (f : Z -> bool) (da : DataArray A) :
  index (filter (fun p => f (fst p)) da) = filter f (index da).
Proof.
  induction da as [|p da IH]; simpl; [reflexivity|].
  destruct (f (fst p)); simpl; now rewrite IH.
Qed.

(** With pairwise distinct entries in [dts], one turn of the loop is one
    step of [periods_of]. *)
Lemma period_at_shape (da : DataArray A) (pre rest : list Z) (dt : Z) :
  is_monotonic_increasing (index da) = true ->
  StronglySorted Z.lt (pre ++ dt :: rest) ->
  forall ps, periods_of (index da) rest = ps ->
  (p <- period_at da (pre ++ dt :: rest) dt ;;
   Ok (match p with Some p => p :: ps | None => ps end))
  = Ok (periods_of (index da) (dt :: rest)).
Proof.
  intros Hmono Hs ps <-. unfold period_at.
  destruct (strict_split _ _ _ Hs) as [Hfresh Hpost].
  assert (Hstop :
    (if dt =? last (pre ++ dt :: rest) 0 then Ok None
     else match position dt (pre ++ dt :: rest) with
          | None => Raise ValueError
          | Some dtidx =>
              match nth_error (pre ++ dt :: rest) (dtidx + 1) with
              | None => Raise IndexError
              | Some next => Ok (Some (next - sec 30))
              end
          end)
    = Ok match rest with [] => None | next :: _ => Some (next - sec 30) end).
  { rewrite last_app_cons. destruct rest as [|next rest'].
    - simpl. now rewrite Z.eqb_refl.
    - change (last (dt :: next :: rest') 0) with (last (next :: rest') 0).
      pose proof (last_In rest' next 0) as Hin.
      rewrite Forall_forall in Hpost. specialize (Hpost _ Hin).
      destruct (Z.eqb_spec dt (last (next :: rest') 0)); [lia|].
      rewrite position_app_fresh by assumption.
      rewrite nth_error_app2 by lia.
      replace (List.length pre + 1 - List.length pre)%nat with 1%nat by lia.
      reflexivity. }
  rewrite Hstop. cbn [bind]. rewrite sel_slice_sorted by assumption. cbn [bind].
  set (stop := match rest with [] => None | next :: _ => Some (next - sec 30) end).
  rewrite (index_filter (fun t => (dt <=? t) &&
             match stop with Some s => t <=? s | None => true end)).
  cbn [periods_of]. fold stop.
  destruct (filter _ (index da)) as [|t0 sel]; reflexivity.
Qed.

(** The loop of [split_periods] over distinct, increasing [dts]. *)
Lemma periods_loop_shape (da : DataArray A) (dts : list Z) :
  is_monotonic_increasing (index da) = true ->
  StronglySorted Z.lt dts ->
  forall todo pre, dts = pre ++ todo ->
    periods_loop da dts todo = Ok (periods_of (index da) todo).
Proof.
  intros Hmono Hs. induction todo as [|dt todo IH]; intros pre Hdts; [reflexivity|].
  cbn [periods_loop].
  rewrite (IH (pre ++ [dt])) by (now rewrite <- app_assoc).
  transitivity (p <- period_at da dts dt ;;
                Ok (match p with
                    | Some p => p :: periods_of (index da) todo
                    | None => periods_of (index da) todo
                    end)).
  - now destruct (period_at da dts dt).
  - rewrite Hdts. apply period_at_shape; [assumption | now rewrite <- Hdts | reflexivity].
Qed.

(** *** Properties of [periods_of] *)

Lemma periods_of_begin (times dts : list Z) (d : Z) :
  StronglySorted Z.lt dts -> hd_error dts = Some d ->
  Forall (fun p => d <= begin_datetime p) (periods_of times dts).
Proof.
  intros Hs. revert d. induction Hs as [|dt rest Hs IH Hall]; intros d Hd; [discriminate|].
  injection Hd as <-. cbn [periods_of].
  assert (Hrest : Forall (fun p => dt <= begin_datetime p) (periods_of times rest)).
  { destruct rest as [|next rest']; [constructor|].
    inversion Hall; subst. eapply Forall_impl; [|apply (IH next eq_refl)].
    simpl. intros; lia. }
  match goal with |- context [filter ?g times] => set (f := g) end. destruct (filter f times) as [|t0 sel] eqn:Hf; [assumption|].
  constructor; [|assumption]. simpl.
  destruct (fold_min_spec sel t0) as [Hin _]. rewrite <- Hf in Hin.
  apply filter_In in Hin as [_ Hin]. unfold f in Hin.
  apply andb_true_iff in Hin as [Hin _]. now apply Z.leb_le.
Qed.

(** Periods that begin at gapped break points lie more than the gap
    apart. *)
Lemma periods_of_separated (gap : Z) (times dts : list Z) :
  StronglySorted Z.lt dts ->
  Forall (gapped gap times) (tl dts) ->
  StronglySorted (fun p q => end_datetime p + gap < begin_datetime q)
                 (periods_of times dts).
Proof.
  intros Hs. induction Hs as [|dt rest Hs IH Hall]; intros Hg; [constructor|].
  cbn [periods_of]. simpl in Hg.
  assert (IH' : StronglySorted (fun p q => end_datetime p + gap < begin_datetime q)
                               (periods_of times rest)).
  { apply IH. destruct rest; [constructor | now inversion Hg]. }
  match goal with |- context [filter ?g times] => set (f := g) end. destruct (filter f times) as [|t0 sel] eqn:Hf; [assumption|].
  constructor; [assumption|]. simpl.
  destruct rest as [|next rest']; [constructor|].
  inversion Hg as [|? ? Hnext _]; subst.
  destruct (fold_max_spec sel t0) as [Hin _]. rewrite <- Hf in Hin.
  apply filter_In in Hin as [Hin Hrange]. unfold f in Hrange.
  apply andb_true_iff in Hrange as [_ Hle]. apply Z.leb_le in Hle.
  assert (Hlt : fold_left Z.max sel t0 + gap < next)
    by (apply Hnext; [assumption | unfold sec in Hle; lia]).
  eapply Forall_impl; [|apply (periods_of_begin times (next :: rest') next Hs eq_refl)].
  simpl. intros; lia.
Qed.

(** When the gap is at least the 30 second back-off, every timestamp from
    the first break point on lies in a period. *)
Lemma periods_of_cover (gap : Z) (times dts : list Z) (t : Z) :
  sec 30 <= gap ->
  Forall (gapped gap times) (tl dts) ->
  In t times ->
  forall d, hd_error dts = Some d -> d <= t ->
  exists p, In p (periods_of times dts) /\ begin_datetime p <= t <= end_datetime p.
Proof.
  intros Hgap Hg Ht. induction dts as [|dt rest IH]; intros d Hd Hle; [discriminate|].
  injection Hd as <-. cbn [periods_of]. simpl in Hg.
  match goal with |- context [filter ?g times] => set (f := g) end.
  destruct rest as [|next rest'].
  - assert (Hin : In t (filter f times)).
    { apply filter_In. split; [assumption|]. unfold f.
      rewrite andb_true_r. now apply Z.leb_le. }
    destruct (filter f times) as [|t0 sel]; [contradiction|].
    eexists. split; [now left|]. simpl.
    destruct (fold_min_spec sel t0) as [_ Hmin], (fold_max_spec sel t0) as [_ Hmax].
    rewrite Forall_forall in Hmin, Hmax. split; auto.
  - inversion Hg as [|? ? Hnext Hg']; subst.
    destruct (Z.lt_ge_cases t next) as [Hlt | Hge].
    + assert (Hin : In t (filter f times)).
      { apply filter_In. split; [assumption|]. unfold f.
        apply andb_true_iff. split; apply Z.leb_le; [assumption|].
        specialize (Hnext t Ht Hlt). lia. }
      destruct (filter f times) as [|t0 sel]; [contradiction|].
      eexists. split; [now left|]. simpl.
      destruct (fold_min_spec sel t0) as [_ Hmin], (fold_max_spec sel t0) as [_ Hmax].
      rewrite Forall_forall in Hmin, Hmax. split; auto.
    + destruct (IH Hg' next eq_refl Hge) as (p & Hp & Hr).
      exists p. split; [|assumption].
      destruct (filter f times); [assumption | now right].
Qed.

(** The last period ends at the latest timestamp at or after the last
    break point. *)
Lemma periods_of_last (times dts : list Z) (d tmax : Z) :
  In d times -> dts <> [] -> last dts 0 = d ->
  list_max times = Ok tmax ->
  exists p, last (periods_of times dts) p = p /\ In p (periods_of times dts) /\
            end_datetime p = tmax.
Proof.
  intros Hd Hne Hlast Hmax. apply list_max_spec in Hmax as [Hmaxin Hmaxge].
  rewrite Forall_forall in Hmaxge.
  induction dts as [|dt rest IH]; [contradiction|]. cbn [periods_of].
  match goal with |- context [filter ?g times] => set (f := g) end.
  destruct rest as [|next rest'].
  - simpl in Hlast. subst dt.
    assert (Hin : In tmax (filter f times)).
    { apply filter_In. split; [assumption|]. unfold f.
      rewrite andb_true_r. apply Z.leb_le. auto. }
    destruct (filter f times) as [|t0 sel] eqn:Hf; [contradiction|].
    eexists. split; [reflexivity|]. split; [now left|]. simpl.
    destruct (fold_max_spec sel t0) as [Hin' Hge]. rewrite Forall_forall in Hge.
    specialize (Hge _ Hin). rewrite <- Hf in Hin'. apply filter_In in Hin' as [Hin' _].
    specialize (Hmaxge _ Hin'). lia.
  - destruct IH as (p & Hl & Hp & He); [discriminate | exact Hlast |].
    exists p. split; [|split; [|assumption]].
    + destruct (filter f times); [assumption|].
      change (last (?q :: ?l) p) with (match l with [] => q | _ => last l p end).
      destruct (periods_of times (next :: rest')); [contradiction | assumption].
    + destruct (filter f times); [assumption | now right].
Qed.

Lemma diff_from_prev (prev : Z) (l : list Z) (d delta : Z) :
  StronglySorted Z.lt (prev :: l) ->
  In (d, delta) (diff_from prev l) ->
  forall t, In t (prev :: l) -> t < d -> t <= d - delta.
Proof.
  revert prev. induction l as [|t1 l IH]; intros prev Hs Hin; [contradiction|].
  inversion Hs as [|? ? Hs' Hall]; subst. simpl in Hin.
  intros t Ht Hlt. destruct Hin as [Heq | Hin].
  - injection Heq as <- <-. destruct Ht as [<- | Ht]; [lia|].
    inversion Hs' as [|? ? _ Hall']; subst. rewrite Forall_forall in Hall'.
    destruct Ht as [<- | Ht]; [lia | specialize (Hall' _ Ht); lia].
  - assert (Hd : In d l).
    { rewrite <- (index_diff_from t1 l). apply In_index. now exists delta. }
    inversion Hs' as [|? ? _ Hall']; subst. rewrite Forall_forall in Hall, Hall'.
    specialize (Hall' _ Hd).
    pose proof (IH t1 Hs' Hin t1 (or_introl eq_refl) Hall') as H1.
    destruct Ht as [<- | Ht]; [|now apply (IH t1 Hs' Hin)].
    specialize (Hall t1 (or_introl eq_refl)). lia.
Qed.

(** Every break point lies more than [min_gap] seconds after all earlier
    timestamps. *)
Lemma break_points_gapped (da : DataArray A) (min_gap : Z) (dts : list Z) :
  StronglySorted Z.le (index da) ->
  break_points da min_gap = Ok dts ->
  Forall (gapped (sec min_gap) (index da)) dts.
Proof.
  intros Hs Hbp. destruct dts as [|d0 dts']; [constructor|].
  destruct (break_points_spec da min_gap _ Hs Hbp) as (Hstrict & _ & _); [discriminate|].
  unfold break_points, align in Hbp. rewrite index_dmap, index_time_diff in Hbp.
  destruct (index_eqb (index da) (tl (index da))) eqn:Heq.
  - exfalso. apply index_eqb_eq in Heq. destruct da as [|p da]; simpl in *.
    + discriminate.
    + apply (f_equal (@List.length Z)) in Heq. simpl in Heq. lia.
  - destruct (has_dup (index da) || has_dup (tl (index da)))%bool; simpl in Hbp;
      [discriminate|].
    injection Hbp as Hbp. rewrite <- Hbp.
    apply Forall_forall. intros d Hd.
    apply In_index in Hd as [[x c] Hin]. apply filter_In in Hin as [Hin Hc].
    simpl in Hc. subst c. apply inner_join_In in Hin as [_ Hin].
    unfold dmap in Hin. apply in_map_iff in Hin as [[d' delta] [Heq' Hin]].
    injection Heq' as -> Hgt. simpl in Hgt. apply Z.ltb_lt in Hgt.
    intros t Ht Hlt. destruct (index da) as [|t0 l] eqn:Hidx; [contradiction|].
    simpl in Hin. pose proof (diff_from_prev t0 l d delta Hstrict Hin t Ht Hlt). lia.
Qed.

(** What [split_periods] returns, in terms of [periods_of]. *)
Lemma split_periods_shape (da_time : DataArray A) (min_gap : Z) (periods : list Period) :
  split_periods da_time min_gap = Ok periods ->
  exists tmin tmax dts,
    list_min (index (sortby_time da_time)) = Ok tmin /\
    list_max (index (sortby_time da_time)) = Ok tmax /\
    hd_error dts = Some tmin /\
    In (last dts 0) (index (sortby_time da_time)) /\
    StronglySorted Z.lt dts /\
    Forall (gapped (sec min_gap) (index (sortby_time da_time))) (tl dts) /\
    periods = periods_of (index (sortby_time da_time)) dts.
Proof.
  intros H. unfold split_periods in H.
  pose proof (sortby_time_sorted da_time) as Hsorted.
  set (s := sortby_time da_time) in *.
  destruct (break_points s min_gap) as [dts|] eqn:Hbp; simpl in H; [|discriminate].
  destruct (list_min (index s)) as [tmin|] eqn:Hmin; simpl in H; [|discriminate].
  destruct dts as [|dts0 dts']; [discriminate|].
  pose proof (break_points_gapped _ _ _ Hsorted Hbp) as Hgapped.
  apply break_points_spec in Hbp as (Hstrict & Hdts & Htl); [|assumption|discriminate].
  pose proof (list_min_spec _ _ Hmin) as [Hminin Hminle].
  destruct (index s) as [|t0 l] eqn:Hidx; [contradiction|]. simpl in Htl.
  assert (Htmin : tmin = t0).
  { inversion Hstrict as [|? ? _ Hl]; subst.
    destruct Hminin as [-> | Hin]; [reflexivity|].
    rewrite Forall_forall in Hl, Hminle. specialize (Hl _ Hin).
    specialize (Hminle t0 (or_introl eq_refl)). lia. }
  subst tmin.
  assert (Hmax : exists tmax, list_max (t0 :: l) = Ok tmax) by (eexists; reflexivity).
  destruct Hmax as [tmax Hmax].
  set (dts := if negb (t0 =? dts0) then t0 :: dts0 :: dts' else dts0 :: dts') in H.
  assert (Hdts2 : StronglySorted Z.lt dts /\ hd_error dts = Some t0 /\
                  Forall (gapped (sec min_gap) (t0 :: l)) (tl dts) /\
                  In (last dts 0) (t0 :: l)).
  { assert (Hlastin : In (last (dts0 :: dts') 0) (t0 :: l)).
    { right. rewrite Forall_forall in Htl. apply Htl. apply last_In. }
    unfold dts. destruct (Z.eqb_spec t0 dts0) as [<- | Hne]; simpl negb; cbv iota.
    - split; [assumption|]. split; [reflexivity|]. split; [now inversion Hgapped | assumption].
    - split; [|split; [reflexivity | split; [assumption|exact Hlastin]]].
      constructor; [assumption|].
      inversion Hstrict as [|? ? _ Hl]; subst.
      rewrite Forall_forall in *. intros d Hd. apply Hl. now apply Htl. }
  destruct Hdts2 as (Hs2 & Hhd & Hg2 & Hlast).
  assert (Hmono : is_monotonic_increasing (index s) = true)
    by (rewrite Hidx; now apply sorted_monotonic).
  rewrite <- Hidx in H.
  rewrite (periods_loop_shape s dts Hmono Hs2 dts [] eq_refl) in H.
  cbn [bind] in H. exists t0, tmax, dts. rewrite Hidx in H.
  repeat split; try assumption.
  destruct (periods_of (t0 :: l) dts) as [|p ps] eqn:Hps.
  - exfalso.
    destruct (periods_of_last (t0 :: l) dts (last dts 0) tmax Hlast) as (p & _ & Hp & _);
      try reflexivity; try assumption.
    + intros ->. discriminate.
    + now rewrite Hps in Hp.
  - now injection H as <-.
Qed.

End SplitPeriodsShape.

Section SplitPeriodsExtras.
Import Core.

Lemma periods_of_first (gap : Z) (times dts : list Z) (d : Z) :
  sec 30 <= gap ->
  StronglySorted Z.lt dts ->
  Forall (gapped gap times) (tl dts) ->
  hd_error dts = Some d -> In d times -> Forall (fun t => d <= t) times ->
  exists p, hd_error (periods_of times dts) = Some p /\ begin_datetime p = d.
Proof.
  intros Hgap Hs Hg Hd Hin Hmin. destruct dts as [|dt rest]; [discriminate|].
  injection Hd as ->. cbn [periods_of].
  match goal with |- context [filter ?g times] => set (f := g) end.
  assert (Hsel : In d (filter f times)).
  { apply filter_In. split; [assumption|]. unfold f.
    rewrite Z.leb_refl. simpl. destruct rest as [|next rest']; [reflexivity|].
    apply Z.leb_le. simpl in Hg. inversion Hg as [|? ? Hnext _]; subst.
    inversion Hs as [|? ? _ Hall]; subst. inversion Hall as [|? ? Hlt _]; subst.
    specialize (Hnext d Hin Hlt). unfold sec in *. lia. }
  destruct (filter f times) as [|t0 sel] eqn:Hf; [contradiction|].
  eexists. split; [reflexivity|]. simpl.
  destruct (fold_min_spec sel t0) as [Hin' Hle]. rewrite Forall_forall in Hle, Hmin.
  specialize (Hle _ Hsel). rewrite <- Hf in Hin'. apply filter_In in Hin' as [Hin' _].
  specialize (Hmin _ Hin'). lia.
Qed.

(** X4 (separation of periods).  Whenever [split_periods] returns, every
    period begins more than [min_gap] seconds after each earlier period
    has ended. *)
Theorem split_periods_separated :
  forall (A : Type) (da_time : DataArray A) (min_gap : Z) (periods : list Period),
    split_periods da_time min_gap = Ok periods ->
    StronglySorted (fun p q => end_datetime p + sec min_gap < begin_datetime q) periods.
Proof.
  intros A da_time min_gap periods H.
  apply split_periods_shape in H as (tmin & tmax & dts & _ & _ & _ & _ & Hs & Hg & ->).
  now apply periods_of_separated.
Qed.

Lemma split_periods_separated_witness :
  let da_time := [(sec 0, tt); (sec 10, tt); (sec 20, tt); (sec 400, tt); (sec 410, tt)] in
  let periods := [ {| begin_datetime := sec 0; end_datetime := sec 20 |};
                   {| begin_datetime := sec 400; end_datetime := sec 410 |} ] in
  split_periods da_time 60 = Ok periods /\
  StronglySorted (fun p q => end_datetime p + sec 60 < begin_datetime q) periods.
Proof.
  intros da_time periods.
  assert (H : split_periods da_time 60 = Ok periods) by (vm_compute; reflexivity).
  split; [exact H|].
  exact (split_periods_separated unit da_time 60 periods H).
Defined.

(** X5 (coverage).  Whenever [split_periods] returns and [min_gap] is at
    least 30 seconds (the back-off subtracted from the end of a period),
    every timestamp of the input lies in one of the periods. *)
Theorem split_periods_covers :
  forall (A : Type) (da_time : DataArray A) (min_gap : Z) (periods : list Period) (t : Z),
    split_periods da_time min_gap = Ok periods ->
    30 <= min_gap ->
    In t (index da_time) ->
    exists p, In p periods /\ begin_datetime p <= t <= end_datetime p.
Proof.
  intros A da_time min_gap periods t H Hgap Ht.
  apply split_periods_shape in H as (tmin & tmax & dts & Hmin & _ & Hhd & _ & _ & Hg & ->).
  apply index_sortby_time_In in Ht.
  apply list_min_spec in Hmin as [_ Hle]. rewrite Forall_forall in Hle.
  apply (periods_of_cover (sec min_gap) _ dts t) with (d := tmin); try assumption.
  - unfold sec. lia.
  - now apply Hle.
Qed.

Lemma split_periods_covers_witness :
  let da_time := [(sec 0, tt); (sec 10, tt); (sec 20, tt); (sec 400, tt); (sec 410, tt)] in
  let periods := [ {| begin_datetime := sec 0; end_datetime := sec 20 |};
                   {| begin_datetime := sec 400; end_datetime := sec 410 |} ] in
  split_periods da_time 60 = Ok periods /\ 30 <= 60 /\ In (sec 10) (index da_time) /\
  exists p, In p periods /\ begin_datetime p <= sec 10 <= end_datetime p.
Proof.
  intros da_time periods.
  assert (H : split_periods da_time 60 = Ok periods) by (vm_compute; reflexivity).
  assert (Hgap : 30 <= 60) by (vm_compute; discriminate).
  assert (Hin : In (sec 10) (index da_time)) by (right; left; reflexivity).
  split; [exact H|]. split; [exact Hgap|]. split; [exact Hin|].
  exact (split_periods_covers unit da_time 60 periods (sec 10) H Hgap Hin).
Defined.

(** X6 (first and last period).  Whenever [split_periods] returns, the
    last period ends at the latest timestamp of the input; when [min_gap]
    is at least 30 seconds the first period begins at the earliest. *)
Theorem split_periods_span :
  forall (A : Type) (da_time : DataArray A) (min_gap : Z) (periods : list Period),
    split_periods da_time min_gap = Ok periods ->
    (exists p, In p periods /\ last periods p = p /\
               Forall (fun t => t <= end_datetime p) (index da_time)) /\
    (30 <= min_gap ->
     exists p, hd_error periods = Some p /\
               Forall (fun t => begin_datetime p <= t) (index da_time)).
Proof.
  intros A da_time min_gap periods H.
  apply split_periods_shape in H
    as (tmin & tmax & dts & Hmin & Hmax & Hhd & Hlast & Hs & Hg & ->).
  split.
  - destruct (periods_of_last _ dts (last dts 0) tmax Hlast) as (p & Hl & Hp & He);
      try reflexivity; try assumption.
    { intros ->. discriminate. }
    exists p. split; [assumption|]. split; [assumption|].
    apply list_max_spec in Hmax as [_ Hge]. rewrite Forall_forall in *.
    intros t Ht. rewrite He. apply Hge. now apply index_sortby_time_In.
  - intros Hgap. apply list_min_spec in Hmin as [Hin Hle].
    destruct (periods_of_first (sec min_gap) (index (sortby_time da_time)) dts tmin)
      as (p & Hp & Hb); try assumption.
    { unfold sec. lia. }
    exists p. split; [assumption|]. rewrite Hb. rewrite Forall_forall in *.
    intros t Ht. apply Hle. now apply index_sortby_time_In.
Qed.

Lemma split_periods_span_witness :
  let da_time := [(sec 0, tt); (sec 10, tt); (sec 20, tt); (sec 400, tt); (sec 410, tt)] in
  let periods := [ {| begin_datetime := sec 0; end_datetime := sec 20 |};
                   {| begin_datetime := sec 400; end_datetime := sec 410 |} ] in
  split_periods da_time 60 = Ok periods /\
  (exists p, In p periods /\ last periods p = p /\
             Forall (fun t => t <= end_datetime p) (index da_time)) /\
  (30 <= 60 ->
   exists p, hd_error periods = Some p /\
             Forall (fun t => begin_datetime p <= t) (index da_time)).
Proof.
  intros da_time periods.
  assert (H : split_periods da_time 60 = Ok periods) by (vm_compute; reflexivity).
  split; [exact H|].
  exact (split_periods_span unit da_time 60 periods H).
Defined.

End SplitPeriodsExtras.

Section SplitPeriodsReturns.
Import Core.
Context {A : Type}.

Lemma NoDup_has_dup (l : list Z) : NoDup l -> has_dup l = false.
Proof.
  induction 1 as [|x l Hx Hnd IH]; simpl; [reflexivity|].
  rewrite IH, orb_false_r. destruct (memb x l) eqn:E; [|reflexivity].
  apply memb_In in E. contradiction.
Qed.

Lemma lookup_NoDup {B : Type} (t : Z) (y : B) (b : DataArray B) :
  NoDup (index b) -> In (t, y) b -> lookup t b = Some y.
Proof.
  induction b as [|[t' y'] b IH]; simpl; intros Hnd Hin; [contradiction|].
  inversion Hnd as [|? ? Hfresh Hnd']; subst.
  destruct Hin as [[= -> ->] | Hin].
  - now rewrite Z.eqb_refl.
  - destruct (Z.eqb_spec t t') as [->|_]; [|now apply IH].
    exfalso. apply Hfresh. apply In_index. now exists y.
Qed.

Lemma In_inner_join {B : Type} (a : DataArray A) (b : DataArray B) (t : Z) (x : A) (y : B) :
  In (t, x) a -> lookup t b = Some y -> In (t, (x, y)) (inner_join a b).
Proof.
  induction a as [|[t' x'] a IH]; simpl; intros Hin Hl; [contradiction|].
  destruct Hin as [[= -> ->] | Hin].
  - rewrite Hl. now left.
  - destruct (lookup t' b); [right|]; now apply IH.
Qed.

Lemma split_periods_of_breaks (da_time : DataArray A) (min_gap dts0 : Z) (dts' : list Z) :
  break_points (sortby_time da_time) min_gap = Ok (dts0 :: dts') ->
  exists periods, split_periods da_time min_gap = Ok periods /\ periods <> [].
Proof.
  intros Hbp. unfold split_periods. cbv zeta.
  pose proof (sortby_time_sorted da_time) as Hsorted.
  set (s := sortby_time da_time) in *.
  rewrite Hbp. cbn [bind].
  pose proof Hbp as Hspec.
  apply break_points_spec in Hspec as (Hstrict & Hdts & Htl); [|assumption|discriminate].
  assert (Hmono : is_monotonic_increasing (index s) = true) by now apply sorted_monotonic.
  destruct (index s) as [|t0 l] eqn:Hidx; [inversion Htl; contradiction|].
  simpl in Htl. cbn [list_min bind].
  assert (Hmin : fold_left Z.min l t0 = t0).
  { destruct (fold_min_spec l t0) as [Hin Hle].
    inversion Hstrict as [|? ? _ Hl]; subst.
    destruct Hin as [<- | Hin]; [reflexivity|].
    rewrite Forall_forall in Hl, Hle. specialize (Hl _ Hin).
    specialize (Hle t0 (or_introl eq_refl)). lia. }
  rewrite Hmin.
  set (dts := if negb (t0 =? dts0) then t0 :: dts0 :: dts' else dts0 :: dts').
  assert (Hs2 : StronglySorted Z.lt dts).
  { unfold dts. destruct (Z.eqb_spec t0 dts0) as [<- | Hne]; simpl negb; cbv iota;
      [assumption|].
    constructor; [assumption|].
    inversion Hstrict as [|? ? _ Hl]; subst.
    rewrite Forall_forall in *. intros d Hd. apply Hl. now apply Htl. }
  rewrite <- Hidx in Hmono.
  rewrite (periods_loop_shape s dts Hmono Hs2 dts [] eq_refl). cbn [bind].
  destruct (periods_of (index s) dts) as [|p ps].
  - cbn [list_max bind]. eexists. split; [reflexivity | discriminate].
  - eexists. split; [reflexivity | discriminate].
Qed.

(** X26 (when [split_periods] returns).  On a series whose timestamps are
    pairwise distinct and where two consecutive timestamps, in time order,
    are more than [min_gap] seconds apart, [split_periods] raises nothing
    and returns at least one period. *)
Theorem split_periods_returns :
  forall (da_time : DataArray A) (min_gap : Z),
    NoDup (index da_time) ->
    Exists (fun p => sec min_gap < snd p) (time_diff (index (sortby_time da_time))) ->
    exists periods, split_periods da_time min_gap = Ok periods /\ periods <> [].
Proof.
  intros da_time min_gap Hnd Hgap.
  set (s := sortby_time da_time) in *.
  assert (Hnds : NoDup (index s)).
  { apply (NoDup_incl_NoDup Hnd).
    - unfold index. rewrite !length_map. unfold s. now rewrite sortby_time_length.
    - intros t Ht. now apply index_sortby_time_In. }
  apply Exists_exists in Hgap as ([t d] & Hin & Hd). simpl in Hd.
  set (cond := dmap (fun d => sec min_gap <? d) (time_diff (index s))).
  assert (Hcidx : index cond = tl (index s))
    by (unfold cond; now rewrite index_dmap, index_time_diff).
  assert (Htl : NoDup (tl (index s))).
  { destruct (index s) as [|t0 l]; [constructor | now inversion Hnds]. }
  assert (Hcond : In (t, true) cond).
  { unfold cond, dmap. apply in_map_iff. exists (t, d). split; [|assumption].
    simpl. f_equal. apply Z.ltb_lt. exact Hd. }
  assert (Ht : In t (index s)).
  { assert (H : In t (index cond)) by (apply In_index; eauto).
    rewrite Hcidx in H. destruct (index s); [contradiction | now right]. }
  apply In_index in Ht as [x Hx].
  assert (Hl : lookup t cond = Some true)
    by (apply lookup_NoDup; [now rewrite Hcidx | assumption]).
  assert (Hbp : break_points s min_gap
                = Ok (index (filter (fun p : Z * (A * bool) => snd (snd p))
                                    (inner_join s cond)))).
  { unfold break_points, align. fold cond. rewrite Hcidx.
    destruct (index_eqb (index s) (tl (index s))) eqn:E.
    - exfalso. apply index_eqb_eq in E. apply (f_equal (@List.length Z)) in E.
      destruct (index s) as [|t0 l] eqn:Hidx; simpl in E; [|lia].
      apply (f_equal (@List.length Z)) in Hidx. unfold index in Hidx.
      rewrite length_map in Hidx. destruct s; [contradiction | discriminate].
    - now rewrite (NoDup_has_dup _ Hnds), (NoDup_has_dup _ Htl). }
  destruct (index (filter (fun p : Z * (A * bool) => snd (snd p)) (inner_join s cond)))
    as [|dts0 dts'] eqn:Hdts.
  - exfalso.
    assert (Hmem : In t (index (filter (fun p : Z * (A * bool) => snd (snd p))
                                       (inner_join s cond)))).
    { apply In_index. exists (x, true). apply filter_In. split; [|reflexivity].
      now apply In_inner_join. }
    now rewrite Hdts in Hmem.
  - now apply (split_periods_of_breaks da_time min_gap dts0 dts').
Qed.

End SplitPeriodsReturns.

Lemma split_periods_returns_witness :
  let da_time := [(sec 400, tt); (sec 0, tt); (sec 10, tt); (sec 410, tt)] in
  NoDup (index da_time) /\
  Exists (fun p => sec 60 < snd p) (Core.time_diff (index (sortby_time da_time))) /\
  exists periods, Core.split_periods da_time 60 = Ok periods /\ periods <> [].
Proof.
  intros da_time.
  assert (H1 : NoDup (index da_time)).
  { apply has_dup_false_NoDup. reflexivity. }
  assert (H2 : Exists (fun p => sec 60 < snd p)
                      (Core.time_diff (index (sortby_time da_time)))).
  { apply Exists_exists. exists (sec 400, sec 390). split; [|reflexivity].
    simpl. right. now left. }
  split; [exact H1|]. split; [exact H2|].
  exact (split_periods_returns da_time 60 H1 H2).
Defined.

(* ===================================================================== *)
(** * The tests of qaqc.py: alignment, flag ranges, spike classification *)
(* ===================================================================== *)

Section QaqcExtras.
Import FLAG Qaqc.
Local Open Scope float_scope.

Lemma index_map_combine {X Y V : Type} (f : (Z * X) * Y -> V)
    (da : DataArray X) (l : list Y) :
  (List.length da <= List.length l)%nat ->
  index (map (fun p => (fst (fst p), f p)) (combine da l)) = index da.
Proof.
  revert l. induction da as [|p da IH]; intros [|y l] Hlen; simpl in *;
    try reflexivity; try lia.
  rewrite IH by lia. reflexivity.
Qed.

Lemma index_map_enumerate {X V : Type} (g : nat * (Z * X) -> V)
    (da : DataArray X) (k : nat) :
  index (map (fun ip => (fst (snd ip), g ip)) (combine (seq k (List.length da)) da))
  = index da.
Proof.
  revert k. induction da as [|p da IH]; intros k; simpl; [reflexivity|].
  f_equal. apply IH.
Qed.

Lemma length_rate (data : DataArray float) :
  (List.length data <= List.length (rate data))%nat.
Proof.
  unfold rate. destruct data as [|p l]; simpl; [lia|]. rewrite length_diff_rate. lia.
Qed.

Lemma where_da_index {X : Type} (a : DataArray X) (cond : DataArray bool) (other : X)
    (r : DataArray X) :
  where_da a cond other = Ok r -> index r = index a.
Proof.
  unfold where_da. destruct (index_eqb (index a) (index cond)) eqn:Heq; [|discriminate].
  intros H. injection H as <-. apply index_eqb_eq in Heq.
  assert (Hlen : List.length a = List.length cond).
  { apply (f_equal (@List.length Z)) in Heq. unfold index in Heq.
    now rewrite !length_map in Heq. }
  clear Heq. revert cond Hlen. induction a as [|p a IH]; intros [|c cond] Hlen;
    simpl in *; try reflexivity; try discriminate.
  f_equal. apply IH. lia.
Qed.

Lemma where_da_values {X : Type} (P : X -> Prop) (a : DataArray X)
    (cond : DataArray bool) (other : X) (r : DataArray X) :
  where_da a cond other = Ok r ->
  Forall (fun p => P (snd p)) a -> P other -> Forall (fun p => P (snd p)) r.
Proof.
  unfold where_da. destruct (index_eqb (index a) (index cond)); [|discriminate].
  intros H Ha Ho. injection H as <-. apply Forall_forall.
  intros q Hq. apply in_map_iff in Hq as [[p c] [<- Hin]]. simpl.
  destruct (snd c); [|assumption].
  apply in_combine_l in Hin. rewrite Forall_forall in Ha. now apply Ha.
Qed.

Lemma index_flat_line_flags (data : DataArray float) (mas : float) (fh sh : nat) :
  index (flat_line_flags data mas fh sh) = index data.
Proof.
  unfold flat_line_flags. cbv zeta.
  apply (index_map_enumerate
           (fun ip => flat_line_flag mas
                        (nanstd (window_trailing (fh * 2 + 1) (values data) (fst ip)))
                        (nanstd (window_trailing (sh * 2 + 1) (values data) (fst ip))))).
Qed.

Lemma index_spike_flags (d : DataArray float) (h s : nat) (lo hi : float) :
  index (spike_flags d h s lo hi) = index d.
Proof.
  unfold spike_flags. cbv zeta.
  transitivity (index (map (fun p : (Z * float) * float => (fst (fst p), snd p))
                           (combine d (spkref h (values d))))).
  - unfold index. rewrite !map_map. cbn [fst].
    assert (Hlen : (List.length (combine d (spkref h (values d)))
                    <= List.length (rolling_std s (values d)))%nat).
    { rewrite length_combine, length_rolling_std, length_spkref.
      unfold values. rewrite length_map. lia. }
    revert Hlen. generalize (rolling_std s (values d)).
    generalize (combine d (spkref h (values d))).
    induction l as [|p l IH]; intros [|y l'] Hlen; simpl in *;
      try reflexivity; try lia.
    f_equal. apply IH. lia.
  - apply (index_map_combine (fun p => snd p)).
    rewrite length_spkref. unfold values. rewrite length_map. lia.
Qed.

(** X7 (alignment of the flags).  The gross range and rate of change tests
    return one flag per input sample, under the timestamps of the input
    and in its order.  The flat line test and the spike test raise
    [ValueError] on an empty series; on any other series the flat line
    test returns one flag per sample under the timestamps of the input and
    in its order, and the spike test returns one flag per sample in time
    order (under the timestamps of the sorted input).  The location test,
    when it returns, returns its flags under the latitude timestamps. *)
Theorem flags_aligned_with_input :
  (forall data sensor_min sensor_max operator_min operator_max,
      index (gross_range_test data sensor_min sensor_max operator_min operator_max)
      = index data) /\
  (forall max_allowed_std fail_half_window_size suspect_half_window_size,
      flat_line_test [] max_allowed_std fail_half_window_size suspect_half_window_size
      = Raise ValueError) /\
  (forall data max_allowed_std fail_half_window_size suspect_half_window_size,
      data <> [] ->
      exists flag,
        flat_line_test data max_allowed_std
                       fail_half_window_size suspect_half_window_size = Ok flag /\
        index flag = index data) /\
  (forall data std_multiplier,
      index (rate_of_change_test data std_multiplier) = index data) /\
  (forall spike_half_window std_half_window low_multiplier high_multiplier,
      spike_test [] spike_half_window std_half_window low_multiplier high_multiplier
      = Raise ValueError) /\
  (forall data spike_half_window std_half_window low_multiplier high_multiplier,
      data <> [] ->
      exists flag,
        spike_test data spike_half_window std_half_window
                   low_multiplier high_multiplier = Ok flag /\
        index flag = index (sortby_time data) /\
        StronglySorted Z.le (index flag)) /\
  (forall latitude longitude flag,
      location_test latitude longitude = Ok flag -> index flag = index latitude).
Proof.
  repeat apply conj.
  - intros. unfold gross_range_test. apply index_dmap.
  - reflexivity.
  - intros data mas fh sh Hne. eexists. split; [now apply flat_line_test_ok|].
    apply index_flat_line_flags.
  - intros data k. unfold rate_of_change_test.
    apply (index_map_combine
             (fun dr => rate_of_change_flag k (np_std (rate data)) (snd (fst dr)) (snd dr))).
    apply length_rate.
  - reflexivity.
  - intros data h s lo hi Hne. eexists. split; [now apply spike_test_ok|].
    rewrite index_spike_flags. split; [reflexivity | apply sortby_time_sorted].
  - intros latitude longitude flag H. unfold location_test in H.
    repeat match type of H with
           | bind ?m _ = Ok _ => let E := fresh "E" in
                                 destruct m eqn:E; cbn [bind] in H; [|discriminate]
           end.
    injection H as <-.
    repeat match goal with
           | E : where_da _ _ _ = Ok _ |- _ => apply where_da_index in E
           end.
    etransitivity; [eassumption|]. etransitivity; [eassumption|].
    etransitivity; [eassumption|]. unfold full_like. apply index_dmap.
Qed.

Lemma flags_aligned_with_input_witness :
  let data := [(sec 20, 3); (sec 0, 1); (sec 10, 2)]%float in
  (location_test [(sec 0, 45); (sec 1, 91)] [(sec 0, 90); (sec 1, 200)]
     = Ok [(sec 0, PASS); (sec 1, FAIL)] /\
   index [(sec 0, PASS); (sec 1, FAIL)] = index [(sec 0, 45); (sec 1, 91)]) /\
  data <> [] /\
  (exists flag, flat_line_test data 0 5 3 = Ok flag /\ index flag = index data) /\
  (exists flag, spike_test data 1 15 3 5 = Ok flag /\
                index flag = index (sortby_time data) /\
                StronglySorted Z.le (index flag)).
Proof.
  intros data.
  assert (H : location_test [(sec 0, 45); (sec 1, 91)] [(sec 0, 90); (sec 1, 200)]
              = Ok [(sec 0, PASS); (sec 1, FAIL)]) by (vm_compute; reflexivity).
  assert (Hne : data <> []) by discriminate.
  destruct flags_aligned_with_input as (_ & _ & Hflat & _ & _ & Hspike & Hloc).
  split; [split; [exact H | exact (Hloc _ _ _ H)]|].
  split; [exact Hne|].
  split; [exact (Hflat data 0 5%nat 3%nat Hne) | exact (Hspike data 1%nat 15%nat 3 5 Hne)].
Defined.

(** X8 (flags a test never assigns).  The gross range test never assigns
    HIGH_INTEREST; the location test never assigns SUSPECT or
    HIGH_INTEREST; the spike test never assigns SUSPECT; the flat line test
    assigns only PASS, SUSPECT and FAIL; the rate of change test assigns
    only PASS, HIGH_INTEREST and MISSING_DATA. *)
Theorem flags_never_assigned :
  (forall data sensor_min sensor_max operator_min operator_max,
      Forall (fun p => snd p <> HIGH_INTEREST)
             (gross_range_test data sensor_min sensor_max operator_min operator_max)) /\
  (forall latitude longitude flag,
      location_test latitude longitude = Ok flag ->
      Forall (fun p => snd p <> SUSPECT /\ snd p <> HIGH_INTEREST) flag) /\
  (forall data spike_half_window std_half_window low_multiplier high_multiplier flag,
      spike_test data spike_half_window std_half_window
                 low_multiplier high_multiplier = Ok flag ->
      Forall (fun p => snd p <> SUSPECT) flag) /\
  (forall data max_allowed_std fail_half_window_size suspect_half_window_size flag,
      flat_line_test data max_allowed_std
                     fail_half_window_size suspect_half_window_size = Ok flag ->
      Forall (fun p => snd p = PASS \/ snd p = SUSPECT \/ snd p = FAIL) flag) /\
  (forall data std_multiplier,
      Forall (fun p => snd p = PASS \/ snd p = HIGH_INTEREST \/ snd p = MISSING_DATA)
             (rate_of_change_test data std_multiplier)).
Proof.
  repeat apply conj.
  - intros data smin smax omin omax. apply Forall_forall. intros p Hp.
    unfold gross_range_test, dmap in Hp. apply in_map_iff in Hp as [[t v] [<- _]].
    simpl. unfold gross_range_flag, where_.
    destruct (negb (is_nan v)); [|discriminate].
    destruct omin as [om|], omax as [oM|];
      repeat match goal with
             | |- context [if ?c then _ else _] => destruct c
             end; discriminate.
  - intros latitude longitude flag H. unfold location_test in H.
    repeat match type of H with
           | bind ?m _ = Ok _ => let E := fresh "E" in
                                 destruct m eqn:E; cbn [bind] in H; [|discriminate]
           end.
    injection H as <-.
    assert (H0 : Forall (fun p : Z * FLAG.t => snd p <> SUSPECT /\ snd p <> HIGH_INTEREST)
                        (full_like latitude NOT_EVALUATED)).
    { apply Forall_forall. intros p Hp. unfold full_like, dmap in Hp.
      apply in_map_iff in Hp as [q [<- _]]. simpl. split; discriminate. }
    repeat match goal with
           | E : where_da _ _ _ = Ok _ |- _ =>
               apply (where_da_values (fun f => f <> SUSPECT /\ f <> HIGH_INTEREST)) in E;
               [|assumption|split; discriminate]
           end.
    assumption.
  - intros data h s lo hi flag Hok. apply Forall_forall. intros p Hp.
    unfold spike_test in Hok. cbv zeta in Hok.
    destruct (construct (sortby_time data)) as [d|]; [|discriminate].
    injection Hok as <-.
    unfold spike_flags in Hp. cbv zeta in Hp. apply in_map_iff in Hp as [q [<- _]].
    simpl. unfold spike_flag, where_.
    repeat match goal with
           | |- context [if ?c then _ else _] => destruct c
           end; discriminate.
  - intros data mas fh sh flag Hok. apply Forall_forall. intros p Hp.
    unfold flat_line_test in Hok. destruct (construct data) as [d|]; [|discriminate].
    injection Hok as <-.
    unfold flat_line_flags in Hp. cbv zeta in Hp. apply in_map_iff in Hp as [q [<- _]].
    simpl. unfold flat_line_flag.
    match goal with
    | |- context [if ?a <=? mas then SUSPECT else _] =>
        match goal with
        | |- context [if ?b <=? mas then FAIL else _] =>
            destruct (a <=? mas), (b <=? mas); simpl; auto
        end
    end.
  - intros data k. apply Forall_forall. intros p Hp.
    unfold rate_of_change_test in Hp. apply in_map_iff in Hp as [q [<- _]].
    simpl. rewrite rate_of_change_flag_cases.
    repeat match goal with
           | |- context [if ?c then _ else _] => destruct c
           end; auto.
Qed.

Lemma flags_never_assigned_witness :
  location_test [(sec 0, 45); (sec 1, 91)] [(sec 0, 90); (sec 1, 200)]
    = Ok [(sec 0, PASS); (sec 1, FAIL)] /\
  Forall (fun p => snd p <> SUSPECT /\ snd p <> HIGH_INTEREST)
         [(sec 0, PASS); (sec 1, FAIL)].
Proof.
  assert (H : location_test [(sec 0, 45); (sec 1, 91)] [(sec 0, 90); (sec 1, 200)]
              = Ok [(sec 0, PASS); (sec 1, FAIL)]) by (vm_compute; reflexivity).
  split; [exact H|].
  destruct flags_never_assigned as (_ & Hloc & _).
  exact (Hloc _ _ _ H).
Defined.

Lemma spike_flag_cases (lo hi v ref sd : float) :
  spike_flag lo hi v ref sd =
  if is_nan (lo * sd) && is_nan (hi * sd) then NOT_EVALUATED
  else if is_nan v || is_nan ref then MISSING_DATA
  else if hi * sd <? abs (v - ref) then FAIL
  else if abs (v - ref) <? lo * sd then PASS
  else HIGH_INTEREST.
Proof.
  unfold spike_flag, where_.
  destruct (is_nan (lo * sd)), (is_nan (hi * sd)), (is_nan v), (is_nan ref),
           (hi * sd <? abs (v - ref)), (abs (v - ref) <? lo * sd); reflexivity.
Qed.

(** X9 (spike classification).  At every sample of the time-sorted series,
    with [ref] the reference value and [sd] the rolling deviation there:
    the flag is NOT_EVALUATED when both thresholds are undefined;
    otherwise MISSING_DATA when the value or the reference is undefined;
    otherwise FAIL when [|value - ref|] exceeds [high_multiplier * sd],
    PASS when it is below [low_multiplier * sd], and HIGH_INTEREST in
    between, both thresholds included. *)
Theorem spike_test_classification :
  forall (data : DataArray float) (spike_half_window std_half_window : nat)
         (low_multiplier high_multiplier : float) (i : nat) (t : Z) (v : float),
    nth_error (sortby_time data) i = Some (t, v) ->
    exists ref sd flag,
      nth_error (spkref spike_half_window (values (sortby_time data))) i = Some ref /\
      nth_error (rolling_std std_half_window (values (sortby_time data))) i = Some sd /\
      spike_test data spike_half_window std_half_window
                 low_multiplier high_multiplier = Ok flag /\
      nth_error flag i =
      Some (t, if is_nan (low_multiplier * sd) && is_nan (high_multiplier * sd)
               then NOT_EVALUATED
               else if is_nan v || is_nan ref then MISSING_DATA
               else if high_multiplier * sd <? abs (v - ref) then FAIL
               else if abs (v - ref) <? low_multiplier * sd then PASS
               else HIGH_INTEREST).
Proof.
  intros data h s lo hi i t v Hi.
  destruct (spike_test_nth data h s lo hi i t v Hi) as (ref & sd & Href & Hsd & Hok & Hflag).
  exists ref, sd. eexists. split; [exact Href|]. split; [exact Hsd|].
  split; [exact Hok|]. now rewrite Hflag, spike_flag_cases.
Qed.

Lemma spike_test_classification_witness :
  let data := [(sec 0, 0); (sec 1, 0); (sec 2, 10); (sec 3, 0); (sec 4, 0)] in
  nth_error (sortby_time data) 2 = Some (sec 2, 10) /\
  exists ref sd flag,
    nth_error (spkref 1 (values (sortby_time data))) 2 = Some ref /\
    nth_error (rolling_std 2 (values (sortby_time data))) 2 = Some sd /\
    spike_test data 1 2 3 5 = Ok flag /\
    nth_error flag 2 =
    Some (sec 2, if is_nan (3 * sd) && is_nan (5 * sd) then NOT_EVALUATED
                 else if is_nan 10 || is_nan ref then MISSING_DATA
                 else if 5 * sd <? abs (10 - ref) then FAIL
                 else if abs (10 - ref) <? 3 * sd then PASS
                 else HIGH_INTEREST).
Proof.
  intros data.
  assert (H : nth_error (sortby_time data) 2 = Some (sec 2, 10)) by reflexivity.
  split; [exact H|].
  exact (spike_test_classification data 1 2 3 5 2 (sec 2) 10 H).
Defined.

End QaqcExtras.

(* ===================================================================== *)
(** * Profiles and stops: directions and buffered intervals *)
(* ===================================================================== *)

Section ProfileExtras.
Import Core Profilers.
Local Open Scope string_scope.

Lemma assign_profiles_shape (cable_length : DataArray float) (buffer : Z)
    (periods : list Period) (profiles : list Profile) :
  assign_profiles cable_length buffer periods = Ok profiles ->
  Forall2 (fun per prof =>
             profile_begin_datetime prof = begin_datetime per - sec buffer /\
             profile_end_datetime prof = end_datetime per + sec buffer /\
             (direction prof = "up" \/ direction prof = "down"))
          periods profiles.
Proof.
  revert profiles. induction periods as [|per periods IH]; intros profiles H; simpl in H.
  - injection H as <-. constructor.
  - destruct (assign_profile cable_length buffer per) as [prof|] eqn:Hp; simpl in H;
      [|discriminate].
    destruct (assign_profiles cable_length buffer periods) as [profs|]; simpl in H;
      [|discriminate].
    injection H as <-. constructor; [|now apply IH].
    unfold assign_profile in Hp.
    repeat match type of Hp with
           | bind ?m _ = Ok _ => destruct m; cbn [bind] in Hp; [|discriminate]
           end.
    injection Hp as <-. simpl. repeat split.
    match goal with |- context [if ?c then _ else _] => destruct c end; auto.
Qed.

Lemma buffered_separated {P : Type} (pb pe : P -> Z) (buffer gap : Z)
    (periods : list Period) (ps : list P) :
  2 * buffer <= gap ->
  Forall2 (fun per p => pb p = begin_datetime per - sec buffer /\
                        pe p = end_datetime per + sec buffer) periods ps ->
  StronglySorted (fun p q => end_datetime p + sec gap < begin_datetime q) periods ->
  StronglySorted (fun p q => pe p < pb q) ps.
Proof.
  intros Hb HF. induction HF as [|per p periods ps [Hpb Hpe] HF IH]; intros Hs;
    [constructor|].
  inversion Hs as [|? ? Hs' Hall]; subst. constructor; [now apply IH|].
  clear IH Hs Hs'. induction HF as [|per' q periods ps [Hqb Hqe] HF IH]; [constructor|].
  inversion Hall as [|? ? Hlt Hall']; subst. constructor; [|now apply IH].
  rewrite Hpe, Hqb. unfold sec in *. lia.
Qed.

Lemma buffered_ordered {P : Type} (pb pe : P -> Z) (buffer : Z)
    (periods : list Period) (ps : list P) :
  0 <= buffer ->
  Forall2 (fun per p => pb p = begin_datetime per - sec buffer /\
                        pe p = end_datetime per + sec buffer) periods ps ->
  Forall (fun p => begin_datetime p <= end_datetime p) periods ->
  Forall (fun p => pb p <= pe p) ps.
Proof.
  intros Hb HF. induction HF as [|per p periods ps [Hpb Hpe] HF IH]; intros Hle;
    constructor; inversion Hle; subst.
  - rewrite Hpb, Hpe. unfold sec. lia.
  - now apply IH.
Qed.

Lemma periods_of_ordered (times dts : list Z) :
  Forall (fun p => begin_datetime p <= end_datetime p) (periods_of times dts).
Proof.
  induction dts as [|dt rest IH]; [constructor|]. cbn [periods_of].
  match goal with |- context [filter ?g times] => destruct (filter g times) as [|t0 sel] end;
    [assumption|].
  constructor; [|assumption]. simpl.
  destruct (fold_min_spec sel t0) as [_ Hmin], (fold_max_spec sel t0) as [_ Hmax].
  inversion Hmin; inversion Hmax; subst. lia.
Qed.

Lemma split_periods_apart {A : Type} (da_time : DataArray A) (min_gap : Z)
    (periods : list Period) :
  split_periods da_time min_gap = Ok periods ->
  Forall (fun p => begin_datetime p <= end_datetime p) periods /\
  StronglySorted (fun p q => end_datetime p + sec min_gap < begin_datetime q) periods.
Proof.
  intros H.
  apply split_periods_shape in H as (tmin & tmax & dts & _ & _ & _ & _ & Hs & Hg & ->).
  split; [apply periods_of_ordered | now apply periods_of_separated].
Qed.

Lemma StronglySorted_filter {X : Type} (R : X -> X -> Prop) (f : X -> bool) (l : list X) :
  StronglySorted R l -> StronglySorted R (filter f l).
Proof.
  induction 1 as [|x l Hs IH Hall]; simpl; [constructor|].
  destruct (f x); [|assumption]. constructor; [assumption|].
  rewrite Forall_forall in *. intros y Hy. apply filter_In in Hy as [Hy _]. auto.
Qed.

Lemma Forall_filter {X : Type} (Q : X -> Prop) (f : X -> bool) (l : list X) :
  Forall Q l -> Forall Q (filter f l).
Proof.
  rewrite !Forall_forall. intros H y Hy. apply filter_In in Hy as [Hy _]. auto.
Qed.

Lemma identify_profiles_cases (cable_length : DataArray float) (profile_direction : string)
    (buffer : Z) (max_allowed_std : float) (min_gap : Z) (profiles : list Profile) :
  identify_profiles cable_length profile_direction buffer max_allowed_std min_gap
    = Ok (Some profiles) ->
  exists flag_cl periods all,
    Qaqc.flat_line_test cable_length max_allowed_std 5 3 = Ok flag_cl /\
    split_periods (filter (fun p => FLAG.eqb (snd p) FLAG.PASS) flag_cl) min_gap
      = Ok periods /\
    assign_profiles cable_length buffer periods = Ok all /\
    (profiles = all \/ exists f, profiles = filter f all).
Proof.
  unfold identify_profiles, assigned_profiles. cbv zeta.
  destruct (Qaqc.flat_line_test cable_length max_allowed_std 5 3) as [flag_cl|];
    cbn [bind]; [|discriminate].
  destruct (split_periods _ min_gap) as [periods|] eqn:Hsp; cbn [bind]; [|discriminate].
  destruct (assign_profiles cable_length buffer periods) as [all|] eqn:Ha; cbn [bind];
    [|discriminate].
  intros H. exists flag_cl, periods, all. split; [reflexivity|].
  split; [exact Hsp|]. split; [exact Ha|].
  destruct (profile_direction =? "all"); [injection H as <-; now left|].
  destruct (profile_direction =? "up"); [injection H as <-; right; eauto|].
  destruct (profile_direction =? "down"); [injection H as <-; right; eauto|].
  discriminate.
Qed.

(** X10 (profiles by direction).  Whenever the call with ['all'] returns
    the profiles, every profile is labelled ['up'] or ['down'], the call
    with ['up'] returns the profiles labelled ['up'] and the call with
    ['down'] those labelled ['down'], each group in the order of the
    ['all'] result: each profile of ['all'] is in exactly one of them. *)
Theorem identify_profiles_up_down_partition :
  forall (cable_length : DataArray float) (buffer : Z) (max_allowed_std : float)
         (min_gap : Z) (profiles : list Profile),
    identify_profiles cable_length "all" buffer max_allowed_std min_gap
      = Ok (Some profiles) ->
    exists ups downs,
      ups = filter (fun p => direction p =? "up") profiles /\
      downs = filter (fun p => direction p =? "down") profiles /\
      identify_profiles cable_length "up" buffer max_allowed_std min_gap = Ok (Some ups) /\
      identify_profiles cable_length "down" buffer max_allowed_std min_gap
        = Ok (Some downs) /\
      Forall (fun p => direction p = "up" \/ direction p = "down") profiles /\
      (forall p, In p ups <-> In p profiles /\ direction p = "up") /\
      (forall p, In p downs <-> In p profiles /\ direction p = "down") /\
      (forall p, In p profiles <-> In p ups \/ In p downs) /\
      (forall p, ~ (In p ups /\ In p downs)) /\
      (List.length ups + List.length downs = List.length profiles)%nat.
Proof.
  intros cl buffer mas gap profiles H.
  unfold identify_profiles, assigned_profiles in *. cbv zeta in *.
  destruct (Qaqc.flat_line_test cl mas 5 3) as [flag_cl|]; cbn [bind] in *; [|discriminate].
  destruct (split_periods _ gap) as [periods|]; cbn [bind] in *; [|discriminate].
  destruct (assign_profiles cl buffer periods) as [all|] eqn:Ha; cbn [bind] in *;
    [|discriminate].
  simpl in H. injection H as <-. simpl.
  exists (filter (fun p => direction p =? "up") all),
         (filter (fun p => direction p =? "down") all).
  split; [reflexivity|]. split; [reflexivity|].
  split; [reflexivity|]. split; [reflexivity|].
  assert (Hdir : Forall (fun p => direction p = "up" \/ direction p = "down") all).
  { apply assign_profiles_shape in Ha. clear -Ha.
    induction Ha as [|per p periods ps (_ & _ & Hd) _ IH]; constructor; assumption. }
  split; [assumption|]. rewrite Forall_forall in Hdir.
  split; [intros p; now rewrite filter_In, String.eqb_eq|].
  split; [intros p; now rewrite filter_In, String.eqb_eq|].
  split; [|split].
  - intros p. rewrite !filter_In. split.
    + intros Hin. destruct (Hdir p Hin) as [-> | ->]; [left | right]; now split.
    + intros [[Hin _] | [Hin _]]; assumption.
  - intros p [Hu Hd]. apply filter_In in Hu as [_ Hu], Hd as [_ Hd].
    apply String.eqb_eq in Hu, Hd. congruence.
  - clear Ha. induction all as [|p all IH]; [reflexivity|]. simpl.
    assert (IH' := IH (fun q Hq => Hdir q (or_intror Hq))).
    destruct (Hdir p (or_introl eq_refl)) as [-> | ->]; simpl; lia.
Qed.

Lemma identify_profiles_up_down_partition_witness :
  let profiles := [ {| profile_begin_datetime := sec 50;
                       profile_end_datetime := sec 490;
                       direction := "up" |};
                    {| profile_begin_datetime := sec 770;
                       profile_end_datetime := sec 910;
                       direction := "down" |} ] in
  identify_profiles cast "all" 10 default_max_allowed_std 180 = Ok (Some profiles) /\
  exists ups downs,
    ups = filter (fun p => direction p =? "up") profiles /\
    downs = filter (fun p => direction p =? "down") profiles /\
    identify_profiles cast "up" 10 default_max_allowed_std 180 = Ok (Some ups) /\
    identify_profiles cast "down" 10 default_max_allowed_std 180 = Ok (Some downs) /\
    Forall (fun p => direction p = "up" \/ direction p = "down") profiles /\
    (forall p, In p ups <-> In p profiles /\ direction p = "up") /\
    (forall p, In p downs <-> In p profiles /\ direction p = "down") /\
    (forall p, In p profiles <-> In p ups \/ In p downs) /\
    (forall p, ~ (In p ups /\ In p downs)) /\
    (List.length ups + List.length downs = List.length profiles)%nat.
Proof.
  intros profiles.
  split; [exact identify_profiles_cast|].
  exact (identify_profiles_up_down_partition cast 10 default_max_allowed_std 180 profiles
           identify_profiles_cast).
Defined.

(** X11 (buffered profiles stay apart).  Whenever [identify_profiles]
    returns a list, for any [profile_direction], and the buffer is not
    negative and at most half of [min_gap], every profile begins no later
    than it ends and ends before every later profile begins. *)
Theorem identify_profiles_disjoint :
  forall (cable_length : DataArray float) (profile_direction : string) (buffer : Z)
         (max_allowed_std : float) (min_gap : Z) (profiles : list Profile),
    identify_profiles cable_length profile_direction buffer max_allowed_std min_gap
      = Ok (Some profiles) ->
    0 <= buffer -> 2 * buffer <= min_gap ->
    Forall (fun p => profile_begin_datetime p <= profile_end_datetime p) profiles /\
    StronglySorted (fun p q => profile_end_datetime p < profile_begin_datetime q) profiles.
Proof.
  intros cl dir buffer mas gap profiles H Hb Hgap.
  apply identify_profiles_cases in H as (flag_cl & periods & all & _ & Hsp & Ha & Hres).
  apply assign_profiles_shape in Ha.
  assert (HF : Forall2 (fun per p =>
                          profile_begin_datetime p = begin_datetime per - sec buffer /\
                          profile_end_datetime p = end_datetime per + sec buffer)
                       periods all).
  { eapply Forall2_impl; [|exact Ha]. simpl. intros per p (H1 & H2 & _). now split. }
  destruct (split_periods_apart _ _ _ Hsp) as [Hle Hsep].
  assert (H1 := buffered_ordered _ _ buffer periods all Hb HF Hle).
  assert (H2 := buffered_separated _ _ buffer gap periods all Hgap HF Hsep).
  destruct Hres as [-> | [f ->]]; [now split|].
  split; [now apply Forall_filter | now apply StronglySorted_filter].
Qed.

Lemma identify_profiles_disjoint_witness :
  let profiles := [ {| profile_begin_datetime := sec 50;
                       profile_end_datetime := sec 490;
                       direction := "up" |};
                    {| profile_begin_datetime := sec 770;
                       profile_end_datetime := sec 910;
                       direction := "down" |} ] in
  identify_profiles cast "all" 10 default_max_allowed_std 180 = Ok (Some profiles) /\
  0 <= 10 /\ 2 * 10 <= 180 /\
  Forall (fun p => profile_begin_datetime p <= profile_end_datetime p) profiles /\
  StronglySorted (fun p q => profile_end_datetime p < profile_begin_datetime q) profiles.
Proof.
  intros profiles.
  assert (H1 : 0 <= 10) by (vm_compute; discriminate).
  assert (H2 : 2 * 10 <= 180) by (vm_compute; discriminate).
  split; [exact identify_profiles_cast|]. split; [exact H1|]. split; [exact H2|].
  exact (identify_profiles_disjoint cast "all" 10 default_max_allowed_std 180 profiles
           identify_profiles_cast H1 H2).
Defined.

Section StopExtras.
Import Stops.

Lemma assign_stops_shape (cable_length : DataArray float) (buffer : Z)
    (periods : list Period) (stops : list Stop) :
  assign_stops cable_length buffer periods = Returns stops ->
  Forall2 (fun per s =>
             stop_begin_datetime s = begin_datetime per - sec buffer /\
             stop_end_datetime s = end_datetime per + sec buffer)
          periods stops.
Proof.
  revert stops. induction periods as [|per periods IH]; intros stops H; simpl in H.
  - injection H as <-. constructor.
  - destruct (assign_stop cable_length buffer per) as [s| |] eqn:Hs; simpl in H;
      try discriminate.
    destruct (assign_stops cable_length buffer periods) as [ss| |]; simpl in H;
      try discriminate.
    injection H as <-. constructor; [|now apply IH].
    unfold assign_stop in Hs.
    destruct (sel_slice _ _ _) as [_cl|]; simpl in Hs; [|discriminate].
    destruct (int_ceil _) as [c| |]; simpl in Hs; try discriminate.
    injection Hs as <-. now split.
Qed.

(** X12 (buffered stops stay apart).  Whenever [identify_stops] returns
    and the buffer is not negative and at most 30 seconds (half of the 60
    second gap the function passes to [split_periods]), every stop begins
    no later than it ends and ends before every later stop begins. *)
Theorem identify_stops_disjoint :
  forall (cable_length : DataArray float) (buffer : Z) (max_allowed_std : float)
         (stops : list Stop),
    identify_stops cable_length buffer max_allowed_std = Returns stops ->
    0 <= buffer -> buffer <= 30 ->
    Forall (fun s => stop_begin_datetime s <= stop_end_datetime s) stops /\
    StronglySorted (fun s r => stop_end_datetime s < stop_begin_datetime r) stops.
Proof.
  intros cl buffer mas stops H Hb Hb30. unfold identify_stops in H. cbv zeta in H.
  destruct (Qaqc.flat_line_test cl mas 5 3) as [flag_cl|]; simpl in H; [|discriminate].
  destruct (split_periods _ 60) as [periods|] eqn:Hsp; simpl in H; [|discriminate].
  apply assign_stops_shape in H.
  destruct (split_periods_apart _ _ _ Hsp) as [Hle Hsep].
  split.
  - exact (buffered_ordered _ _ buffer periods stops Hb H Hle).
  - apply (buffered_separated _ _ buffer 60 periods stops); [lia | assumption | assumption].
Qed.

Example identify_stops_cast :
  identify_stops cast 10 0.01
  = Returns [ {| stop_begin_datetime := sec (-10);
                 stop_end_datetime := sec 10;
                 cable_length_out := 0 |};
              {| stop_begin_datetime := sec 530;
                 stop_end_datetime := sec 730;
                 cable_length_out := 3 |} ].
Proof. vm_compute. reflexivity. Qed.

Lemma identify_stops_disjoint_witness :
  let stops := [ {| stop_begin_datetime := sec (-10);
                    stop_end_datetime := sec 10;
                    cable_length_out := 0 |};
                 {| stop_begin_datetime := sec 530;
                    stop_end_datetime := sec 730;
                    cable_length_out := 3 |} ] in
  identify_stops cast 10 0.01 = Returns stops /\ 0 <= 10 /\ 10 <= 30 /\
  Forall (fun s => stop_begin_datetime s <= stop_end_datetime s) stops /\
  StronglySorted (fun s r => stop_end_datetime s < stop_begin_datetime r) stops.
Proof.
  intros stops.
  assert (H1 : 0 <= 10) by (vm_compute; discriminate).
  assert (H2 : 10 <= 30) by (vm_compute; discriminate).
  split; [exact identify_stops_cast|]. split; [exact H1|]. split; [exact H2|].
  exact (identify_stops_disjoint cast 10 0.01 stops identify_stops_cast H1 H2).
Defined.

End StopExtras.

End ProfileExtras.

(* ===================================================================== *)
(** * Order of floating-point numbers *)
(* ===================================================================== *)

Section FloatOrder.
Local Open Scope float_scope.

Lemma SFleb_trans (a b c : spec_float) :
  SFleb a b = true -> SFleb b c = true -> SFleb a c = true.
Proof.
  unfold SFleb, SFcompare.
  destruct a as [sa|sa| |sa ma ea], b as [sb|sb| |sb mb eb], c as [sc|sc| |sc mc ec];
    try destruct sa; try destruct sb; try destruct sc;
    try discriminate; try reflexivity;
    change (PosDef.Pos.compare_cont Eq) with Pos.compare;
    destruct (Z.compare_spec ea eb), (Z.compare_spec eb ec), (Z.compare_spec ea ec);
    try lia; try discriminate; try reflexivity;
    destruct (Pos.compare_spec ma mb), (Pos.compare_spec mb mc), (Pos.compare_spec ma mc);
    simpl; try lia; try discriminate; try reflexivity.
Qed.

Lemma leb_trans (x y z : float) :
  (x <=? y) = true -> (y <=? z) = true -> (x <=? z) = true.
Proof. rewrite !FloatAxioms.leb_spec. apply SFleb_trans. Qed.

Lemma is_nan_Prim2SF (x : float) : is_nan x = true -> Prim2SF x = S754_nan.
Proof.
  unfold is_nan. rewrite FloatAxioms.eqb_spec. unfold SFeqb, SFcompare.
  destruct (Prim2SF x) as [s|s| |s m e]; try reflexivity; try (destruct s; discriminate).
  change (PosDef.Pos.compare_cont Eq) with Pos.compare.
  rewrite Z.compare_refl, Pos.compare_refl. destruct s; discriminate.
Qed.

Lemma ltb_nan_l (x y : float) : is_nan x = true -> (x <? y) = false.
Proof. intros H. rewrite FloatAxioms.ltb_spec, (is_nan_Prim2SF x H). reflexivity. Qed.

Lemma ltb_nan_r (x y : float) : is_nan y = true -> (x <? y) = false.
Proof.
  intros H. rewrite FloatAxioms.ltb_spec, (is_nan_Prim2SF y H).
  unfold SFltb, SFcompare. now destruct (Prim2SF x).
Qed.

End FloatOrder.

(* ===================================================================== *)
(** * utils/ferries.py: ports, transit references, cut transits *)
(* ===================================================================== *)

Section FerryExtras.
Import Locations Ferries.
Local Open Scope float_scope.

Lemma fold_left_flag {X : Type} (c : X -> bool) (l : list X) (flag : Z) :
  fold_left (fun flag x => if c x then 1%Z else flag) l flag
  = if existsb c l then 1%Z else flag.
Proof.
  revert flag. induction l as [|x l IH]; intros flag; simpl; [reflexivity|].
  rewrite IH. destruct (c x); simpl; [now destruct (existsb c l) | reflexivity].
Qed.

Lemma near_nan (bbox_check latitude longitude : float) (terminal : Terminal) :
  is_nan latitude = true \/ is_nan longitude = true ->
  near bbox_check latitude longitude terminal = false.
Proof.
  unfold near. intros [H | H].
  - now rewrite (ltb_nan_r _ _ H).
  - rewrite (ltb_nan_r _ _ H). now rewrite andb_false_r.
Qed.

(** X13 (port flag).  [flag_port] flags a sample 1 exactly when it lies
    strictly within [bbox_check] degrees, in latitude and in longitude, of
    at least one of the terminals, and 0 otherwise, whatever the order of
    the terminals; a sample whose latitude or longitude is missing is
    flagged 0. *)
Theorem flag_port_near_some_terminal :
  forall (ds : DataArray (float * float)) (terminals : list Terminal) (bbox_check : float),
    flag_port ds terminals bbox_check
    = dmap (fun pos => if existsb (near bbox_check (fst pos) (snd pos)) terminals
                       then 1%Z else 0%Z) ds /\
    forall i t latitude longitude,
      nth_error ds i = Some (t, (latitude, longitude)) ->
      is_nan latitude = true \/ is_nan longitude = true ->
      nth_error (flag_port ds terminals bbox_check) i = Some (t, 0%Z).
Proof.
  intros ds terminals b.
  assert (H : flag_port ds terminals b
              = dmap (fun pos => if existsb (near b (fst pos) (snd pos)) terminals
                                 then 1%Z else 0%Z) ds).
  { unfold flag_port, dmap. apply map_ext. intros [t pos]. simpl.
    now rewrite (fold_left_flag (near b (fst pos) (snd pos))). }
  split; [assumption|].
  intros i t latitude longitude Hi Hnan. rewrite H. unfold dmap.
  rewrite (map_nth_error _ _ _ Hi). simpl. f_equal. f_equal.
  assert (Hex : existsb (near b latitude longitude) terminals = false).
  { clear H. induction terminals as [|x l IH]; simpl; [reflexivity|].
    now rewrite near_nan, IH. }
  now rewrite Hex.
Qed.

Lemma flag_port_near_some_terminal_witness :
  let ds := [(sec 0, (49.006621, -123.132309)); (sec 1, (nan, -123.132309))] in
  flag_port ds default_terminals 0.01
  = dmap (fun pos => if existsb (near 0.01 (fst pos) (snd pos)) default_terminals
                     then 1%Z else 0%Z) ds /\
  nth_error ds 1 = Some (sec 1, (nan, -123.132309)) /\
  nth_error (flag_port ds default_terminals 0.01) 1 = Some (sec 1, 0%Z).
Proof.
  intros ds.
  destruct (flag_port_near_some_terminal ds default_terminals 0.01) as [H1 H2].
  split; [exact H1|]. split; [reflexivity|].
  exact (H2 1%nat (sec 1) nan (-123.132309) eq_refl (or_introl eq_refl)).
Defined.

Lemma inside_sub (b1 b2 : BoundingBox) (latitude longitude : float) :
  (lat_min b2 <=? lat_min b1) = true -> (lat_max b1 <=? lat_max b2) = true ->
  (lon_min b2 <=? lon_min b1) = true -> (lon_max b1 <=? lon_max b2) = true ->
  inside b1 latitude longitude = true -> inside b2 latitude longitude = true.
Proof.
  intros H1 H2 H3 H4. unfold inside. rewrite !andb_true_iff.
  intros [[[Ha Hb] Hc] Hd]. repeat split; eapply leb_trans; eassumption.
Qed.

Lemma first_box_names (latitude longitude : float) :
  In (first_box bboxes latitude longitude) reference_names.
Proof.
  unfold first_box, bboxes. cbn [find].
  destruct (inside TsawwassenBox latitude longitude); [simpl; tauto|].
  destruct (inside DepartureBayBox latitude longitude); [simpl; tauto|].
  destruct (inside DukePointBox latitude longitude); [simpl; tauto|].
  destruct (inside NanaimoAreaBox latitude longitude) eqn:Harea; [simpl; tauto|].
  destruct (inside SwartzBayBox latitude longitude); [simpl; tauto|].
  destruct (inside GabriolaBox latitude longitude) eqn:Hg.
  { apply (inside_sub GabriolaBox NanaimoAreaBox) in Hg;
      [congruence | vm_compute; reflexivity ..]. }
  destruct (inside NanaimoHarborBox latitude longitude) eqn:Hh.
  { apply (inside_sub NanaimoHarborBox NanaimoAreaBox) in Hh;
      [congruence | vm_compute; reflexivity ..]. }
  destruct (inside PortMcneilBox latitude longitude); [simpl; tauto|].
  destruct (inside AlertBayBox latitude longitude); [simpl; tauto|].
  destruct (inside SointulaBox latitude longitude); [simpl; tauto|].
  destruct (inside HorseshoeBayBox latitude longitude); simpl; tauto.
Qed.

(** X14 (transit reference).  [determine_transit_reference] raises
    [IndexError] on an empty transit and on no other.  The departure and
    the arrival it returns are 'Unknown' or the name of one of nine boxes:
    never 'Gabriola' or 'NanaimoHarbor', whose boxes lie inside the
    'GreaterNanaimoArea' box that is tried before them. *)
Theorem determine_transit_reference_names :
  forall transit : DataArray (float * float),
    match determine_transit_reference transit with
    | Ok (departure, arrival) =>
        transit <> [] /\
        In departure reference_names /\ In arrival reference_names /\
        departure <> "Gabriola"%string /\ departure <> "NanaimoHarbor"%string /\
        arrival <> "Gabriola"%string /\ arrival <> "NanaimoHarbor"%string
    | Raise e => transit = [] /\ e = IndexError
    end.
Proof.
  intros transit. unfold determine_transit_reference.
  destruct (sortby_time transit) as [|first rest] eqn:Hs.
  - split; [|reflexivity].
    apply (f_equal (@List.length _)) in Hs. rewrite sortby_time_length in Hs.
    now destruct transit.
  - cbv zeta. split; [intros ->; discriminate|].
    assert (Hnot : forall s, In s reference_names ->
                             s <> "Gabriola"%string /\ s <> "NanaimoHarbor"%string).
    { intros s Hin. simpl in Hin.
      repeat (destruct Hin as [<- | Hin]; [split; discriminate|]). contradiction. }
    pose proof (first_box_names (fst (snd first)) (snd (snd first))) as Hd.
    pose proof (first_box_names (fst (snd (last (first :: rest) first)))
                                (snd (snd (last (first :: rest) first)))) as Ha.
    destruct (Hnot _ Hd), (Hnot _ Ha). repeat split; assumption.
Qed.

Local Close Scope float_scope.

Lemma filter_all {X : Type} (f : X -> bool) (l : list X) :
  (forall x, In x l -> f x = true) -> filter f l = l.
Proof.
  induction l as [|x l IH]; simpl; intros H; [reflexivity|].
  rewrite (H x) by now left. f_equal. apply IH. intros y Hy. apply H. now right.
Qed.

(** X15 (cut transit).  On a transect with samples in time order,
    [cut_transit] returns exactly the samples from [cut_begin] seconds
    after the first timestamp to [cut_end] seconds before the last, both
    bounds included; with both cuts 0 it returns the transect unchanged. *)
Theorem cut_transit_sorted :
  forall (A : Type) (transect : DataArray A) (cut_begin cut_end : Z),
    is_monotonic_increasing (index transect) = true -> transect <> [] ->
    exists tmin tmax r,
      list_min (index transect) = Ok tmin /\ list_max (index transect) = Ok tmax /\
      cut_transit transect cut_begin cut_end = Ok r /\
      (forall p, In p r <->
                 In p transect /\ tmin + sec cut_begin <= fst p <= tmax - sec cut_end) /\
      (cut_begin = 0 -> cut_end = 0 -> r = transect).
Proof.
  intros A transect cb ce Hmono Hne. unfold cut_transit.
  destruct (list_min (index transect)) as [tmin|] eqn:Hmin;
    [|destruct transect; [contradiction | discriminate]].
  destruct (list_max (index transect)) as [tmax|] eqn:Hmax;
    [|destruct transect; [contradiction | discriminate]].
  cbn [bind]. cbv zeta. rewrite sel_slice_sorted by assumption.
  exists tmin, tmax. eexists. split; [reflexivity|]. split; [reflexivity|].
  split; [reflexivity|]. split.
  - intros p. rewrite filter_In, andb_true_iff, !Z.leb_le. tauto.
  - intros -> ->. apply filter_all. intros p Hp.
    apply list_min_spec in Hmin as [_ Hle]. apply list_max_spec in Hmax as [_ Hge].
    rewrite Forall_forall in Hle, Hge.
    assert (Hin : In (fst p) (index transect)) by (unfold index; now apply in_map).
    specialize (Hle _ Hin). specialize (Hge _ Hin).
    apply andb_true_iff. unfold sec. split; apply Z.leb_le; lia.
Qed.

Lemma cut_transit_sorted_witness :
  let transect := [(sec 0, tt); (sec 100, tt); (sec 200, tt); (sec 300, tt)] in
  is_monotonic_increasing (index transect) = true /\ transect <> [] /\
  exists tmin tmax r,
    list_min (index transect) = Ok tmin /\ list_max (index transect) = Ok tmax /\
    cut_transit transect 180 0 = Ok r /\
    (forall p, In p r <-> In p transect /\ tmin + sec 180 <= fst p <= tmax - sec 0) /\
    (180 = 0 -> 0 = 0 -> r = transect).
Proof.
  intros transect.
  assert (H1 : is_monotonic_increasing (index transect) = true) by reflexivity.
  assert (H2 : transect <> []) by discriminate.
  split; [exact H1|]. split; [exact H2|].
  exact (cut_transit_sorted unit transect 180 0 H1 H2).
Defined.

End FerryExtras.

(* ===================================================================== *)
(** * Dictionaries and datasets *)
(* ===================================================================== *)

Section DictFacts.
Context {V : Type}.
Implicit Types (d : dict V) (k : string).

Lemma dict_get_In d k v : dict_get d k = Some v -> In (k, v) d.
Proof.
  unfold dict_get. destruct (find _ d) as [p|] eqn:Hf; [|discriminate].
  intros [= <-]. apply find_some in Hf as [Hin Heq].
  apply String.eqb_eq in Heq. subst k. now destruct p.
Qed.

Lemma In_dict_get d k v : NoDup (keys d) -> In (k, v) d -> dict_get d k = Some v.
Proof.
  unfold dict_get, keys. induction d as [|[k0 v0] d IH]; simpl; intros Hnd Hin; [contradiction|].
  inversion Hnd as [|? ? Hnot Hnd']; subst.
  destruct Hin as [[= -> ->] | Hin].
  - now rewrite String.eqb_refl.
  - destruct (String.eqb k0 k) eqn:E.
    + apply String.eqb_eq in E. subst k0. exfalso. apply Hnot.
      change k with (fst (k, v)). now apply in_map.
    + now apply IH.
Qed.

Lemma has_key_In d k : has_key d k = true <-> In k (keys d).
Proof.
  unfold has_key, keys. rewrite existsb_exists, in_map_iff. split.
  - intros (p & Hin & E). apply String.eqb_eq in E. now exists p.
  - intros (p & E & Hin). exists p. split; [assumption|]. now apply String.eqb_eq.
Qed.

Lemma has_key_dict_get d k : has_key d k = true <-> exists v, dict_get d k = Some v.
Proof.
  unfold has_key, dict_get. split.
  - intros H. destruct (find _ d) as [p|] eqn:Hf; [now exists (snd p)|].
    apply existsb_exists in H as (p & Hin & E).
    now rewrite (find_none _ _ Hf p Hin) in E.
  - intros [v H]. destruct (find _ d) as [p|] eqn:Hf; [|discriminate].
    apply find_some in Hf. apply existsb_exists. now exists p.
Qed.

Lemma dict_get_map_values {W : Type} (g : string -> V -> W) d k :
  dict_get (map (fun p => (fst p, g (fst p) (snd p))) d) k
  = option_map (g k) (dict_get d k).
Proof.
  unfold dict_get. induction d as [|[k0 v0] d IH]; simpl; [reflexivity|].
  destruct (String.eqb k0 k) eqn:E; [|exact IH].
  apply String.eqb_eq in E. now subst.
Qed.

Lemma keys_map_values {W : Type} (g : string -> V -> W) d :
  keys (map (fun p => (fst p, g (fst p) (snd p))) d) = keys d.
Proof. unfold keys. rewrite map_map. reflexivity. Qed.

Lemma dict_set_present d k v :
  has_key d k = true ->
  dict_set d k v = map (fun p => if String.eqb (fst p) k then (k, v) else p) d.
Proof. unfold dict_set. now intros ->. Qed.

End DictFacts.

Section DatasetExtras.
Import Datasets.
Local Open Scope string_scope.
Local Open Scope list_scope.

Variable flags_to_nan : list Z.
Arguments Str.replace : simpl never.

Lemma mask_not_target (ds : Dataset) (l : list string) (v : string) (a : list float) :
  (forall fv, In fv l -> Str.replace "flag_" "" fv <> v) -> mask flags_to_nan ds l v a = a.
Proof.
  unfold mask. revert a. induction l as [|fv l IH]; intros a H; simpl; [reflexivity|].
  unfold mask_step at 2.
  destruct (String.eqb_spec (Str.replace "flag_" "" fv) v) as [E|_].
  - exfalso. apply (H fv); [now left | exact E].
  - apply IH. intros fv' Hin. apply H. now right.
Qed.

Lemma nan_onc_flags_loop_mask (ds : Dataset) (l done : list string) :
  NoDup (data_vars ds) ->
  (forall fv, In fv (done ++ l) ->
              In fv (data_vars ds) /\ Str.startswith "flag_" fv = true) ->
  (forall fv, In fv (data_vars ds) -> Str.startswith "flag_" fv = true ->
              Str.startswith "flag_" (Str.replace "flag_" "" fv) = false) ->
  nan_onc_flags_loop flags_to_nan l
    (map (fun p => (fst p, mask flags_to_nan ds done (fst p) (snd p))) ds)
  = Ok (map (fun p => (fst p, mask flags_to_nan ds (done ++ l) (fst p) (snd p))) ds).
Proof.
  intros Hnd Hl Hclean. revert done Hl.
  induction l as [|fv l IH]; intros done Hl; simpl.
  - now rewrite app_nil_r.
  - assert (Hfv : In fv (data_vars ds) /\ Str.startswith "flag_" fv = true).
    { apply Hl. apply in_or_app. right. now left. }
    destruct Hfv as [Hkey Hflag].
    assert (Hnext : nan_onc_flag flags_to_nan
                      (map (fun p => (fst p, mask flags_to_nan ds done (fst p) (snd p))) ds) fv
                    = Ok (map (fun p => (fst p, mask flags_to_nan ds (done ++ [fv]) (fst p) (snd p))) ds)).
    { unfold nan_onc_flag. cbv zeta.
      set (dv := Str.replace "flag_" "" fv).
      set (cur := map (fun p => (fst p, mask flags_to_nan ds done (fst p) (snd p))) ds).
      assert (Hkeys : keys cur = keys ds) by apply keys_map_values.
      assert (Hstep : forall p, In p ds -> fst p <> dv ->
                mask flags_to_nan ds (done ++ [fv]) (fst p) (snd p) = mask flags_to_nan ds done (fst p) (snd p)).
      { intros p _ Hne. unfold mask. rewrite fold_left_app. cbn [fold_left].
        unfold mask_step at 1. fold dv.
        destruct (String.eqb_spec dv (fst p)) as [E|_]; [now elim Hne | reflexivity]. }
      destruct (has_key cur dv) eqn:Hhas.
      - assert (Hin : In dv (keys ds)) by (rewrite <- Hkeys; now apply has_key_In).
        apply has_key_In, has_key_dict_get in Hin as [data Hdata].
        apply has_key_In, has_key_dict_get in Hkey as [flag Hflagv].
        unfold getitem, cur. rewrite !dict_get_map_values, Hdata, Hflagv. simpl.
        assert (Hsame : mask flags_to_nan ds done fv flag = flag).
        { apply mask_not_target. intros fv' Hin' E.
          destruct (Hl fv') as [Hk' Hf']; [apply in_or_app; now left|].
          specialize (Hclean fv' Hk' Hf'). rewrite E in Hclean. congruence. }
        rewrite Hsame. f_equal. fold cur. rewrite dict_set_present by assumption.
        unfold cur. rewrite map_map. apply map_ext_in. intros p Hp. simpl.
        destruct (String.eqb_spec (fst p) dv) as [E|Hne].
        + assert (Hsnd : snd p = data).
          { assert (Hg : dict_get ds (fst p) = Some (snd p))
              by (apply In_dict_get; [assumption | now destruct p]).
            rewrite E, Hdata in Hg. now injection Hg. }
          rewrite E, Hsnd. f_equal. unfold mask. rewrite fold_left_app. cbn [fold_left].
          unfold mask_step. fold dv. now rewrite String.eqb_refl, Hflagv.
        + destruct p as [k a]. simpl in *. f_equal. symmetry.
          now apply (Hstep (k, a)).
      - f_equal. unfold cur. apply map_ext_in. intros p Hp. f_equal. symmetry.
        apply Hstep; [assumption|]. intros E.
        assert (Hin : In dv (keys cur)).
        { rewrite Hkeys, <- E. unfold keys. now apply in_map. }
        apply has_key_In in Hin. congruence. }
    rewrite Hnext. cbn [bind].
    rewrite (IH (done ++ [fv])).
    + now rewrite <- app_assoc.
    + intros fv' Hin. apply Hl. now rewrite <- app_assoc in Hin.
Qed.

Lemma length_where_not_flagged (data flag : list float) :
  List.length flag = List.length data ->
  List.length (where_not_flagged data flag flags_to_nan) = List.length data.
Proof.
  intros H. unfold where_not_flagged. rewrite length_map, length_combine. lia.
Qed.

Lemma nth_error_where_not_flagged (data flag : list float) (i : nat) (x : float) :
  List.length flag = List.length data ->
  nth_error data i = Some x ->
  nth_error (where_not_flagged data flag flags_to_nan) i
  = Some (if isin (nth i flag nan) flags_to_nan then nan else x).
Proof.
  intros Hlen Hx. unfold where_not_flagged.
  assert (Hi : (i < List.length flag)%nat)
    by (rewrite Hlen; apply nth_error_Some; congruence).
  assert (Hc : nth_error (combine data flag) i = Some (x, nth i flag nan)).
  { revert i flag Hlen Hx Hi. induction data as [|d data IH]; intros [|i] [|f flag];
      simpl; intros Hlen Hx Hi; try discriminate; try lia.
    - now injection Hx as ->.
    - apply IH; [lia | assumption | lia]. }
  rewrite (map_nth_error _ _ _ Hc). simpl.
  now destruct (isin (nth i flag nan) flags_to_nan).
Qed.

Lemma mask_nth (ds : Dataset) (n : nat) (l : list string) (v : string) :
  (forall fv, In fv l -> exists flag, dict_get ds fv = Some flag /\ List.length flag = n) ->
  forall (a : list float) (i : nat) (x : float),
    List.length a = n -> nth_error a i = Some x ->
    List.length (mask flags_to_nan ds l v a) = n /\
    nth_error (mask flags_to_nan ds l v a) i
    = Some (if existsb (fun fv => String.eqb (Str.replace "flag_" "" fv) v
                                  && match dict_get ds fv with
                                     | Some flag => isin (nth i flag nan) flags_to_nan
                                     | None => false
                                     end) l
            then nan else x).
Proof.
  unfold mask. induction l as [|fv l IH]; intros Hl a i x Hlen Hx; simpl.
  - now split.
  - destruct (Hl fv (or_introl eq_refl)) as (flag & Hflag & Hflen).
    assert (Hl' : forall fv', In fv' l ->
              exists flag, dict_get ds fv' = Some flag /\ List.length flag = n)
      by (intros fv' Hin; apply Hl; now right).
    unfold mask_step at 2 4. rewrite Hflag.
    destruct (String.eqb (Str.replace "flag_" "" fv) v); simpl.
    + assert (Hlen' : List.length (where_not_flagged a flag flags_to_nan) = n)
        by (rewrite length_where_not_flagged; congruence).
      assert (Hx' := nth_error_where_not_flagged a flag i x ltac:(congruence) Hx).
      destruct (IH Hl' _ i _ Hlen' Hx') as [H1 H2]. split; [exact H1|].
      rewrite H2. f_equal.
      destruct (isin (nth i flag nan) flags_to_nan); simpl; [|reflexivity].
      now destruct (existsb _ l).
    + now apply IH.
Qed.

(** X16 (masking by flags).  In a dataset whose variables have one length
    and where no flag variable stands for another flag variable (the name
    a flag variable gives once every 'flag_' is removed from it does not
    begin with 'flag_'), [nan_onc_flags] raises nothing and keeps the
    variables, their names, order and lengths; sample [i] of a variable
    [v] becomes NaN when a flag variable that stands for [v] holds one of
    [flags_to_nan] at [i], and keeps its value otherwise.  The flag
    variables themselves are unchanged. *)
Theorem nan_onc_flags_masks :
  forall (ds : Dataset) (n : nat),
    NoDup (data_vars ds) ->
    (forall v a, In (v, a) ds -> List.length a = n) ->
    (forall fv, In fv (data_vars ds) -> Str.startswith "flag_" fv = true ->
                Str.startswith "flag_" (Str.replace "flag_" "" fv) = false) ->
    exists ds',
      nan_onc_flags ds flags_to_nan = Ok ds' /\
      data_vars ds' = data_vars ds /\
      forall v a,
        dict_get ds v = Some a ->
        exists a',
          dict_get ds' v = Some a' /\ List.length a' = n /\
          (Str.startswith "flag_" v = true -> a' = a) /\
          forall i x, nth_error a i = Some x ->
                      nth_error a' i
                      = Some (if flagged ds flags_to_nan v i then nan else x).
Proof.
  intros ds n Hnd Hlen Hclean.
  set (l := filter (Str.startswith "flag_") (data_vars ds)).
  assert (Hl : forall fv, In fv ([] ++ l) ->
                          In fv (data_vars ds) /\ Str.startswith "flag_" fv = true).
  { intros fv Hin. simpl in Hin. apply filter_In in Hin. exact Hin. }
  assert (Hid : map (fun p : string * list float => (fst p, mask flags_to_nan ds [] (fst p) (snd p))) ds = ds).
  { rewrite <- (map_id ds) at 2. apply map_ext. now intros [k a]. }
  pose proof (nan_onc_flags_loop_mask ds l [] Hnd Hl Hclean) as Hloop.
  rewrite Hid in Hloop. simpl in Hloop.
  exists (map (fun p => (fst p, mask flags_to_nan ds l (fst p) (snd p))) ds).
  split; [|split].
  - unfold nan_onc_flags. cbv zeta. fold l.
    destruct (List.length l =? 0)%nat eqn:E; [|exact Hloop].
    apply Nat.eqb_eq in E. destruct l; [|discriminate].
    f_equal. symmetry. exact Hid.
  - apply keys_map_values.
  - intros v a Hv. exists (mask flags_to_nan ds l v a).
    rewrite dict_get_map_values, Hv. split; [reflexivity|].
    assert (Hfl : forall fv, In fv l ->
              exists flag, dict_get ds fv = Some flag /\ List.length flag = n).
    { intros fv Hin. destruct (Hl fv Hin) as [Hk _].
      apply has_key_In, has_key_dict_get in Hk as [flag Hflag].
      exists flag. split; [assumption|]. apply (Hlen fv). now apply dict_get_In. }
    assert (Ha : List.length a = n) by (apply (Hlen v); now apply dict_get_In).
    assert (Hex : forall i,
              existsb (fun fv => String.eqb (Str.replace "flag_" "" fv) v
                                 && match dict_get ds fv with
                                    | Some flag => isin (nth i flag nan) flags_to_nan
                                    | None => false
                                    end) l
              = flagged ds flags_to_nan v i).
    { intros i. unfold flagged. apply eq_true_iff_eq.
      rewrite !existsb_exists. split.
      - intros (fv & Hin & H). apply andb_true_iff in H as [H1 H2].
        destruct (Hl fv Hin) as [Hk Hf].
        destruct (dict_get ds fv) as [flag|] eqn:Hflag; [|discriminate].
        exists (fv, flag). split; [now apply dict_get_In|]. simpl.
        now rewrite Hf, H1, H2.
      - intros ([fv flag] & Hin & H). simpl in H.
        apply andb_true_iff in H as [H H3]. apply andb_true_iff in H as [H1 H2].
        exists fv. split.
        + apply filter_In. split; [|assumption].
          change fv with (fst (fv, flag)). unfold data_vars, keys. now apply in_map.
        + rewrite (In_dict_get ds fv flag Hnd Hin). now rewrite H2, H3. }
    split; [|split].
    + destruct a as [|x a'].
      * simpl in Ha. subst n. clear Hex.
        assert (Hm : forall l0 a0, (forall fv, In fv l0 -> In fv l) ->
                       List.length a0 = 0%nat -> List.length (mask flags_to_nan ds l0 v a0) = 0%nat).
        { induction l0 as [|fv l0 IH0]; intros a0 Hsub Ha0; [assumption|].
          unfold mask. simpl. apply IH0; [intros; apply Hsub; now right|].
          unfold mask_step. destruct (String.eqb _ v); [|assumption].
          destruct (dict_get ds fv); [|assumption].
          unfold where_not_flagged. rewrite length_map, length_combine. lia. }
        apply Hm; [auto | reflexivity].
      * now destruct (mask_nth ds n l v Hfl (x :: a') 0 x Ha eq_refl).
    + intros Hflag. apply mask_not_target. intros fv Hin E.
      destruct (Hl fv Hin) as [Hk Hf]. specialize (Hclean fv Hk Hf).
      rewrite E in Hclean. congruence.
    + intros i x Hx. destruct (mask_nth ds n l v Hfl a i x Ha Hx) as [_ H].
      now rewrite H, Hex.
Qed.

End DatasetExtras.

Lemma nan_onc_flags_masks_witness :
  let ds : Datasets.Dataset :=
    [ ("temperature", [10.5; 11; 12]); ("flag_temperature", [1; 4; 3]);
      ("depth", [1; 2; 3]) ]%string%float in
  NoDup (Datasets.data_vars ds) /\
  (forall v a, In (v, a) ds -> List.length a = 3%nat) /\
  (forall fv, In fv (Datasets.data_vars ds) -> Str.startswith "flag_" fv = true ->
              Str.startswith "flag_" (Str.replace "flag_" "" fv) = false) /\
  exists ds',
    Datasets.nan_onc_flags ds [4] = Ok ds' /\
    Datasets.data_vars ds' = Datasets.data_vars ds /\
    forall v a,
      dict_get ds v = Some a ->
      exists a',
        dict_get ds' v = Some a' /\ List.length a' = 3%nat /\
        (Str.startswith "flag_" v = true -> a' = a) /\
        forall i x, nth_error a i = Some x ->
                    nth_error a' i
                    = Some (if Datasets.flagged ds [4] v i then nan else x).
Proof.
  intros ds.
  assert (H1 : NoDup (Datasets.data_vars ds)).
  { repeat constructor; simpl; intuition discriminate. }
  assert (H2 : forall v a, In (v, a) ds -> List.length a = 3%nat).
  { intros v a Hin. simpl in Hin.
    repeat (destruct Hin as [[= <- <-] | Hin]; [reflexivity|]). contradiction. }
  assert (H3 : forall fv, In fv (Datasets.data_vars ds) ->
                 Str.startswith "flag_" fv = true ->
                 Str.startswith "flag_" (Str.replace "flag_" "" fv) = false).
  { intros fv Hin. simpl in Hin.
    repeat (destruct Hin as [<- | Hin]; [vm_compute; intros; congruence|]). contradiction. }
  split; [exact H1|]. split; [exact H2|]. split; [exact H3|].
  exact (nan_onc_flags_masks [4] ds 3%nat H1 H2 H3).
Defined.

Section FlagNames.
Local Open Scope string_scope.

Lemma prefix_length (p s : string) :
  String.prefix p s = true -> (String.length p <= String.length s)%nat.
Proof.
  revert s. induction p as [|c p IH]; intros [|d s]; simpl; intros H; try lia; try discriminate.
  destruct (Ascii.ascii_dec c d); [|discriminate]. specialize (IH s H). lia.
Qed.

Lemma replace_from_absent (old new s : string) :
  Str.contains old s = false -> Str.replace_from old new 0 s = s.
Proof.
  induction s as [|c s IH]; intros H; [reflexivity|].
  cbn [Str.contains] in H. cbn [Str.replace_from].
  apply orb_false_iff in H as [Hp Hc].
  rewrite Hp. f_equal. now apply IH.
Qed.

Lemma length_replace_from (old : string) (s : string) (k : nat) :
  (String.length (Str.replace_from old "" k s) <= String.length s - k)%nat.
Proof.
  revert k. induction s as [|c s IH]; intros k; [simpl; lia|].
  cbn [Str.replace_from]. destruct k as [|k].
  - destruct (String.prefix old (String c s)) eqn:Hp.
    + specialize (IH (String.length old - 1)%nat). simpl. lia.
    + specialize (IH 0%nat). simpl. lia.
  - specialize (IH k). simpl. lia.
Qed.

Lemma length_replace_present (old s : string) :
  old <> "" -> Str.contains old s = true ->
  (String.length (Str.replace_from old "" 0 s) < String.length s)%nat.
Proof.
  intros Hne. induction s as [|c s IH]; intros H.
  - simpl in H. rewrite orb_false_r in H. destruct old; [now elim Hne | discriminate].
  - cbn [Str.contains] in H. cbn [Str.replace_from].
    destruct (String.prefix old (String c s)) eqn:Hp.
    + pose proof (length_replace_from old s (String.length old - 1)) as Hl.
      simpl. lia.
    + simpl in H. specialize (IH H). simpl. lia.
Qed.

Lemma eqb_length_neq (a b : string) :
  String.length a <> String.length b -> String.eqb a b = false.
Proof.
  intros H. apply String.eqb_neq. intros ->. now apply H.
Qed.

Lemma length_flag_name (v : string) :
  String.length ("flag_" ++ v) = (5 + String.length v)%nat.
Proof. reflexivity. Qed.

Lemma replace_flag_name (v : string) :
  Str.replace "flag_" "" ("flag_" ++ v) = Str.replace_from "flag_" "" 0 v.
Proof. unfold Str.replace. destruct v; reflexivity. Qed.

Lemma startswith_contains (p s : string) :
  Str.startswith p s = true -> Str.contains p s = true.
Proof.
  unfold Str.startswith. intros H. destruct s; cbn [Str.contains]; now rewrite H.
Qed.

(** X17 (flag names).  The variable [nan_onc_flags] looks up for the flag
    variable named 'flag_' followed by [var_name] is [var_name] itself
    exactly when 'flag_' does not occur inside [var_name]: every
    occurrence is removed from the name, not only the leading one.  So on
    a dataset of [var_name] and its flag variable, [nan_onc_flags] masks
    [var_name] when 'flag_' does not occur inside it, and otherwise
    returns the dataset as it was. *)
Theorem flag_name_round_trip :
  forall var_name : string,
    (Str.replace "flag_" "" ("flag_" ++ var_name) = var_name
     <-> Str.contains "flag_" var_name = false) /\
    (forall (data flag : list float) (flags_to_nan : list Z),
        Datasets.nan_onc_flags
          [(var_name, data); ("flag_" ++ var_name, flag)] flags_to_nan
        = Ok (if Str.contains "flag_" var_name
              then [(var_name, data); ("flag_" ++ var_name, flag)]
              else [(var_name, Datasets.where_not_flagged data flag flags_to_nan);
                    ("flag_" ++ var_name, flag)])).
Proof.
  intros v.
  pose proof (replace_flag_name v) as E.
  assert (Hiff : Str.replace "flag_" "" ("flag_" ++ v) = v
                 <-> Str.contains "flag_" v = false).
  { rewrite E. split.
    - intros H. destruct (Str.contains "flag_" v) eqn:Hc; [|reflexivity].
      apply (length_replace_present "flag_" v) in Hc; [|discriminate].
      rewrite H in Hc. lia.
    - apply replace_from_absent. }
  split; [exact Hiff|].
  intros data flag ftn.
  assert (Hvf : String.eqb v ("flag_" ++ v) = false).
  { apply eqb_length_neq. rewrite length_flag_name. lia. }
  assert (Hfv : String.eqb ("flag_" ++ v) v = false).
  { apply eqb_length_neq. rewrite length_flag_name. lia. }
  assert (Hbody_absent : forall fv,
             (String.length (Str.replace "flag_" "" fv) < String.length v)%nat ->
             Datasets.nan_onc_flag ftn [(v, data); ("flag_" ++ v, flag)] fv
             = Ok [(v, data); ("flag_" ++ v, flag)]).
  { intros fv Hlen. unfold Datasets.nan_onc_flag. cbv zeta.
    unfold has_key. cbn [existsb fst].
    rewrite (eqb_length_neq v), (eqb_length_neq ("flag_" ++ v));
      [reflexivity | rewrite length_flag_name; lia | lia]. }
  unfold Datasets.nan_onc_flags, Datasets.data_vars, keys. cbv zeta.
  cbn [map fst filter].
  assert (Hsw : Str.startswith "flag_" ("flag_" ++ v) = true).
  { unfold Str.startswith. destruct v; reflexivity. }
  rewrite Hsw.
  destruct (Str.contains "flag_" v) eqn:Hc.
  - pose proof (length_replace_present "flag_" v ltac:(discriminate) Hc) as Hlt.
    assert (Hf : Datasets.nan_onc_flag ftn [(v, data); ("flag_" ++ v, flag)]
                   ("flag_" ++ v)
                 = Ok [(v, data); ("flag_" ++ v, flag)]).
    { apply Hbody_absent. rewrite E. exact Hlt. }
    destruct (Str.startswith "flag_" v) eqn:Hs.
    + cbn [List.length Nat.eqb Datasets.nan_onc_flags_loop].
      rewrite (Hbody_absent v).
      * cbn [bind]. rewrite Hf. reflexivity.
      * unfold Str.replace. exact Hlt.
    + cbn [List.length Nat.eqb Datasets.nan_onc_flags_loop].
      rewrite Hf. reflexivity.
  - assert (Hs : Str.startswith "flag_" v = false).
    { destruct (Str.startswith "flag_" v) eqn:Hs; [|reflexivity].
      apply startswith_contains in Hs. congruence. }
    rewrite Hs.
    cbn [List.length Nat.eqb Datasets.nan_onc_flags_loop].
    unfold Datasets.nan_onc_flag. cbv zeta.
    rewrite (proj2 Hiff eq_refl).
    unfold has_key, getitem, dict_get, dict_set, has_key.
    cbn [existsb find fst snd map].
    rewrite String.eqb_refl, Hvf, Hfv. cbn [orb bind find fst snd].
    rewrite String.eqb_refl. reflexivity.
Qed.

End FlagNames.

Section RemoveFlags.
Import Datasets.
Local Open Scope string_scope.
Local Open Scope list_scope.

Lemma remove_onc_flag_vars_filter (ds : Dataset) :
  remove_onc_flag_vars ds
  = filter (fun p => negb (Str.startswith "flag_" (fst p))) ds.
Proof.
  unfold remove_onc_flag_vars. cbv zeta.
  set (flag_vars := filter (Str.startswith "flag_") (data_vars ds)).
  assert (Hmem : forall p, In p ds ->
            existsb (String.eqb (fst p)) flag_vars = Str.startswith "flag_" (fst p)).
  { intros p Hp. apply eq_true_iff_eq. rewrite existsb_exists. split.
    - intros (k & Hin & E). apply String.eqb_eq in E. rewrite E.
      now apply filter_In in Hin.
    - intros Hf. exists (fst p). split; [|apply String.eqb_refl].
      apply filter_In. split; [|assumption]. unfold data_vars, keys. now apply in_map. }
  destruct (List.length flag_vars =? 0)%nat eqn:E.
  - apply Nat.eqb_eq in E. destruct flag_vars eqn:Efv; [|discriminate].
    symmetry. apply filter_all. intros p Hp. rewrite <- (Hmem p Hp). reflexivity.
  - unfold drop_vars. apply filter_ext_in. intros p Hp. now rewrite Hmem.
Qed.

(** X18 (removing the flag variables).  [remove_onc_flag_vars] returns the
    variables whose name does not begin with 'flag_', each with its data
    and in the order of the dataset, and no other; applied again it
    changes nothing. *)
Theorem remove_onc_flag_vars_keeps_data :
  forall ds : Dataset,
    data_vars (remove_onc_flag_vars ds)
    = filter (fun v => negb (Str.startswith "flag_" v)) (data_vars ds) /\
    (forall v, dict_get (remove_onc_flag_vars ds) v
               = if Str.startswith "flag_" v then None else dict_get ds v) /\
    remove_onc_flag_vars (remove_onc_flag_vars ds) = remove_onc_flag_vars ds.
Proof.
  intros ds. rewrite !remove_onc_flag_vars_filter. split; [|split].
  - unfold data_vars, keys. induction ds as [|[k a] ds IH]; simpl; [reflexivity|].
    destruct (Str.startswith "flag_" k); simpl; now rewrite IH.
  - intros v. unfold dict_get. induction ds as [|[k a] ds IH]; simpl.
    + now destruct (Str.startswith "flag_" v).
    + destruct (Str.startswith "flag_" k) eqn:Hk; simpl.
      * destruct (String.eqb_spec k v) as [->|_]; [now rewrite IH, Hk | exact IH].
      * destruct (String.eqb_spec k v) as [->|_]; [now rewrite Hk | exact IH].
  - induction ds as [|[k a] ds IH]; simpl; [reflexivity|].
    destruct (Str.startswith "flag_" k) eqn:Hk; simpl; [exact IH|].
    rewrite Hk. simpl. now rewrite IH.
Qed.

End RemoveFlags.

(* ===================================================================== *)
(** * core.py: deployments *)
(* ===================================================================== *)

Section DictUpdates.
Context {V : Type}.
Implicit Types (d : dict V) (k : string).

Lemma keys_app d d' : keys (d ++ d') = keys d ++ keys d'.
Proof. unfold keys. apply map_app. Qed.

Lemma has_key_false d k : has_key d k = false <-> ~ In k (keys d).
Proof.
  rewrite <- has_key_In. destruct (has_key d k); split; intros; congruence.
Qed.

Lemma keys_dict_set d k v :
  keys (dict_set d k v) = if has_key d k then keys d else keys d ++ [k].
Proof.
  unfold dict_set. destruct (has_key d k).
  - unfold keys. rewrite map_map. apply map_ext. intros [k0 v0]. simpl.
    destruct (String.eqb_spec k0 k) as [->|_]; reflexivity.
  - now rewrite keys_app.
Qed.

Lemma NoDup_dict_set d k v : NoDup (keys d) -> NoDup (keys (dict_set d k v)).
Proof.
  intros H. rewrite keys_dict_set. destruct (has_key d k) eqn:E; [assumption|].
  apply has_key_false in E. apply NoDup_app; [assumption | repeat constructor; auto |].
  intros x Hx [<-|[]]. contradiction.
Qed.

Lemma In_dict_set d k v k' v' :
  In (k', v') (dict_set d k v) -> (k' = k /\ v' = v) \/ In (k', v') d.
Proof.
  unfold dict_set. destruct (has_key d k).
  - rewrite in_map_iff. intros ([k0 v0] & E & Hin). simpl in E.
    destruct (String.eqb k0 k); injection E as <- <-; auto.
  - rewrite in_app_iff. intros [H | [[= <- <-] | []]]; auto.
Qed.

Lemma dict_get_app d d' k :
  dict_get (d ++ d') k
  = match dict_get d k with Some v => Some v | None => dict_get d' k end.
Proof.
  unfold dict_get. induction d as [|[k0 v0] d IH]; simpl; [reflexivity|].
  destruct (String.eqb k0 k); [reflexivity | exact IH].
Qed.

Lemma dict_get_app_absent d d' k :
  ~ In k (keys d) -> dict_get (d ++ d') k = dict_get d' k.
Proof.
  unfold dict_get, keys. induction d as [|[k0 v0] d IH]; simpl; intros H; [reflexivity|].
  destruct (String.eqb_spec k0 k) as [->|_]; [tauto|]. apply IH. tauto.
Qed.

Lemma dict_get_absent d k : ~ In k (keys d) -> dict_get d k = None.
Proof.
  intros H. destruct (dict_get d k) eqn:E; [|reflexivity].
  exfalso. apply H, has_key_In, has_key_dict_get. eauto.
Qed.

Lemma dict_set_absent d k v : ~ In k (keys d) -> dict_set d k v = d ++ [(k, v)].
Proof. intros H. unfold dict_set. apply has_key_false in H. now rewrite H. Qed.

Lemma dict_set_last d k v v' :
  ~ In k (keys d) -> dict_set (d ++ [(k, v)]) k v' = d ++ [(k, v')].
Proof.
  intros H. unfold dict_set.
  assert (Hk : has_key (d ++ [(k, v)]) k = true).
  { apply has_key_In. rewrite keys_app. apply in_or_app. right. now left. }
  rewrite Hk, map_app. simpl. rewrite String.eqb_refl. f_equal.
  rewrite <- (map_id d) at 2. apply map_ext_in. intros [k0 v0] Hin. simpl.
  destruct (String.eqb_spec k0 k) as [->|_]; [|reflexivity].
  exfalso. apply H. change k with (fst (k, v0)). unfold keys. now apply in_map.
Qed.

Lemma dict_get_set_same d k v : dict_get (dict_set d k v) k = Some v.
Proof.
  unfold dict_set. destruct (has_key d k) eqn:E.
  - unfold has_key in E. unfold dict_get.
    induction d as [|[k0 v0] d IH]; simpl in *; [discriminate|].
    destruct (String.eqb k0 k) eqn:E0; simpl.
    + now rewrite String.eqb_refl.
    + rewrite E0. now apply IH.
  - apply has_key_false in E. rewrite dict_get_app_absent by assumption.
    unfold dict_get. simpl. now rewrite String.eqb_refl.
Qed.

Lemma dict_get_set_other d k v k' : k' <> k -> dict_get (dict_set d k v) k' = dict_get d k'.
Proof.
  intros Hne. unfold dict_set. destruct (has_key d k).
  - unfold dict_get. induction d as [|[k0 v0] d IH]; simpl; [reflexivity|].
    destruct (String.eqb_spec k0 k) as [->|Hk]; simpl.
    + destruct (String.eqb_spec k k') as [E|_]; [now elim Hne | exact IH].
    + destruct (String.eqb k0 k'); [reflexivity | exact IH].
  - rewrite dict_get_app. destruct (dict_get d k'); [reflexivity|].
    unfold dict_get. simpl.
    destruct (String.eqb_spec k k') as [E|_]; [now elim Hne | reflexivity].
Qed.

End DictUpdates.

Section Deployments.
Import Client.
Local Open Scope string_scope.
Local Open Scope list_scope.
Local Open Scope Z_scope.

Variables (now begin_datetime0 end_datetime0 : Z).

Lemma request_deployments_inner (dcc : string) (req : dict (dict DeploymentInfo)) :
  ~ In dcc (keys req) ->
  forall deps acc,
    NoDup (keys acc ++ keys deps) ->
    fold_left (request_deployment begin_datetime0 end_datetime0 dcc) deps
              (snoc_entry req dcc acc)
    = snoc_entry req dcc (acc ++ filter (requested_item begin_datetime0 end_datetime0) deps).
Proof.
  intros Hreq. induction deps as [|[k v] deps IH]; intros acc Hnd; simpl.
  - now rewrite app_nil_r.
  - unfold request_deployment at 2. unfold requested_item at 1. simpl.
    simpl in Hnd.
    destruct (requested begin_datetime0 end_datetime0 v).
    + assert (Hk : ~ In k (keys acc)).
      { intros Hin. apply NoDup_remove_2 in Hnd. apply Hnd. apply in_or_app. now left. }
      assert (Hnd' : NoDup (keys (acc ++ [(k, v)]) ++ keys deps)).
      { rewrite keys_app. simpl. now rewrite <- app_assoc. }
      assert (Hstate : match dict_get (snoc_entry req dcc acc) dcc with
                       | None => dict_set (snoc_entry req dcc acc) dcc (dict_set [] k v)
                       | Some deps0 => dict_set (snoc_entry req dcc acc) dcc (dict_set deps0 k v)
                       end = snoc_entry req dcc (acc ++ [(k, v)])).
      { destruct acc as [|a acc]; simpl.
        - rewrite (dict_get_absent req dcc Hreq).
          now rewrite (dict_set_absent req dcc _ Hreq).
        - rewrite (dict_get_app_absent req _ dcc Hreq).
          unfold dict_get at 1. simpl. rewrite String.eqb_refl. simpl.
          rewrite (dict_set_last req dcc _ _ Hreq).
          now rewrite (dict_set_absent (a :: acc) k v Hk). }
      rewrite Hstate, (IH _ Hnd'). now rewrite <- app_assoc.
    + apply IH. now apply NoDup_remove_1 in Hnd.
Qed.

Lemma request_deployments_outer (all : dict (dict DeploymentInfo)) :
  Forall (fun entry => NoDup (keys (snd entry))) all ->
  forall req,
    NoDup (keys req ++ keys all) ->
    fold_left (fun requested_deployments entry =>
                 fold_left (request_deployment begin_datetime0 end_datetime0 (fst entry))
                           (snd entry) requested_deployments) all req
    = req ++ filter (fun entry => negb (List.length (snd entry) =? 0)%nat)
                    (map (fun entry => (fst entry, filter (requested_item begin_datetime0 end_datetime0) (snd entry))) all).
Proof.
  induction 1 as [|[dcc deps] all Hdeps Hall IH]; intros req Hnd; simpl.
  - now rewrite app_nil_r.
  - simpl in Hnd, Hdeps.
    assert (Hreq : ~ In dcc (keys req)).
    { intros Hin. apply NoDup_remove_2 in Hnd. apply Hnd. apply in_or_app. now left. }
    pose proof (request_deployments_inner dcc req Hreq deps [] Hdeps) as Hin.
    simpl in Hin. rewrite Hin.
    destruct (filter (requested_item begin_datetime0 end_datetime0) deps) as [|q qs] eqn:Ef; simpl.
    + apply IH. now apply NoDup_remove_1 in Hnd.
    + rewrite IH.
      * now rewrite <- app_assoc.
      * rewrite keys_app. simpl. now rewrite <- app_assoc.
Qed.

Lemma add_deployment_well_keyed (Q : DeploymentInfo -> Prop)
    (all : dict (dict DeploymentInfo)) (dep : Deployment) :
  well_keyed Q all -> Q (deployment_info now dep) ->
  well_keyed Q (add_deployment now all dep).
Proof.
  intros (Hnd & Hin & HQ) Hdep. unfold add_deployment. cbv zeta.
  assert (Hgen : forall deps0 key,
            NoDup (keys deps0) ->
            (forall k dinfo, In (k, dinfo) deps0 -> Q dinfo) ->
            well_keyed Q (dict_set all (deviceCategoryCode dep)
                                   (dict_set deps0 key (deployment_info now dep)))).
  { intros deps0 key Hnd0 HQ0. split; [|split].
    - now apply NoDup_dict_set.
    - apply Forall_forall. intros [dcc deps] Hentry.
      apply In_dict_set in Hentry as [[-> ->] | Hentry]; simpl.
      + now apply NoDup_dict_set.
      + rewrite Forall_forall in Hin. exact (Hin _ Hentry).
    - intros dcc deps k dinfo Hentry Hk.
      apply In_dict_set in Hentry as [[-> ->] | Hentry].
      + apply In_dict_set in Hk as [[-> ->] | Hk]; [assumption | eauto].
      + eauto. }
  destruct (dict_get all (deviceCategoryCode dep)) as [deps|] eqn:E.
  - apply dict_get_In in E. apply Hgen.
    + rewrite Forall_forall in Hin. exact (Hin _ E).
    + intros k dinfo Hk. eauto.
  - apply Hgen; [constructor | intros k dinfo []].
Qed.

Lemma all_deployments_well_keyed (Q : DeploymentInfo -> Prop)
    (json_response : list Deployment) :
  (forall dep, In dep json_response -> Q (deployment_info now dep)) ->
  well_keyed Q (all_deployments now json_response).
Proof.
  unfold all_deployments.
  assert (Hgen : forall resp all,
            well_keyed Q all ->
            (forall dep, In dep resp -> Q (deployment_info now dep)) ->
            well_keyed Q (fold_left (add_deployment now) resp all)).
  { induction resp as [|dep resp IH]; intros all Hall HQ; simpl; [assumption|].
    apply IH.
    - apply add_deployment_well_keyed; [assumption|]. apply HQ. now left.
    - intros dep' Hin. apply HQ. now right. }
  intros HQ. apply Hgen; [|assumption].
  split; [constructor|]. split; [constructor|]. intros ? ? ? ? [].
Qed.

Lemma requested_overlap (dinfo : DeploymentInfo) :
  begin_datetime0 <= end_datetime0 ->
  begin_datetime dinfo <= end_datetime dinfo ->
  requested begin_datetime0 end_datetime0 dinfo
  = (begin_datetime dinfo <=? end_datetime0) && (begin_datetime0 <=? end_datetime dinfo).
Proof.
  intros H1 H2. unfold requested. cbv zeta.
  repeat match goal with
         | |- context [?a <=? ?b] => destruct (Z.leb_spec a b)
         end; simpl; try reflexivity; lia.
Qed.

(** X19 (requested deployments).  When the requested interval and the
    interval of every deployment of the response are in order (begin not
    after end, a missing end being the present), [get_deployments] returns
    exactly the deployments whose interval meets the requested one: each
    device category keeps, under their numbers and in their order, the
    deployments that begin no later than [end_datetime] and end no earlier
    than [begin_datetime], and a category left without deployment is not
    returned. *)
Theorem get_deployments_overlap :
  forall json_response : list Deployment,
    begin_datetime0 <= end_datetime0 ->
    (forall dep, In dep json_response ->
                 dep_begin dep <= match dep_end dep with None => now | Some e => e end) ->
    get_deployments now json_response begin_datetime0 end_datetime0
    = filter (fun entry => negb (List.length (snd entry) =? 0)%nat)
        (map (fun entry =>
                (fst entry,
                 filter (fun item => (begin_datetime (snd item) <=? end_datetime0)
                                     && (begin_datetime0 <=? end_datetime (snd item)))
                        (snd entry)))
             (all_deployments now json_response)).
Proof.
  intros json_response Hreq Hresp.
  destruct (all_deployments_well_keyed
              (fun dinfo => begin_datetime dinfo <= end_datetime dinfo)
              json_response Hresp) as (Hnd & Hin & HQ).
  unfold get_deployments.
  rewrite (request_deployments_outer _ Hin []) by exact Hnd.
  simpl. f_equal. apply map_ext_in. intros [dcc deps] Hentry. simpl. f_equal.
  apply filter_ext_in. intros [k dinfo] Hk. unfold requested_item. simpl.
  apply requested_overlap; [assumption|]. exact (HQ dcc deps k dinfo Hentry Hk).
Qed.

End Deployments.

Lemma get_deployments_overlap_witness :
  let json_response :=
    [ {| Client.deviceCategoryCode := "CTD"; Client.deviceCode := "SBE1";
         Client.dep_begin := 100; Client.dep_end := Some 200 |};
      {| Client.deviceCategoryCode := "CTD"; Client.deviceCode := "SBE2";
         Client.dep_begin := 300; Client.dep_end := None |} ]%string in
  150 <= 250 /\
  (forall dep, In dep json_response ->
               Client.dep_begin dep
               <= match Client.dep_end dep with None => 1000 | Some e => e end) /\
  Client.get_deployments 1000 json_response 150 250
  = filter (fun entry => negb (List.length (snd entry) =? 0)%nat)
      (map (fun entry =>
              (fst entry,
               filter (fun item => (Client.begin_datetime (snd item) <=? 250)
                                   && (150 <=? Client.end_datetime (snd item)))
                      (snd entry)))
           (Client.all_deployments 1000 json_response)).
Proof.
  intros json_response.
  assert (H1 : 150 <= 250) by lia.
  assert (H2 : forall dep, In dep json_response ->
                 Client.dep_begin dep
                 <= match Client.dep_end dep with None => 1000 | Some e => e end).
  { intros dep Hin. simpl in Hin.
    repeat (destruct Hin as [<- | Hin]; [simpl; lia|]). contradiction. }
  split; [exact H1|]. split; [exact H2|].
  exact (get_deployments_overlap 1000 150 250 json_response H1 H2).
Defined.

Section DeploymentNumbers.
Import Client.
Local Open Scope string_scope.
Local Open Scope list_scope.

Lemma uint_of_string_zeros (k : nat) (s : string) :
  DecimalString.NilEmpty.uint_of_string (zeros k ++ s)
  = option_map (Nat.iter k Decimal.D0) (DecimalString.NilEmpty.uint_of_string s).
Proof.
  induction k as [|k IH]; simpl.
  - now destruct (DecimalString.NilEmpty.uint_of_string s).
  - rewrite IH. now destruct (DecimalString.NilEmpty.uint_of_string s).
Qed.

Lemma of_uint_zeros (k : nat) (d : Decimal.uint) :
  Nat.of_uint (Nat.iter k Decimal.D0 d) = Nat.of_uint d.
Proof. induction k as [|k IH]; simpl; [reflexivity | exact IH]. Qed.

Lemma dnumstr_inj (n m : nat) : dnumstr n = dnumstr m -> n = m.
Proof.
  unfold dnumstr, zfill, str. intros H. injection H as H.
  apply (f_equal DecimalString.NilEmpty.uint_of_string) in H.
  rewrite !uint_of_string_zeros, !DecimalString.NilEmpty.usu in H. simpl in H.
  injection H as H. apply (f_equal Nat.of_uint) in H.
  now rewrite !of_uint_zeros, !DecimalNat.Unsigned.of_to in H.
Qed.

Lemma numbered_app (dnum : nat) (l : list DeploymentInfo) (x : DeploymentInfo) :
  numbered dnum (l ++ [x]) = numbered dnum l ++ [(dnumstr (dnum + List.length l), x)].
Proof.
  revert dnum. induction l as [|y l IH]; intros dnum; simpl.
  - now rewrite Nat.add_0_r.
  - rewrite IH. now rewrite Nat.add_succ_r.
Qed.

Lemma length_numbered (dnum : nat) (l : list DeploymentInfo) :
  List.length (numbered dnum l) = List.length l.
Proof. revert dnum. induction l as [|y l IH]; intros dnum; simpl; [|rewrite IH]; reflexivity. Qed.

Lemma keys_numbered (dnum : nat) (l : list DeploymentInfo) (k : string) :
  In k (keys (numbered dnum l)) ->
  exists i, (dnum <= i < dnum + List.length l)%nat /\ k = dnumstr i.
Proof.
  revert dnum. induction l as [|y l IH]; intros dnum; simpl; [intros []|].
  intros [<- | H].
  - exists dnum. split; [lia | reflexivity].
  - destruct (IH _ H) as (i & Hi & ->). exists i. split; [lia | reflexivity].
Qed.

(** X20 (deployment numbers).  In the dictionary the first loop of
    [get_deployments] builds, a device category holds the deployments of
    the response that bear its code, in the order of the response, under
    the keys 'D00001', 'D00002', ... counted within the category; a code
    absent from the response is no key. *)
Theorem all_deployments_numbering :
  forall (now : Z) (json_response : list Deployment) (dcc : string),
    dict_get (all_deployments now json_response) dcc
    = match filter (fun dep => String.eqb (deviceCategoryCode dep) dcc) json_response with
      | [] => None
      | l => Some (numbered 1 (map (deployment_info now) l))
      end.
Proof.
  intros now json_response dcc. unfold all_deployments.
  induction json_response as [|dep resp IH] using rev_ind; [reflexivity|].
  rewrite fold_left_app, filter_app. simpl.
  set (all := fold_left (add_deployment now) resp []) in *.
  unfold add_deployment. cbv zeta.
  destruct (String.eqb_spec (deviceCategoryCode dep) dcc) as [E|Hne].
  - rewrite E. rewrite IH.
    destruct (filter (fun dep0 => String.eqb (deviceCategoryCode dep0) dcc) resp)
      as [|d0 l] eqn:Ef.
    + rewrite dict_get_set_same. reflexivity.
    + rewrite dict_get_set_same.
      set (ds := map (deployment_info now) (d0 :: l)).
      assert (Hset : dict_set (numbered 1 ds) (dnumstr (List.length (numbered 1 ds) + 1))
                              (deployment_info now dep)
                     = numbered 1 (ds ++ [deployment_info now dep])).
      { rewrite numbered_app, length_numbered, dict_set_absent.
        - now rewrite Nat.add_comm.
        - intros Hin. apply keys_numbered in Hin as (i & Hi & Heq).
          apply dnumstr_inj in Heq. lia. }
      rewrite Hset. unfold ds. rewrite <- map_app with (l' := [dep]).
      simpl. destruct (l ++ [dep]) eqn:El; [now destruct l|]. reflexivity.
  - rewrite app_nil_r.
    assert (Hother : forall x, dict_get (dict_set all (deviceCategoryCode dep) x) dcc
                               = dict_get all dcc).
    { intros x. apply dict_get_set_other. congruence. }
    destruct (dict_get all (deviceCategoryCode dep)); rewrite Hother; exact IH.
Qed.

End DeploymentNumbers.

(* ===================================================================== *)
(** * core.py: location codes and text files *)
(* ===================================================================== *)

Section LocationCodes.
Import Client.
Local Open Scope string_scope.
Local Open Scope list_scope.

Lemma insert_sorted_perm (x : string) (l : list string) :
  Permutation (insert_sorted x l) (x :: l).
Proof.
  induction l as [|y l IH]; simpl; [reflexivity|].
  destruct (String.leb x y); [reflexivity|].
  rewrite IH. apply perm_swap.
Qed.

Lemma sorted_perm (l : list string) : Permutation (sorted l) l.
Proof.
  induction l as [|x l IH]; simpl; [reflexivity|].
  rewrite insert_sorted_perm. now constructor.
Qed.

Lemma insert_sorted_Sorted (x : string) (l : list string) :
  Sorted (fun a b => String.leb a b = true) l ->
  Sorted (fun a b => String.leb a b = true) (insert_sorted x l).
Proof.
  induction 1 as [|y l Hs IH Hhd]; simpl; [repeat constructor|].
  destruct (String.leb x y) eqn:E.
  - constructor; [now constructor | now constructor].
  - constructor; [assumption|].
    assert (Hyx : String.leb y x = true)
      by (destruct (String.leb_total x y); congruence).
    destruct l as [|z l]; simpl; [now constructor|].
    destruct (String.leb x z); constructor; [assumption|].
    now inversion Hhd.
Qed.

Lemma sorted_Sorted (l : list string) :
  Sorted (fun a b => String.leb a b = true) (sorted l).
Proof.
  induction l as [|x l IH]; simpl; [constructor|]. now apply insert_sorted_Sorted.
Qed.

(** X21 (location codes).  [get_all_location_codes] raises
    [UnboundLocalError] on an empty response and on no other.  Otherwise
    it returns, in ascending order, the location codes of the children of
    every entry of the response together with the location code of the
    last entry only: the code of an earlier entry is returned only if it
    is also the code of a child or of the last entry. *)
Theorem get_all_location_codes_last_primary :
  forall json_response : list LocationTree,
    match get_all_location_codes json_response with
    | UnboundLocalError => json_response = []
    | Returns location_codes =>
        exists first rest,
          json_response = first :: rest /\
          Sorted (fun a b => String.leb a b = true) location_codes /\
          Permutation location_codes
            (locationCode (last rest first) :: flat_map children json_response)
    end.
Proof.
  intros [|first rest]; [reflexivity|].
  unfold get_all_location_codes. exists first, rest. split; [reflexivity|].
  split; [apply sorted_Sorted|].
  rewrite sorted_perm. simpl.
  replace (match rest with [] => first | _ :: _ => last rest first end)
    with (last rest first) by now destruct rest.
  reflexivity.
Qed.

Lemma fold_keep (conditions : list string) (lines : list string) :
  fold_left (fun lines keep_condition =>
               filter (fun line => Str.contains keep_condition line) lines)
            conditions lines
  = filter (fun line => forallb (fun c => Str.contains c line) conditions) lines.
Proof.
  revert lines. induction conditions as [|c cs IH]; intros lines; simpl.
  - symmetry. now apply filter_all.
  - rewrite IH. clear IH. induction lines as [|x lines IHl]; simpl; [reflexivity|].
    destruct (Str.contains c x); simpl; [|exact IHl].
    destruct (forallb _ cs); now rewrite IHl.
Qed.

Lemma fold_drop (conditions : list string) (lines : list string) :
  fold_left (fun lines drop_condition =>
               filter (fun line => negb (Str.contains drop_condition line)) lines)
            conditions lines
  = filter (fun line => forallb (fun c => negb (Str.contains c line)) conditions) lines.
Proof.
  revert lines. induction conditions as [|c cs IH]; intros lines; simpl.
  - symmetry. now apply filter_all.
  - rewrite IH. clear IH. induction lines as [|x lines IHl]; simpl; [reflexivity|].
    destruct (Str.contains c x); simpl; [exact IHl|].
    destruct (forallb _ cs); now rewrite IHl.
Qed.

Lemma filter_filter {X : Type} (f g : X -> bool) (l : list X) :
  filter g (filter f l) = filter (fun x => f x && g x) l.
Proof.
  induction l as [|x l IH]; simpl; [reflexivity|].
  destruct (f x); simpl; [|exact IH]. destruct (g x); now rewrite IH.
Qed.

(** X22 (lines of a text file).  [import_txt_from_url] raises [ValueError]
    on an empty [splitter]; otherwise it returns, in their order and with
    their repetitions, the pieces of the text between the splitters that
    contain every keep condition and no drop condition.  Conditions that
    are [None] and an empty list of conditions have the same effect. *)
Theorem import_txt_from_url_lines :
  forall (txt : string) (keep_conditions drop_conditions : option (list string))
         (splitter : string),
    import_txt_from_url txt keep_conditions drop_conditions splitter
    = match Str.split splitter txt with
      | Raise e => Raise e
      | Ok lines =>
          Ok (filter (fun line =>
                        forallb (fun c => Str.contains c line) (conditions_of keep_conditions)
                        && forallb (fun c => negb (Str.contains c line))
                                   (conditions_of drop_conditions))
                     lines)
      end /\
    (splitter = "" <->
     import_txt_from_url txt keep_conditions drop_conditions splitter = Raise ValueError).
Proof.
  intros txt keep drop splitter.
  assert (H : import_txt_from_url txt keep drop splitter
              = match Str.split splitter txt with
                | Raise e => Raise e
                | Ok lines =>
                    Ok (filter (fun line =>
                                  forallb (fun c => Str.contains c line) (conditions_of keep)
                                  && forallb (fun c => negb (Str.contains c line))
                                             (conditions_of drop))
                               lines)
                end).
  { unfold import_txt_from_url. destruct (Str.split splitter txt) as [lines|e]; [|reflexivity].
    cbn [bind]. cbv zeta. f_equal. rewrite <- filter_filter.
    assert (Hk : match keep with
                 | Some conditions =>
                     fold_left (fun lines keep_condition =>
                                  filter (fun line => Str.contains keep_condition line) lines)
                               conditions lines
                 | None => lines
                 end
                 = filter (fun line => forallb (fun c => Str.contains c line)
                                               (conditions_of keep)) lines).
    { destruct keep as [cs|]; simpl; [apply fold_keep|].
      symmetry. now apply filter_all. }
    rewrite Hk. destruct drop as [cs|]; simpl; [apply fold_drop|].
    symmetry. now apply filter_all. }
  split; [exact H|]. rewrite H. unfold Str.split.
  destruct splitter; split; intros; try reflexivity; discriminate.
Qed.

End LocationCodes.

(* ===================================================================== *)
(** * ONCToolbox/core.py: the token of a query URL *)
(* ===================================================================== *)

Section ScrubToken.
Import Ascii Toolbox.
Local Open Scope string_scope.

Lemma prefix_cons (a b : Ascii.ascii) (p s : string) :
  String.prefix (String a p) (String b s)
  = if Ascii.ascii_dec a b then String.prefix p s else false.
Proof. reflexivity. Qed.

Lemma prefix_cons_neq (a b : Ascii.ascii) (p s : string) :
  a <> b -> String.prefix (String a p) (String b s) = false.
Proof. intros H. rewrite prefix_cons. now destruct (Ascii.ascii_dec a b). Qed.

Lemma prefix_cons_eq (a : Ascii.ascii) (p s : string) :
  String.prefix (String a p) (String a s) = String.prefix p s.
Proof. rewrite prefix_cons. now destruct (Ascii.ascii_dec a a). Qed.

Lemma prefix_app_l (p q s : string) :
  String.prefix (p ++ q) s = true -> String.prefix p s = true.
Proof.
  revert s. induction p as [|a p IH]; intros s H; [now destruct s|].
  destruct s as [|b s]; [discriminate|].
  cbn [append] in H. rewrite prefix_cons in H |- *.
  destruct (Ascii.ascii_dec a b); [now apply IH | discriminate].
Qed.

Lemma prefix_contains (p s : string) : String.prefix p s = true -> Str.contains p s = true.
Proof. intros H. destruct s; simpl in *; now rewrite H. Qed.

Lemma contains_cons (p : string) (c : Ascii.ascii) (s : string) :
  Str.contains p s = true -> Str.contains p (String c s) = true.
Proof. intros H. cbn [Str.contains]. rewrite H. apply orb_true_r. Qed.

(** A match is ['&token='] followed by 36 characters of the class, and
    stands at the head of the string. *)
Lemma match_here_shape (s m : string) :
  match_here s = Some m ->
  exists h, m = "&token=" ++ h /\ String.length h = 36%nat /\
            Str.all_chars is_token_char h = true /\ String.prefix m s = true.
Proof.
  unfold match_here. cbv zeta.
  destruct (String.prefix "&token=" s) eqn:Hp; [|discriminate].
  destruct (String.length (String.substring 7 36 s) =? 36)%nat eqn:Hl; [|discriminate].
  destruct (Str.all_chars is_token_char (String.substring 7 36 s)) eqn:Hc; [|discriminate].
  simpl. intros [= <-]. exists (String.substring 7 36 s).
  apply Nat.eqb_eq in Hl. repeat split; try assumption.
  do 7 (destruct s as [|? s]; [discriminate|]).
  rewrite !prefix_cons in Hp.
  repeat match type of Hp with
         | (if ?d then _ else _) = true => destruct d as [<-|]; [|discriminate]
         end.
  simpl. clear. generalize 36%nat. induction s as [|c s IH]; intros [|n]; simpl; try reflexivity.
  destruct (Ascii.ascii_dec c c); [apply IH | congruence].
Qed.

Lemma first_match_found (s m : string) :
  first_match s = Some m ->
  Str.contains m s = true /\
  exists h, m = "&token=" ++ h /\ String.length h = 36%nat /\
            Str.all_chars is_token_char h = true.
Proof.
  induction s as [|c s IH]; cbn [first_match]; intros H.
  - destruct (match_here "") eqn:E; [|discriminate]. injection H as ->.
    destruct (match_here_shape _ _ E) as (h & -> & _ & _ & Hp). discriminate.
  - destruct (match_here (String c s)) eqn:E.
    + injection H as ->. destruct (match_here_shape _ _ E) as (h & -> & Hl & Hc & Hp).
      split; [now apply prefix_contains | eauto].
    + destruct (IH H) as [Hc Hh]. split; [now apply contains_cons | exact Hh].
Qed.

(** Where the output of [replace] begins with a string free of the first
    character of [old], the input begins with it too. *)
Lemma replace_prefix_reflect (a : Ascii.ascii) (t r : string) :
  forall x s,
    Str.free_of a x = true -> x <> "" ->
    String.prefix x (Str.replace_from (String a t) (String a r) 0 s) = true ->
    String.prefix x s = true.
Proof.
  intros x s. revert x. induction s as [|c s IH]; intros x Hx Hne H.
  - simpl in H. destruct x; [now elim Hne | discriminate].
  - cbn [Str.replace_from] in H.
    destruct x as [|b x]; [now elim Hne|].
    unfold Str.free_of in Hx. simpl in Hx. apply andb_true_iff in Hx as [Hb Hx].
    destruct (String.prefix (String a t) (String c s)) eqn:Hp.
    + simpl in H. destruct (Ascii.ascii_dec b a) as [->|_]; [|discriminate].
      now rewrite Ascii.eqb_refl in Hb.
    + rewrite prefix_cons in H |- *.
      destruct (Ascii.ascii_dec b c); [|discriminate].
      destruct x as [|b' x']; [now destruct s|].
      apply IH; [exact Hx | discriminate | exact H].
Qed.

Lemma replace_no_old (a : Ascii.ascii) (t r : string) :
  Str.free_of a t = true -> t <> "" ->
  (forall y, Str.contains (String a t) y = false ->
             Str.contains (String a t) (String a r ++ y) = false) ->
  forall s k, Str.contains (String a t) (Str.replace_from (String a t) (String a r) k s) = false.
Proof.
  intros Ht Hne Hnew. induction s as [|c s IH]; intros k; [reflexivity|].
  cbn [Str.replace_from]. destruct k as [|k]; [|apply IH].
  destruct (String.prefix (String a t) (String c s)) eqn:Hp.
  - apply Hnew, IH.
  - cbn [Str.contains]. rewrite IH, orb_false_r.
    destruct (String.prefix (String a t)
                (String c (Str.replace_from (String a t) (String a r) 0 s))) eqn:Hq;
      [|reflexivity].
    rewrite prefix_cons in Hq, Hp.
    destruct (Ascii.ascii_dec a c); [|discriminate].
    apply replace_prefix_reflect in Hq; [congruence | assumption | assumption].
Qed.

Lemma token_char_not (c : Ascii.ascii) :
  is_token_char c = true -> c <> "&"%char /\ c <> "R"%char.
Proof. intros H. split; intros ->; vm_compute in H; discriminate. Qed.

Lemma all_chars_weaken (p q : Ascii.ascii -> bool) (s : string) :
  (forall c, p c = true -> q c = true) -> Str.all_chars p s = true -> Str.all_chars q s = true.
Proof.
  intros Hpq. induction s as [|c s IH]; simpl; [reflexivity|].
  intros H. apply andb_true_iff in H as [H1 H2]. now rewrite (Hpq c H1), IH.
Qed.

(** X23 (redacted token).  [scrub_token] raises [IndexError] when the URL
    holds no ['&token='] followed by 36 characters among [a-f], [0-9] and
    [-], in particular when it holds no ['&token='] at all.  Otherwise the
    token parameter it found occurs in the URL and no longer occurs in the
    URL it returns. *)
Theorem scrub_token_redacts :
  forall query_url : string,
    match scrub_token query_url with
    | Raise e => e = IndexError /\ first_match query_url = None
    | Ok redacted_url =>
        exists token_qp,
          first_match query_url = Some token_qp /\
          Str.contains token_qp query_url = true /\
          Str.contains token_qp redacted_url = false
    end /\
    (Str.contains "&token=" query_url = false ->
     scrub_token query_url = Raise IndexError).
Proof.
  intros url. split.
  - unfold scrub_token. destruct (first_match url) as [m|] eqn:E; [|now split].
    exists m. split; [reflexivity|].
    destruct (first_match_found _ _ E) as (Hc & h & -> & Hl & Hh).
    split; [exact Hc|].
    destruct h as [|c h]; [discriminate|].
    simpl in Hh. apply andb_true_iff in Hh as [Hc0 Hh].
    destruct (token_char_not c Hc0) as [_ HR].
    unfold Str.replace.
    apply (replace_no_old "&"%char ("token=" ++ String c h) "token=REDACTED").
    + unfold Str.free_of. simpl. apply andb_true_iff. split.
      * destruct (Ascii.eqb_spec c "&"%char) as [->|_]; [|reflexivity].
        now destruct (token_char_not _ Hc0).
      * apply (all_chars_weaken is_token_char); [|exact Hh].
        intros c' Hc'. destruct (Ascii.eqb_spec c' "&"%char) as [->|_]; [|reflexivity].
        now destruct (token_char_not _ Hc').
    + discriminate.
    + intros y Hy. cbn [append] in Hy |- *.
      cbn [Str.contains]. rewrite Hy.
      rewrite !prefix_cons_eq.
      rewrite (prefix_cons_neq c "R"%char) by exact HR.
      repeat (rewrite prefix_cons_neq by discriminate).
      reflexivity.
  - intros Habs. unfold scrub_token.
    destruct (first_match url) as [m|] eqn:E; [|reflexivity].
    destruct (first_match_found _ _ E) as (Hc & h & -> & _).
    exfalso. clear E. induction url as [|c url IH].
    + simpl in Hc. discriminate.
    + cbn [Str.contains] in Hc, Habs. apply orb_false_iff in Habs as [Hp Habs].
      apply orb_true_iff in Hc as [Hc | Hc]; [|now apply IH].
      assert (String.prefix "&token=" (String c url) = true); [|congruence].
      now apply prefix_app_l in Hc.
Qed.

End ScrubToken.

(* ===================================================================== *)
(** * qaqc.py: the gross range test with operator bounds *)
(* ===================================================================== *)

Section GrossRangeBands.
Import FLAG Qaqc.
Local Open Scope float_scope.

Lemma SFltb_negb_leb (a b : spec_float) :
  a <> S754_nan -> b <> S754_nan -> SFltb a b = negb (SFleb b a).
Proof.
  unfold SFltb, SFleb, SFcompare. intros Ha Hb.
  destruct a as [sa|sa| |sa ma ea], b as [sb|sb| |sb mb eb];
    try congruence; try destruct sa; try destruct sb; try reflexivity;
    change (PosDef.Pos.compare_cont Eq) with Pos.compare;
    rewrite (Z.compare_antisym ea eb); destruct (ea ?= eb)%Z; simpl; try reflexivity;
    rewrite (Pos.compare_antisym ma mb); destruct (ma ?= mb)%positive; reflexivity.
Qed.

Lemma Prim2SF_not_nan (x : float) : is_nan x = false -> Prim2SF x <> S754_nan.
Proof.
  unfold is_nan. rewrite FloatAxioms.eqb_spec. intros H E. rewrite E in H. discriminate.
Qed.

Lemma ltb_negb_leb (x y : float) :
  is_nan x = false -> is_nan y = false -> (x <? y) = negb (y <=? x).
Proof.
  intros Hx Hy. rewrite FloatAxioms.ltb_spec, FloatAxioms.leb_spec.
  apply SFltb_negb_leb; now apply Prim2SF_not_nan.
Qed.

Lemma SFltb_leb (a b : spec_float) : SFltb a b = true -> SFleb a b = true.
Proof.
  unfold SFltb, SFleb. now destruct (SFcompare a b) as [[| |]|].
Qed.

Lemma leb_total (x y : float) :
  is_nan x = false -> is_nan y = false -> (x <=? y) = false -> (y <=? x) = true.
Proof.
  intros Hx Hy H. pose proof (ltb_negb_leb y x Hy Hx) as E. rewrite H in E.
  rewrite FloatAxioms.ltb_spec in E. rewrite FloatAxioms.leb_spec. now apply SFltb_leb.
Qed.

Lemma ltb_not_nan (x y : float) : (x <? y) = true -> is_nan x = false /\ is_nan y = false.
Proof.
  intros H. split.
  - destruct (is_nan x) eqn:E; [|reflexivity]. now rewrite (ltb_nan_l x y E) in H.
  - destruct (is_nan y) eqn:E; [|reflexivity]. now rewrite (ltb_nan_r x y E) in H.
Qed.

(** X24 (operator bounds).  With [sensor_min < sensor_max] and operator
    bounds that differ from the sensor bounds, the gross range test flags
    a sample that is present SUSPECT when it lies between [sensor_min] and
    [operator_min] or between [operator_max] and [sensor_max], bounds
    included, and PASS otherwise: a sample outside the sensor range is
    flagged PASS, and none is flagged FAIL. *)
Theorem gross_range_suspect_band :
  forall sensor_min sensor_max operator_min operator_max data : float,
    (sensor_min <? sensor_max) = true ->
    is_nan operator_min = false -> is_nan operator_max = false ->
    (sensor_min =? operator_min) = false -> (sensor_max =? operator_max) = false ->
    is_nan data = false ->
    gross_range_flag sensor_min sensor_max (Some operator_min) (Some operator_max) data
    = if ((sensor_min <=? data) && (data <=? operator_min))
         || ((operator_max <=? data) && (data <=? sensor_max))
      then SUSPECT else PASS.
Proof.
  intros smin smax omin omax data Hlt Homin Homax Hmin Hmax Hdata.
  destruct (ltb_not_nan _ _ Hlt) as [Hsmin Hsmax].
  unfold gross_range_flag, where_. rewrite Hmin, Hmax, Hdata. simpl.
  rewrite (ltb_negb_leb omin data), (ltb_negb_leb data smin),
    (ltb_negb_leb data omax), (ltb_negb_leb smax data),
    (ltb_negb_leb smin data), (ltb_negb_leb data smax) by assumption.
  assert (Hfail : (data <=? smin) && (smax <=? data) = false).
  { destruct (data <=? smin) eqn:E1, (smax <=? data) eqn:E2; try reflexivity.
    pose proof (leb_trans _ _ _ E2 E1) as E3.
    rewrite (ltb_negb_leb smin smax Hsmin Hsmax), E3 in Hlt. discriminate. }
  pose proof (leb_total smin data Hsmin Hdata) as Hlow.
  pose proof (leb_total data smax Hdata Hsmax) as Hhigh.
  destruct (smin <=? data), (data <=? omin), (omax <=? data), (data <=? smax),
           (data <=? smin), (smax <=? data); simpl in *;
    try reflexivity; try discriminate;
    try (specialize (Hlow eq_refl); discriminate);
    try (specialize (Hhigh eq_refl); discriminate).
Qed.

Lemma gross_range_suspect_band_witness :
  (0 <? 10) = true /\ is_nan 2 = false /\ is_nan 8 = false /\
  (0 =? 2) = false /\ (10 =? 8) = false /\ is_nan 12 = false /\
  gross_range_flag 0 10 (Some 2) (Some 8) 12
  = if ((0 <=? 12) && (12 <=? 2)) || ((8 <=? 12) && (12 <=? 10))
    then SUSPECT else PASS.
Proof.
  split; [reflexivity|]. split; [reflexivity|]. split; [reflexivity|].
  split; [reflexivity|]. split; [reflexivity|]. split; [reflexivity|].
  exact (gross_range_suspect_band 0 10 2 8 12 eq_refl eq_refl eq_refl eq_refl eq_refl eq_refl).
Defined.

End GrossRangeBands.

(* ===================================================================== *)
(** * qaqc.py: the threshold of the rate of change test *)
(* ===================================================================== *)

Section RateOfChangeThreshold.
Import FLAG Qaqc.
Local Open Scope float_scope.

Lemma Prim2SF_is_nan (x : float) : Prim2SF x = S754_nan -> is_nan x = true.
Proof. intros H. unfold is_nan. rewrite FloatAxioms.eqb_spec, H. reflexivity. Qed.

Lemma add_nan_l (x y : float) : is_nan x = true -> is_nan (x + y) = true.
Proof.
  intros H. apply Prim2SF_is_nan. rewrite FloatAxioms.add_spec, (is_nan_Prim2SF x H).
  reflexivity.
Qed.

Lemma add_nan_r (x y : float) : is_nan y = true -> is_nan (x + y) = true.
Proof.
  intros H. apply Prim2SF_is_nan. rewrite FloatAxioms.add_spec, (is_nan_Prim2SF y H).
  now destruct (Prim2SF x).
Qed.

Lemma sub_nan_l (x y : float) : is_nan x = true -> is_nan (x - y) = true.
Proof.
  intros H. apply Prim2SF_is_nan. rewrite FloatAxioms.sub_spec, (is_nan_Prim2SF x H).
  reflexivity.
Qed.

Lemma sub_nan_r (x y : float) : is_nan y = true -> is_nan (x - y) = true.
Proof.
  intros H. apply Prim2SF_is_nan. rewrite FloatAxioms.sub_spec, (is_nan_Prim2SF y H).
  now destruct (Prim2SF x).
Qed.

Lemma mul_nan_l (x y : float) : is_nan x = true -> is_nan (x * y) = true.
Proof.
  intros H. apply Prim2SF_is_nan. rewrite FloatAxioms.mul_spec, (is_nan_Prim2SF x H).
  reflexivity.
Qed.

Lemma mul_nan_r (x y : float) : is_nan y = true -> is_nan (x * y) = true.
Proof.
  intros H. apply Prim2SF_is_nan. rewrite FloatAxioms.mul_spec, (is_nan_Prim2SF y H).
  now destruct (Prim2SF x).
Qed.

Lemma div_nan_l (x y : float) : is_nan x = true -> is_nan (x / y) = true.
Proof.
  intros H. apply Prim2SF_is_nan. rewrite FloatAxioms.div_spec, (is_nan_Prim2SF x H).
  reflexivity.
Qed.

Lemma sqrt_nan (x : float) : is_nan x = true -> is_nan (sqrt x) = true.
Proof.
  intros H. apply Prim2SF_is_nan. rewrite FloatAxioms.sqrt_spec, (is_nan_Prim2SF x H).
  reflexivity.
Qed.

Lemma fold_add_nan (l : list float) (a : float) :
  is_nan a = true -> is_nan (fold_left PrimFloat.add l a) = true.
Proof.
  revert a. induction l as [|x l IH]; intros a H; simpl; [assumption|].
  apply IH. now apply add_nan_l.
Qed.

Lemma add_into_nan_head (x : float) (r a : list float) :
  is_nan x = true ->
  exists y r', add_into (x :: r) a = y :: r' /\ is_nan y = true.
Proof.
  intros H. destruct a as [|z a]; simpl.
  - now exists x, r.
  - exists (x + z), (add_into r a). split; [reflexivity | now apply add_nan_l].
Qed.

Lemma sum_blocks_nan_head (blocks : nat) (x : float) (r l : list float) :
  is_nan x = true ->
  exists y r', fst (sum_blocks blocks (x :: r) l) = y :: r' /\ is_nan y = true.
Proof.
  revert x r l. induction blocks as [|b IH]; intros x r l H; cbn [sum_blocks].
  - now exists x, r.
  - destruct (add_into_nan_head x r (firstn 8 l) H) as (y & r' & -> & Hy).
    now apply IH.
Qed.

Lemma sum_unrolled_nan_head (x : float) (l : list float) :
  is_nan x = true -> is_nan (sum_unrolled (x :: l)) = true.
Proof.
  intros H. unfold sum_unrolled. cbv zeta.
  change (firstn 8 (x :: l)) with (x :: firstn 7 l).
  destruct (sum_blocks_nan_head (List.length (x :: l) / 8 - 1) x (firstn 7 l)
                                (skipn 8 (x :: l)) H) as (y & r' & -> & Hy).
  apply fold_add_nan. cbn [nth]. now repeat apply add_nan_l.
Qed.

Lemma pairwise_sum_unfold (depth : nat) (l : list float) :
  pairwise_sum depth l
  = if (List.length l <? 8)%nat then fold_left PrimFloat.add l neg_zero
    else if (List.length l <=? 128)%nat then sum_unrolled l
    else match depth with
         | O => sum_unrolled l
         | S d =>
             pairwise_sum d (firstn (List.length l / 2 - (List.length l / 2) mod 8) l)
             + pairwise_sum d (skipn (List.length l / 2 - (List.length l / 2) mod 8) l)
         end.
Proof. destruct depth; reflexivity. Qed.

(** The length of the run is depth enough: a larger depth gives the same
    sum. *)
Lemma pairwise_sum_depth (d d' : nat) (l : list float) :
  (List.length l <= d)%nat -> (List.length l <= d')%nat ->
  pairwise_sum d l = pairwise_sum d' l.
Proof.
  revert d' l. induction d as [|d IH]; intros d' l Hd Hd';
    rewrite (pairwise_sum_unfold _ l), (pairwise_sum_unfold d' l).
  - destruct l; [|simpl in Hd; lia]. reflexivity.
  - destruct (List.length l <? 8)%nat; [reflexivity|].
    destruct (Nat.leb_spec (List.length l) 128) as [_|Hlong]; [reflexivity|].
    destruct d' as [|d']; [lia|].
    set (n2 := (List.length l / 2 - (List.length l / 2) mod 8)%nat).
    assert (Hn2 : (1 <= n2 < List.length l)%nat).
    { unfold n2.
      pose proof (Nat.mod_upper_bound (List.length l / 2) 8 ltac:(lia)).
      assert (64 <= List.length l / 2)%nat by (apply Nat.div_le_lower_bound; lia).
      assert (List.length l / 2 <= List.length l)%nat
        by (apply Nat.Div0.div_le_upper_bound; lia).
      assert (List.length l / 2 < List.length l)%nat by (apply Nat.div_lt; lia).
      lia. }
    f_equal; apply IH; rewrite ?length_firstn, ?length_skipn; lia.
Qed.

Lemma pairwise_sum_nan_head (depth : nat) (x : float) (l : list float) :
  is_nan x = true -> is_nan (pairwise_sum depth (x :: l)) = true.
Proof.
  revert l. induction depth as [|d IH]; intros l H; rewrite pairwise_sum_unfold.
  - destruct (List.length (x :: l) <? 8)%nat.
    + cbn [fold_left]. apply fold_add_nan. now apply add_nan_r.
    + destruct (List.length (x :: l) <=? 128)%nat; now apply sum_unrolled_nan_head.
  - destruct (List.length (x :: l) <? 8)%nat.
    + cbn [fold_left]. apply fold_add_nan. now apply add_nan_r.
    + destruct (Nat.leb_spec (List.length (x :: l)) 128) as [_|Hlong];
        [now apply sum_unrolled_nan_head|].
      set (n2 := (List.length (x :: l) / 2 - (List.length (x :: l) / 2) mod 8)%nat).
      assert (Hn2 : exists k, n2 = S k).
      { exists (n2 - 1)%nat. unfold n2.
        pose proof (Nat.mod_upper_bound (List.length (x :: l) / 2) 8 ltac:(lia)).
        assert (64 <= List.length (x :: l) / 2)%nat
          by (apply Nat.div_le_lower_bound; lia).
        lia. }
      destruct Hn2 as [k ->]. cbn [firstn]. apply add_nan_l. now apply IH.
Qed.

Lemma fsum_nan_head (x : float) (l : list float) :
  is_nan x = true -> is_nan (fsum (x :: l)) = true.
Proof. intros H. unfold fsum. now apply pairwise_sum_nan_head. Qed.

Lemma fmean_nan_head (x : float) (l : list float) :
  is_nan x = true -> is_nan (fmean (x :: l)) = true.
Proof.
  intros H. unfold fmean. apply div_nan_l. now apply fsum_nan_head.
Qed.

(** numpy's [std] of an array that begins with NaN is NaN. *)
Lemma np_std_nan_head (x : float) (l : list float) :
  is_nan x = true -> is_nan (np_std (x :: l)) = true.
Proof.
  intros H. unfold np_std. cbv zeta. apply sqrt_nan. simpl map.
  apply fmean_nan_head. apply mul_nan_l. now apply sub_nan_l.
Qed.

(** C4, amended.  A sample whose value or rate is undefined (the first
    sample always is: its rate is NaN) is flagged MISSING_DATA.  A sample
    whose value and rate are defined and whose absolute rate does not
    exceed [std_multiplier] times the deviation of the rates that are
    defined is flagged PASS.  No sample is flagged FAIL. *)
Theorem rate_of_change_classification :
  forall (data : DataArray float) (std_multiplier : float) (i : nat) (t : Z) (v : float),
    nth_error data i = Some (t, v) ->
    exists r,
      nth_error (rate data) i = Some r /\
      (i = 0%nat -> is_nan r = true) /\
      (is_nan v = true \/ is_nan r = true ->
       nth_error (rate_of_change_test data std_multiplier) i = Some (t, MISSING_DATA)) /\
      (is_nan v = false -> is_nan r = false ->
       (std_multiplier * nanstd (rate data) <? abs r) = false ->
       nth_error (rate_of_change_test data std_multiplier) i = Some (t, PASS)) /\
      Forall (fun p => snd p <> FAIL) (rate_of_change_test data std_multiplier).
Proof.
  intros data k i t v Hi.
  assert (Hstd : is_nan (np_std (rate data)) = true)
    by (unfold rate; now apply np_std_nan_head).
  assert (Hcmp : forall r, (k * np_std (rate data) <? abs r) = false)
    by (intros r; apply ltb_nan_l; now apply mul_nan_r).
  destruct (rate_of_change_test_nth data k i t v Hi) as (r & Hr & H0 & Hflag).
  exists r. split; [assumption|]. split; [intros ->; now rewrite (H0 eq_refl)|].
  rewrite Hflag, rate_of_change_flag_cases, Hcmp. repeat split.
  - intros [-> | ->]; [reflexivity | now rewrite orb_true_r].
  - now intros -> -> _.
  - apply Forall_forall. intros p Hp. unfold rate_of_change_test in Hp.
    apply in_map_iff in Hp as [[[t' v'] r'] [<- _]]. simpl.
    rewrite rate_of_change_flag_cases, Hcmp.
    destruct (is_nan v' || is_nan r'); discriminate.
Qed.

Lemma rate_of_change_classification_witness :
  let data := [(sec 0, 0); (sec 1, 1); (sec 2, 0); (sec 3, 1); (sec 4, 0)] in
  nth_error data 1 = Some (sec 1, 1) /\
  exists r,
    nth_error (rate data) 1 = Some r /\
    (1%nat = 0%nat -> is_nan r = true) /\
    (is_nan 1 = true \/ is_nan r = true ->
     nth_error (rate_of_change_test data 2) 1 = Some (sec 1, MISSING_DATA)) /\
    (is_nan 1 = false -> is_nan r = false ->
     (2 * nanstd (rate data) <? abs r) = false ->
     nth_error (rate_of_change_test data 2) 1 = Some (sec 1, PASS)) /\
    Forall (fun p => snd p <> FAIL) (rate_of_change_test data 2).
Proof.
  intros data. split; [reflexivity|].
  exact (rate_of_change_classification data 2 1 (sec 1) 1 eq_refl).
Defined.

(** X25 (rate of change, threshold).  The deviation the rate of change
    test compares with is taken over the rates with the NaN put in front
    of them, so it is NaN and no rate exceeds the threshold: every sample
    is flagged MISSING_DATA when its value or its rate is missing and PASS
    otherwise, whatever [std_multiplier] is.  The test never assigns
    HIGH_INTEREST. *)
Theorem rate_of_change_never_high_interest :
  forall (data : DataArray float) (std_multiplier : float),
    is_nan (np_std (rate data)) = true /\
    Forall (fun p => snd p = PASS \/ snd p = MISSING_DATA)
           (rate_of_change_test data std_multiplier) /\
    forall i t v,
      nth_error data i = Some (t, v) ->
      exists r,
        nth_error (rate data) i = Some r /\
        nth_error (rate_of_change_test data std_multiplier) i
        = Some (t, if is_nan v || is_nan r then MISSING_DATA else PASS).
Proof.
  intros data k.
  assert (Hstd : is_nan (np_std (rate data)) = true)
    by (unfold rate; now apply np_std_nan_head).
  assert (Hflag : forall v r,
            rate_of_change_flag k (np_std (rate data)) v r
            = if is_nan v || is_nan r then MISSING_DATA else PASS).
  { intros v r. rewrite rate_of_change_flag_cases.
    now rewrite (ltb_nan_l _ (abs r) (mul_nan_r k _ Hstd)). }
  split; [exact Hstd|]. split.
  - apply Forall_forall. intros p Hp. unfold rate_of_change_test in Hp.
    apply in_map_iff in Hp as [[[t v] r] [<- _]]. simpl. rewrite Hflag.
    destruct (is_nan v || is_nan r); auto.
  - intros i t v Hi.
    destruct (rate_of_change_test_nth data k i t v Hi) as (r & Hr & _ & Hnth).
    exists r. split; [exact Hr|]. now rewrite Hnth, Hflag.
Qed.

End RateOfChangeThreshold.
